(** * Boot-time pool discovery (zfs_boot.cpp): a shallow embedding

    The C/C++ functions of [src/module/zfs/zfs_boot.cpp] are written out as
    Rocq functions, each under the name it has in the source.  Machine
    integers are [Z] with the wrap-around spelled out, C strings are
    [string], the intrusive singly linked lists are [list]s whose head is
    the most recently inserted node, and functions that mutate the pool
    list take it as an argument and return the new one.

    Allocations are made with [KM_SLEEP] and taken to succeed, so the
    out-of-memory exits are not followed.  The flag [terminating] is read
    at several points of a function; a call is followed on its own here,
    so all its reads of the flag agree. *)

From Stdlib Require Import ZArith Lia Bool List String Ascii.
From stdpp Require Import base option list.
Import ListNotations.

Local Open Scope Z_scope.

(** * Part I: the program *)

(** ** Machine words *)

Module Word.

Definition wrap64 (z : Z) : Z := z mod 2 ^ 64.

Definition wrap32 (z : Z) : Z := z mod 2 ^ 32.

(** A [uint64_t] value. *)
Definition is_u64 (z : Z) : Prop := 0 <= z < 2 ^ 64.

(** [P2ALIGN_TYPED(x, align, uint64_t)] of sys/sysmacros.h:
    [(x) & -(align)], both operands taken as [uint64_t]. *)
Definition P2ALIGN (x align : Z) : Z := Z.land x (wrap64 (- align)).

(** [P2PHASE_TYPED(x, align, uint64_t)]: [(x) & ((align) - 1)]. *)
Definition P2PHASE (x align : Z) : Z := Z.land x (wrap64 (align - 1)).

End Word.

Import Word.

(** ** C strings *)

Module CStr.

Definition strlen (s : string) : Z := Z.of_nat (String.length s).

Definition uchar (c : ascii) : Z := Z.of_nat (nat_of_ascii c).

(** [strncmp(s1, s2, n)]: the difference of the first pair of bytes
    that differ among the first [n], the terminator included. *)
Fixpoint strncmp (s1 s2 : string) (n : nat) : Z :=
  match n with
  | O => 0
  | S n' =>
      match s1, s2 with
      | EmptyString, EmptyString => 0
      | EmptyString, String c2 _ => 0 - uchar c2
      | String c1 _, EmptyString => uchar c1
      | String c1 r1, String c2 r2 =>
          if Ascii.eqb c1 c2 then strncmp r1 r2 n'
          else uchar c1 - uchar c2
      end
  end.

(** The comparison idiom of the source:
    [strlen(a) == strlen(b) && strncmp(a, b, strlen(..)) == 0]. *)
Definition same_string (a b : string) : bool :=
  (strlen a =? strlen b) && (strncmp a b (String.length a) =? 0).

(** [strchr(s, c)] as the index of the first occurrence. *)
Fixpoint strchr (s : string) (c : ascii) : option nat :=
  match s with
  | EmptyString => None
  | String d r =>
      if Ascii.eqb d c then Some O
      else match strchr r c with Some i => Some (S i) | None => None end
  end.

(** [snprintf(dst, len + 1, "%s", src)]: the first [len] bytes. *)
Fixpoint take_chars (len : nat) (s : string) : string :=
  match len, s with
  | S n, String c r => String c (take_chars n r)
  | _, _ => EmptyString
  end.

End CStr.

Import CStr.

(** ** Property lists *)

Module Nv.

(** Modelled from the spec: the packed property list library (libnvpair,
    [nvlist_t]) is not part of the sources; spec section 3 describes a
    decoded config as "a recursive map of named typed values".  A list
    keeps the pairs in insertion order; the lists the boot code builds
    and the labels it decodes carry [NV_UNIQUE_NAME], so adding a pair
    replaces the pair of that name. *)
Inductive nvlist : Type :=
| NVL (pairs : list (string * nvvalue))
with nvvalue : Type :=
| V_uint64 (v : Z)
| V_string (s : string)
| V_uint64_array (a : list Z)
| V_nvlist (nv : nvlist)
| V_nvlist_array (a : list nvlist).

Definition pairs_of (nvl : nvlist) : list (string * nvvalue) :=
  match nvl with NVL ps => ps end.

Definition nvlist_alloc : nvlist := NVL [].

(** A typed lookup walks the pairs for one of the name and the type. *)
Fixpoint lookup_with {A} (sel : nvvalue -> option A)
    (ps : list (string * nvvalue)) (name : string) : option A :=
  match ps with
  | [] => None
  | (n, v) :: r =>
      if String.eqb n name then
        match sel v with
        | Some a => Some a
        | None => lookup_with sel r name
        end
      else lookup_with sel r name
  end.

Definition nvlist_lookup_uint64 (nvl : nvlist) (name : string) : option Z :=
  lookup_with (fun v => match v with V_uint64 z => Some z | _ => None end)
    (pairs_of nvl) name.

Definition nvlist_lookup_string (nvl : nvlist) (name : string)
  : option string :=
  lookup_with (fun v => match v with V_string s => Some s | _ => None end)
    (pairs_of nvl) name.

Definition nvlist_lookup_uint64_array (nvl : nvlist) (name : string)
  : option (list Z) :=
  lookup_with
    (fun v => match v with V_uint64_array a => Some a | _ => None end)
    (pairs_of nvl) name.

Definition nvlist_lookup_nvlist (nvl : nvlist) (name : string)
  : option nvlist :=
  lookup_with (fun v => match v with V_nvlist n => Some n | _ => None end)
    (pairs_of nvl) name.

Definition nvlist_lookup_nvlist_array (nvl : nvlist) (name : string)
  : option (list nvlist) :=
  lookup_with
    (fun v => match v with V_nvlist_array a => Some a | _ => None end)
    (pairs_of nvl) name.

Definition other_name (name : string) (p : string * nvvalue) : bool :=
  negb (String.eqb (fst p) name).

(** [nvlist_remove_all]: every pair of that name goes. *)
Definition nvlist_remove_all (nvl : nvlist) (name : string) : nvlist :=
  NVL (List.filter (other_name name) (pairs_of nvl)).

(** [nvlist_add_*] on a unique-name list. *)
Definition nvlist_add (nvl : nvlist) (name : string) (v : nvvalue)
  : nvlist :=
  NVL (List.filter (other_name name) (pairs_of nvl) ++ [(name, v)]).

Definition nvlist_add_uint64 nvl name (z : Z) :=
  nvlist_add nvl name (V_uint64 z).

Definition nvlist_add_string nvl name (s : string) :=
  nvlist_add nvl name (V_string s).

Definition nvlist_add_uint64_array nvl name (a : list Z) :=
  nvlist_add nvl name (V_uint64_array a).

Definition nvlist_add_nvlist nvl name (n : nvlist) :=
  nvlist_add nvl name (V_nvlist n).

Definition nvlist_add_nvlist_array nvl name (a : list nvlist) :=
  nvlist_add nvl name (V_nvlist_array a).

(** [nvlist_dup] makes a deep copy: the same value. *)
Definition nvlist_dup (nvl : nvlist) : nvlist := nvl.

End Nv.

Import Nv.

(** ** Constants of the on-disk format *)
(** Modelled from the spec: the names and numbers below come from the
    vendored on-disk format headers (sys/fs/zfs.h, sys/vdev_impl.h), which
    are not part of the sources.  The spec names the keys in section 3 and
    the pool states [SPARE], [L2CACHE], [DESTROYED] in section 4; the
    numbers are those of [pool_state_t]. *)
Definition ZPOOL_CONFIG_VERSION : string := "version".

Definition ZPOOL_CONFIG_POOL_NAME : string := "name".

Definition ZPOOL_CONFIG_POOL_STATE : string := "state".

Definition ZPOOL_CONFIG_POOL_TXG : string := "txg".

Definition ZPOOL_CONFIG_POOL_GUID : string := "pool_guid".

Definition ZPOOL_CONFIG_TOP_GUID : string := "top_guid".

Definition ZPOOL_CONFIG_VDEV_TREE : string := "vdev_tree".

Definition ZPOOL_CONFIG_TYPE : string := "type".

Definition ZPOOL_CONFIG_CHILDREN : string := "children".

Definition ZPOOL_CONFIG_ID : string := "id".

Definition ZPOOL_CONFIG_GUID : string := "guid".

Definition ZPOOL_CONFIG_PATH : string := "path".

Definition ZPOOL_CONFIG_DEVID : string := "devid".

Definition ZPOOL_CONFIG_VDEV_CHILDREN : string := "vdev_children".

Definition ZPOOL_CONFIG_HOLE_ARRAY : string := "hole_array".

Definition VDEV_TYPE_ROOT : string := "root".

Definition VDEV_TYPE_MISSING : string := "missing".

Definition VDEV_TYPE_HOLE : string := "hole".

Definition POOL_STATE_ACTIVE : Z := 0.

Definition POOL_STATE_EXPORTED : Z := 1.

Definition POOL_STATE_DESTROYED : Z := 2.

Definition POOL_STATE_SPARE : Z := 3.

Definition POOL_STATE_L2CACHE : Z := 4.

Definition VDEV_LABELS : Z := 4.

(** Modelled from the spec: [sizeof (vdev_label_t)] is fixed by a type of
    the format headers; "256 KiB in the reference" (spec sections 3, 6). *)
Definition sizeof_vdev_label_t : Z := 2 ^ 18.

Definition kIOReturnSuccess : Z := 0.

(** ** Label codec *)
(** [zfs_boot_label_offset(size, l)].  [l] is an [int]; the product and the
    sums are taken in [uint64_t].  [labelsize] stands for
    [sizeof (vdev_label_t)]. *)
Definition zfs_boot_label_offset (labelsize size l : Z) : Z :=
  wrap64 (wrap64 (wrap64 l * labelsize)
          + (if l <? VDEV_LABELS / 2 then 0
             else wrap64 (size - wrap64 (VDEV_LABELS * labelsize)))).

(** What one [IOMedia::read] of a label copy gives back, with the outcome of
    [nvlist_unpack] on the bytes it delivered ([None]: they do not
    unpack). *)
Record label_io : Type := {
  io_ret : Z;
  io_nread : Z;
  io_unpack : option nvlist
}.

(** An [IOMedia] as the boot code sees it.  [media_leaf] is the [Leaf]
    property: its value, where the media has the property. *)
Record IOMedia : Type := {
  media_id : Z;
  media_size : Z;
  media_leaf : option bool;
  media_bsd_name : option string;
  media_uuid : option string;
  media_open : bool;
  media_read : Z -> label_io
}.

(** The three checks a decoded label goes through; [Some guid] when it
    passes them all. *)
Definition label_guid_check (config : nvlist) : option Z :=
  match nvlist_lookup_uint64 config ZPOOL_CONFIG_GUID with
  | None => None
  | Some guid => if guid =? 0 then None else Some guid
  end.

Definition label_state_check (config : nvlist) : option Z :=
  match nvlist_lookup_uint64 config ZPOOL_CONFIG_POOL_STATE with
  | None => None
  | Some state => if state >? POOL_STATE_L2CACHE then None else Some state
  end.

Definition label_txg_check (config : nvlist) (state : Z) : bool :=
  if negb (state =? POOL_STATE_SPARE) && negb (state =? POOL_STATE_L2CACHE)
  then match nvlist_lookup_uint64 config ZPOOL_CONFIG_POOL_TXG with
       | None => false
       | Some txg => negb (txg =? 0)
       end
  else true.

(** The locals the label loop carries from one copy to the next. *)
Record label_loop : Type := {
  expected_config : option nvlist;
  expected_guid : Z;
  count : Z
}.

Definition label_loop_init : label_loop :=
  {| expected_config := None; expected_guid := 0; count := 0 |}.

(** One turn of [for (l = 0; l < VDEV_LABELS; l++)]. *)
Definition read_label_step (labelsize size : Z) (media : IOMedia)
    (st : label_loop) (l : Z) : label_loop :=
  let io := media_read media (zfs_boot_label_offset labelsize size l) in
  if negb (io_ret io =? kIOReturnSuccess) then st
  else if io_nread io <? labelsize then st
  else match io_unpack io with
  | None => st
  | Some config =>
      match label_guid_check config with
      | None => st
      | Some guid =>
          match label_state_check config with
          | None => st
          | Some state =>
              if negb (label_txg_check config state) then st
              else if negb (expected_guid st =? 0) then
                if expected_guid st =? guid
                then {| expected_config := expected_config st;
                        expected_guid := expected_guid st;
                        count := count st + 1 |}
                else st
              else {| expected_config := Some config;
                      expected_guid := guid;
                      count := count st + 1 |}
          end
      end
  end.

Definition label_indices : list Z := [0; 1; 2; 3].

(** [zfs_boot_read_label]: the return value, [*config] and [*num_labels]
    ([None] when the function leaves [*num_labels] unwritten). *)
Definition zfs_boot_read_label (labelsize : Z) (media : option IOMedia)
    : Z * option nvlist * option Z :=
  match media with
  | None => (-1, None, None)
  | Some m =>
      if media_size m =? 0 then (-1, None, None)
      else
        let size := P2ALIGN (media_size m) labelsize in
        if negb (media_open m) then (-1, None, None)
        else
          let st := fold_left (read_label_step labelsize size m)
                      label_indices label_loop_init in
          (0, expected_config st, Some (count st))
  end.

(** The label copy the loop looks at in turn [l], as far as it is usable:
    read in full, unpacked, and through the guid, state and txg checks. *)
Definition accepted_copy (labelsize : Z) (media : IOMedia) (l : Z)
    : option (Z * nvlist) :=
  let size := P2ALIGN (media_size media) labelsize in
  let io := media_read media (zfs_boot_label_offset labelsize size l) in
  if negb (io_ret io =? kIOReturnSuccess) then None
  else if io_nread io <? labelsize then None
  else match io_unpack io with
  | None => None
  | Some config =>
      match label_guid_check config, label_state_check config with
      | Some guid, Some state =>
          if label_txg_check config state then Some (guid, config) else None
      | _, _ => None
      end
  end.

(** The accepted copies among the given indices, in their order. *)
Fixpoint accepted_among (labelsize : Z) (media : IOMedia) (ls : list Z)
    : list (Z * nvlist) :=
  match ls with
  | [] => []
  | l :: rest =>
      match accepted_copy labelsize media l with
      | Some p => p :: accepted_among labelsize media rest
      | None => accepted_among labelsize media rest
      end
  end.

(** The accepted copies of a device, in the order 0..3. *)
Definition accepted_copies (labelsize : Z) (media : IOMedia)
    : list (Z * nvlist) :=
  accepted_among labelsize media label_indices.

(** The consensus rule in the spec's words: the first accepted copy is the
    config, and the count is that of the accepted copies with its guid. *)
Definition same_guid (guid : Z) (p : Z * nvlist) : bool := fst p =? guid.

Definition consensus (acc : list (Z * nvlist)) : option nvlist * Z :=
  match acc with
  | [] => (None, 0)
  | (guid, config) :: _ =>
      (Some config,
       Z.of_nat (List.length (List.filter (same_guid guid) acc)))
  end.

(** A decoded label is usable, in the words of the spec (4.B step 2). *)
Definition usable_label (config : nvlist) (guid : Z) : Prop :=
  nvlist_lookup_uint64 config ZPOOL_CONFIG_GUID = Some guid /\
  guid <> 0 /\
  exists state,
    nvlist_lookup_uint64 config ZPOOL_CONFIG_POOL_STATE = Some state /\
    state <= POOL_STATE_L2CACHE /\
    (state <> POOL_STATE_SPARE -> state <> POOL_STATE_L2CACHE ->
     exists txg,
       nvlist_lookup_uint64 config ZPOOL_CONFIG_POOL_TXG = Some txg /\
       txg <> 0).

(** Scenario S2 of the spec: copies {valid, zeroed, valid with another
    guid, valid} on a 64 MiB device. *)
Definition s2_label (guid : Z) : nvlist :=
  NVL [ (ZPOOL_CONFIG_POOL_NAME, V_string "tank");
        (ZPOOL_CONFIG_POOL_STATE, V_uint64 POOL_STATE_ACTIVE);
        (ZPOOL_CONFIG_POOL_TXG, V_uint64 12);
        (ZPOOL_CONFIG_POOL_GUID, V_uint64 1001);
        (ZPOOL_CONFIG_TOP_GUID, V_uint64 guid);
        (ZPOOL_CONFIG_GUID, V_uint64 guid) ].

Definition s2_read (off : Z) : label_io :=
  let full cfg := {| io_ret := kIOReturnSuccess;
                     io_nread := sizeof_vdev_label_t;
                     io_unpack := cfg |} in
  if off =? 0 then full (Some (s2_label 7))
  else if off =? sizeof_vdev_label_t then full None
  else if off =? 64 * 2 ^ 20 - 2 * sizeof_vdev_label_t
       then full (Some (s2_label 9))
  else if off =? 64 * 2 ^ 20 - sizeof_vdev_label_t
       then full (Some (s2_label 7))
  else {| io_ret := 1; io_nread := 0; io_unpack := None |}.

Definition s2_media : IOMedia :=
  {| media_id := 1;
     media_size := 64 * 2 ^ 20;
     media_leaf := Some true;
     media_bsd_name := Some "disk0"%string;
     media_uuid := None;
     media_open := true;
     media_read := s2_read |}.

(** ** Aggregation tree *)
Record config_entry : Type := {
  ce_txg : Z;
  ce_config : nvlist
}.

Record vdev_entry : Type := {
  ve_guid : Z;
  ve_configs : list config_entry
}.

Record pool_entry : Type := {
  pe_guid : Z;
  pe_vdevs : list vdev_entry
}.

Record name_entry : Type := {
  ne_name : string;
  ne_guid : Z;
  ne_order : Z;
  ne_num_labels : Z
}.

Definition ZFS_BOOT_ACTIVE : Z := 1.

Definition ZFS_BOOT_TERMINATING : Z := 2.

(** [pool_list_t].  The lock, the condition variable and the host handles
    have no content of their own here; [disks] is the [OSSet] of pending
    media. *)
Record pool_list : Type := {
  pools : list pool_entry;
  names : list name_entry;
  pool_guid : Z;
  pool_name : option string;
  disks : list IOMedia;
  terminating : Z
}.

Definition set_tree (pl : pool_list) (ps : list pool_entry)
    (ns : list name_entry) : pool_list :=
  {| pools := ps; names := ns;
     pool_guid := pool_guid pl; pool_name := pool_name pl;
     disks := disks pl; terminating := terminating pl |}.

Definition set_disks (pl : pool_list) (ds : list IOMedia) : pool_list :=
  {| pools := pools pl; names := names pl;
     pool_guid := pool_guid pl; pool_name := pool_name pl;
     disks := ds; terminating := terminating pl |}.

(** The node a linked-list search stops at is the first match; what the
    source then writes through that pointer changes that node in place. *)
Fixpoint replace_first {A} (p : A -> bool) (y : A) (l : list A) : list A :=
  match l with
  | [] => []
  | x :: r => if p x then y :: r else x :: replace_first p y r
  end.

(** The test of the three search loops: [x->key == k]. *)
Definition has_key {A} (key : A -> Z) (k : Z) (x : A) : bool := key x =? k.

Definition is_pool (guid : Z) : pool_entry -> bool := has_key pe_guid guid.

Definition is_vdev (guid : Z) : vdev_entry -> bool := has_key ve_guid guid.

Definition is_txg (txg : Z) : config_entry -> bool := has_key ce_txg txg.

(** What a call of [zfs_boot_add_config] leaves behind: the return value,
    the pool list, and whether it has freed the config it was given. *)
Record add_result : Type := {
  ac_ret : Z;
  ac_pl : pool_list;
  ac_freed : bool
}.

(** The [name_entry_t] both exits of [zfs_boot_add_config] fill in; the
    [int] arguments are stored in [uint64_t] fields. *)
Definition new_name_entry (path : string) (vdev_guid order num_labels : Z)
    : name_entry :=
  {| ne_name := path; ne_guid := vdev_guid;
     ne_order := wrap64 order; ne_num_labels := wrap64 num_labels |}.

(** First test of [zfs_boot_add_config]: an unused hot spare or a level 2
    cache device that has a guid. *)
Definition spare_or_l2cache_guid (config : nvlist) : option Z :=
  match nvlist_lookup_uint64 config ZPOOL_CONFIG_POOL_STATE with
  | Some state =>
      if (state =? POOL_STATE_SPARE) || (state =? POOL_STATE_L2CACHE)
      then nvlist_lookup_uint64 config ZPOOL_CONFIG_GUID
      else None
  | None => None
  end.

(** Second test: the four fields of a fully initialised label, as
    [(pool_guid, vdev_guid, top_guid, txg)]. *)
Definition label_identity (config : nvlist) : option (Z * Z * Z * Z) :=
  match nvlist_lookup_uint64 config ZPOOL_CONFIG_POOL_GUID with
  | None => None
  | Some pool_guid =>
  match nvlist_lookup_uint64 config ZPOOL_CONFIG_GUID with
  | None => None
  | Some vdev_guid =>
  match nvlist_lookup_uint64 config ZPOOL_CONFIG_TOP_GUID with
  | None => None
  | Some top_guid =>
  match nvlist_lookup_uint64 config ZPOOL_CONFIG_POOL_TXG with
  | None => None
  | Some txg =>
      if txg =? 0 then None else Some (pool_guid, vdev_guid, top_guid, txg)
  end end end end.

(** Third step of [zfs_boot_add_config], on the vdev entry [ve] points
    at: a config of that transaction group stays and the new one is freed
    (second component [true]); otherwise the new one goes to the head. *)
Definition add_to_vdev (txg : Z) (config : nvlist) (ve : vdev_entry)
    : vdev_entry * bool :=
  match List.find (is_txg txg) (ve_configs ve) with
  | None =>
      ({| ve_guid := ve_guid ve;
          ve_configs := {| ce_txg := txg; ce_config := config |}
                        :: ve_configs ve |}, false)
  | Some _ => (ve, true)
  end.

(** Second step, on the pool entry [pe] points at: find the top-level
    vdev or put a new one at the head, then go on inside it. *)
Definition add_to_pool (top_guid txg : Z) (config : nvlist)
    (pe : pool_entry) : pool_entry * bool :=
  let '(ve, vdevs1) :=
    match List.find (is_vdev top_guid) (pe_vdevs pe) with
    | Some ve => (ve, pe_vdevs pe)
    | None =>
        let ve := {| ve_guid := top_guid; ve_configs := [] |} in
        (ve, ve :: pe_vdevs pe)
    end in
  let '(ve', freed) := add_to_vdev txg config ve in
  ({| pe_guid := pe_guid pe;
      pe_vdevs := replace_first (is_vdev top_guid) ve' vdevs1 |}, freed).

(** First step: find the pool or put a new one at the head. *)
Definition add_to_pools (pool_guid top_guid txg : Z) (config : nvlist)
    (ps : list pool_entry) : list pool_entry * bool :=
  let '(pe, pools1) :=
    match List.find (is_pool pool_guid) ps with
    | Some pe => (pe, ps)
    | None =>
        let pe := {| pe_guid := pool_guid; pe_vdevs := [] |} in
        (pe, pe :: ps)
    end in
  let '(pe', freed) := add_to_pool top_guid txg config pe in
  (replace_first (is_pool pool_guid) pe' pools1, freed).

Definition zfs_boot_add_config (pl : pool_list) (path : string)
    (order num_labels : Z) (config : nvlist) : add_result :=
  match spare_or_l2cache_guid config with
  | Some vdev_guid =>
      {| ac_ret := 0;
         ac_pl := set_tree pl (pools pl)
                    (new_name_entry path vdev_guid order num_labels
                     :: names pl);
         ac_freed := false |}
  | None =>
  match label_identity config with
  | None => {| ac_ret := 0; ac_pl := pl; ac_freed := true |}
  | Some (pool_guid, vdev_guid, top_guid, txg) =>
      let '(pools', freed) :=
        add_to_pools pool_guid top_guid txg config (pools pl) in
      {| ac_ret := 0;
         ac_pl := set_tree pl pools'
                    (new_name_entry path vdev_guid order num_labels
                     :: names pl);
         ac_freed := freed |}
  end
  end.

(** A call of [zfs_boot_add_config], and a run of such calls. *)
Record add_call : Type := {
  call_path : string;
  call_order : Z;
  call_num_labels : Z;
  call_config : nvlist
}.

Definition add_one (pl : pool_list) (c : add_call) : pool_list :=
  ac_pl (zfs_boot_add_config pl (call_path c) (call_order c)
           (call_num_labels c) (call_config c)).

Definition add_all (pl : pool_list) (calls : list add_call) : pool_list :=
  fold_left add_one calls pl.

(** The pool list as [zfs_boot_init] sets it up. *)
Definition new_pool_list (name : option string) (guid : Z) : pool_list :=
  {| pools := []; names := []; pool_guid := guid; pool_name := name;
     disks := []; terminating := ZFS_BOOT_ACTIVE |}.

(** The tree holds config entry [ce] under the keys
    [(pool_guid, top_guid)]. *)
Definition has_config (pl : pool_list) (pool_guid top_guid : Z)
    (ce : config_entry) : Prop :=
  exists pe ve,
    In pe (pools pl) /\ pe_guid pe = pool_guid /\
    In ve (pe_vdevs pe) /\ ve_guid ve = top_guid /\
    In ce (ve_configs ve).

(** Keys are unique on every level of the tree. *)
Definition vdev_inv (ve : vdev_entry) : Prop :=
  List.NoDup (List.map ce_txg (ve_configs ve)).

Definition pool_inv (pe : pool_entry) : Prop :=
  List.NoDup (List.map ve_guid (pe_vdevs pe)) /\
  Forall vdev_inv (pe_vdevs pe).

Definition tree_inv (pl : pool_list) : Prop :=
  List.NoDup (List.map pe_guid (pools pl)) /\
  Forall pool_inv (pools pl).

Definition half_initialised_label : nvlist :=
  NVL [ (ZPOOL_CONFIG_POOL_STATE, V_uint64 POOL_STATE_ACTIVE);
        (ZPOOL_CONFIG_POOL_GUID, V_uint64 1001);
        (ZPOOL_CONFIG_TOP_GUID, V_uint64 7);
        (ZPOOL_CONFIG_GUID, V_uint64 7);
        (ZPOOL_CONFIG_POOL_TXG, V_uint64 0) ].

(** Two devices of one mirror report the same txg: the second config is
    freed and the entry of the first stays. *)
Definition mirror_label (vdev_guid : Z) : nvlist :=
  NVL [ (ZPOOL_CONFIG_POOL_NAME, V_string "tank");
        (ZPOOL_CONFIG_POOL_STATE, V_uint64 POOL_STATE_ACTIVE);
        (ZPOOL_CONFIG_POOL_TXG, V_uint64 12);
        (ZPOOL_CONFIG_POOL_GUID, V_uint64 1001);
        (ZPOOL_CONFIG_TOP_GUID, V_uint64 50);
        (ZPOOL_CONFIG_GUID, V_uint64 vdev_guid) ].

(** ** Path fixup *)
(** [zfs_boot_get_devid]: the interface is unavailable, the result is
    always [NULL]. *)
Definition zfs_boot_get_devid (path : string) : option string := None.

(** The walk over the name list in [zfs_boot_fix_paths], with [best] as it
    stands; the two [break]s end the walk. *)
Fixpoint names_walk (path : option string) (guid : Z)
    (names : list name_entry) (best : option name_entry)
    : option name_entry :=
  match names with
  | [] => best
  | ne :: rest =>
      if ne_guid ne =? guid then
        match path with
        | None => Some ne
        | Some p =>
            if same_string p (ne_name ne) then Some ne
            else
              match best with
              | None => names_walk path guid rest (Some ne)
              | Some b =>
                  if ne_num_labels ne >? ne_num_labels b
                  then names_walk path guid rest (Some ne)
                  else if (ne_num_labels ne =? ne_num_labels b)
                          && (ne_order ne <? ne_order b)
                  then names_walk path guid rest (Some ne)
                  else names_walk path guid rest best
              end
        end
      else names_walk path guid rest best
  end.

(** The leaf part of [zfs_boot_fix_paths], once the guid is known. *)
Definition fix_leaf (nv : nvlist) (guid : Z) (names : list name_entry)
    : nvlist :=
  let path := nvlist_lookup_string nv ZPOOL_CONFIG_PATH in
  match names_walk path guid names None with
  | None => nv
  | Some best =>
      let nv1 := nvlist_add_string nv ZPOOL_CONFIG_PATH (ne_name best) in
      match zfs_boot_get_devid (ne_name best) with
      | None => nvlist_remove_all nv1 ZPOOL_CONFIG_DEVID
      | Some devid => nvlist_add_string nv1 ZPOOL_CONFIG_DEVID devid
      end
  end.

(** [zfs_boot_fix_paths].  An interior vdev has its children fixed in
    place; a leaf goes through [fix_leaf].  The result is [None] where the
    source, after [verify] has printed, would go on with a guid it never
    read. *)
Fixpoint zfs_boot_fix_paths (names : list name_entry) (nv : nvlist)
    {struct nv} : option nvlist :=
  match nv with
  | NVL ps =>
      let fix children (cs : list nvlist) : option (list nvlist) :=
        match cs with
        | [] => Some []
        | c :: r =>
            match zfs_boot_fix_paths names c, children r with
            | Some c', Some r' => Some (c' :: r')
            | _, _ => None
            end
        end in
      let fix pairs (ps : list (string * nvvalue))
          : option (option (list (string * nvvalue))) :=
        (* [None]: no child array; [Some None]: a child without guid *)
        match ps with
        | [] => None
        | (n, v) :: r =>
            match v with
            | V_nvlist_array cs =>
                if String.eqb n ZPOOL_CONFIG_CHILDREN then
                  Some (match children cs with
                        | Some cs' => Some ((n, V_nvlist_array cs') :: r)
                        | None => None
                        end)
                else
                  match pairs r with
                  | None => None
                  | Some None => Some None
                  | Some (Some r') => Some (Some ((n, v) :: r'))
                  end
            | _ =>
                match pairs r with
                | None => None
                | Some None => Some None
                | Some (Some r') => Some (Some ((n, v) :: r'))
                end
            end
        end in
      match pairs ps with
      | Some (Some ps') => Some (NVL ps')
      | Some None => None
      | None =>
          match nvlist_lookup_uint64 nv ZPOOL_CONFIG_GUID with
          | None => None
          | Some guid => Some (fix_leaf nv guid names)
          end
      end
  end.

(** [a] is the better name for a vdev than [b]: more labels, or as many
    and earlier in the search order. *)
Definition better (a b : name_entry) : Prop :=
  ne_num_labels a > ne_num_labels b \/
  (ne_num_labels a = ne_num_labels b /\ ne_order a < ne_order b).

(** The name entries of a guid, in list order. *)
Definition candidates (guid : Z) (names : list name_entry)
    : list name_entry :=
  List.filter (fun ne => ne_guid ne =? guid) names.

(** A disk seen under two paths, neither the one in its label: the path
    with four labels is taken over the one with two. *)
Definition leaf_vdev : nvlist :=
  NVL [ (ZPOOL_CONFIG_TYPE, V_string "disk");
        (ZPOOL_CONFIG_ID, V_uint64 0);
        (ZPOOL_CONFIG_GUID, V_uint64 51);
        (ZPOOL_CONFIG_PATH, V_string "/dev/disk9s1");
        (ZPOOL_CONFIG_DEVID, V_string "stale") ].

Definition leaf_names : list name_entry :=
  [ new_name_entry "/dev/disk2s1" 51 1 2;
    new_name_entry "/dev/disk7" 60 1 4;
    new_name_entry "/dev/disk3s1" 51 1 4 ].

(** ** Boot device *)
(** [(UInt64)(1<<9)] and [(UInt64)(2<<29)]; the shifts are [int] shifts
    that stay within [int]. *)
Definition ZFS_BOOT_DEV_BSIZE : Z := wrap64 (Z.shiftl 1 9).

Definition ZFS_BOOT_DEV_BCOUNT : Z := wrap64 (Z.shiftl 2 29).

(** The four strings of a [ZFSBootDevice]. *)
Record ZFSBootDevice : Type := {
  vendorString : option string;
  productString : option string;
  revisionString : option string;
  additionalString : option string
}.

Definition ZFSBootDevice_new : ZFSBootDevice :=
  {| vendorString := None; productString := None;
     revisionString := None; additionalString := None |}.

(** [ZFSBootDevice_copy_string(&field, src)]: the new content of the
    field, or [None] for the [false] return. *)
Definition ZFSBootDevice_copy_string (src : option string) : option string :=
  match src with
  | None => None
  | Some s => Some s
  end.

Definition strnlen (s : string) (maxlen : Z) : Z := Z.min (strlen s) maxlen.

Section BootDevice.

(** [ZFS_MAX_DATASET_NAME_LEN] of the format headers. *)
Variable ZFS_MAX_DATASET_NAME_LEN : Z.

(** [ZFSBootDevice::setDatasetName]: the return value and the device. *)
Definition setDatasetName (dev : ZFSBootDevice) (dsname : option string)
    : bool * ZFSBootDevice :=
  match dsname with
  | None => (false, dev)
  | Some s =>
      let len := strnlen s (ZFS_MAX_DATASET_NAME_LEN + 1) in
      if len >? ZFS_MAX_DATASET_NAME_LEN then (false, dev)
      else
        match ZFSBootDevice_copy_string dsname with
        | Some p =>
            (true, {| vendorString := vendorString dev;
                      productString := Some p;
                      revisionString := revisionString dev;
                      additionalString := additionalString dev |})
        | None => (false, dev)
        end
  end.

(** [ZFSBootDevice::init], after the base class has initialised; on
    failure the four strings are freed. *)
Definition ZFSBootDevice_init (dev : ZFSBootDevice) : bool * ZFSBootDevice :=
  let dev1 := {| vendorString := ZFSBootDevice_copy_string (Some "ZFS"%string);
                 productString := productString dev;
                 revisionString :=
                   ZFSBootDevice_copy_string (Some "1.0"%string);
                 additionalString :=
                   ZFSBootDevice_copy_string (Some "n/a"%string) |} in
  match setDatasetName dev1 (Some "invalid"%string) with
  | (true, dev2) => (true, dev2)
  | (false, _) => (false, ZFSBootDevice_new)
  end.

(** The device [zfs_boot_publish_bootfs] sets up for the dataset name it
    has resolved, as far as [init] and [setDatasetName] go; [None] where
    one of the two fails and it gives up with [ENXIO].  The other ways it
    gives up (the name is not resolved, the device cannot be attached or
    started) are not followed. *)
Definition publish_bootdev (zfs_bootfs : string) : option ZFSBootDevice :=
  match ZFSBootDevice_init ZFSBootDevice_new with
  | (false, _) => None
  | (true, dev) =>
      match setDatasetName dev (Some zfs_bootfs) with
      | (false, _) => None
      | (true, dev') => Some dev'
      end
  end.

End BootDevice.

(** The [report*] methods with a caller that passes a place for the
    answer. *)
Definition reportBlockSize (dev : ZFSBootDevice) : Z := ZFS_BOOT_DEV_BSIZE.

Definition reportMaxValidBlock (dev : ZFSBootDevice) : Z :=
  wrap64 (ZFS_BOOT_DEV_BCOUNT - 1).

Definition doGetFormatCapacities (dev : ZFSBootDevice) : Z :=
  wrap64 (ZFS_BOOT_DEV_BSIZE * ZFS_BOOT_DEV_BCOUNT).

(** ** Boot arguments and start-up *)
(** What the host answers at start-up.  Modelled from the spec (section
    6): the uptime query returns nanoseconds, the boot-argument query
    [get_arg(name, buf, len) -> bool] is [PE_parse_boot_argn]; the two
    flags say whether the disk set and the arrival notifier can be had.
    [env_boot_arg name] is the string the query for [name] leaves in the
    buffer of [zfs_boot_check_mountroot] ([None]: it returns false);
    [boot_args_read] below gives it from the command line, where the
    copy stays inside the buffer. *)
Record boot_env : Type := {
  env_uptime : Z;
  env_boot_arg : string -> option string;
  env_set_alloc : bool;
  env_notifier : bool
}.

(** What start-up does to the host, in order. *)
Inductive host_event : Type :=
| EvBootArg (name : string)
| EvPoolListAlloc
| EvPoolListFree
| EvNotifierAdd
| EvWorkerDispatch.

(** [7LLU<<33] nanoseconds. *)
Definition ZFS_BOOT_UPTIME_LIMIT : Z := wrap64 (Z.shiftl 7 33).

(** A boot argument counts when it is there and not empty; [rd] and
    [rootdev] also when they do not start with ["zfs:"]. *)
Definition arg_zfs_boot (v : option string) : option string :=
  match v with
  | Some s => if strlen s >? 0 then Some s else None
  | None => None
  end.

Definition arg_rootdev (v : option string) : option string :=
  match v with
  | Some s =>
      if (strlen s >? 0) && negb (strncmp s "zfs:" 4 =? 0)
      then Some s else None
  | None => None
  end.

(** [zfs_boot_check_mountroot(&pool_name, &pool_guid)], given what the two
    places hold on entry: the return value, what they hold on return, and
    the boot arguments asked for.  Both places are there: the one caller,
    [zfs_boot_init], passes the addresses of two locals. *)
Definition zfs_boot_check_mountroot (env : boot_env)
    (pool_name0 : option string) (pool_guid0 : Z)
    : bool * option string * Z * list host_event :=
  if env_uptime env >=? ZFS_BOOT_UPTIME_LIMIT
  then (false, pool_name0, pool_guid0, [])
  else
    let '(zfs_boot, log) :=
      match arg_zfs_boot (env_boot_arg env "zfs_boot") with
      | Some s => (Some s, [EvBootArg "zfs_boot"])
      | None =>
          match arg_rootdev (env_boot_arg env "rd") with
          | Some s => (Some s, [EvBootArg "zfs_boot"; EvBootArg "rd"])
          | None =>
              (arg_rootdev (env_boot_arg env "rootdev"),
               [EvBootArg "zfs_boot"; EvBootArg "rd"; EvBootArg "rootdev"])
          end
      end in
    match zfs_boot with
    | Some s =>
        let len := match strchr s "/" with
                   | Some i => i
                   | None => String.length s
                   end in
        (true, Some (take_chars len s), 0, log)
    | None => (false, pool_name0, 0, log)
    end.

(** [zfs_boot_init(zfs_hl)]: the return value, the pool list it leaves in
    [zfs_boot_pool_list], and what it did to the host. *)
Definition zfs_boot_init (zfs_hl : bool) (env : boot_env)
    : bool * option pool_list * list host_event :=
  if negb zfs_hl then (false, None, [])
  else
    let '(ok, name, guid, log) := zfs_boot_check_mountroot env None 0 in
    if negb ok || (negb (bool_decide (is_Some name)) && (guid =? 0))
    then (true, None, log)
    else if negb (env_set_alloc env)
    then (false, None, log ++ [EvPoolListAlloc; EvPoolListFree])
    else if negb (env_notifier env)
    then (false, None, log ++ [EvPoolListAlloc; EvPoolListFree])
    else (true, Some (new_pool_list name guid),
          log ++ [EvPoolListAlloc; EvNotifierAdd; EvWorkerDispatch]).

Definition late_env : boot_env :=
  {| env_uptime := 61 * 10 ^ 9;
     env_boot_arg := fun name =>
                       if String.eqb name "zfs_boot"
                       then Some "tank/ROOT"%string else None;
     env_set_alloc := true;
     env_notifier := true |}.

(** ** Device watcher and per-device probe *)
(** The service the arrival notification hands over; its provider is the
    media, where the cast to [IOMedia] works. *)
Record IOService : Type := {
  svc_provider : option IOMedia
}.

(** [OSSet::setObject]: a member is not added twice. *)
Definition setObject (ds : list IOMedia) (m : IOMedia) : list IOMedia :=
  if existsb (fun d => media_id d =? media_id m) ds then ds else ds ++ [m].

(** What a probe does with a device, in order. *)
Inductive probe_event : Type :=
| PeReadLabel (id : Z)
| PeFreeConfig (config : nvlist)
| PeAddConfig (path : string) (order num_labels : Z) (config : nvlist).

Record media_result : Type := {
  pm_ret : bool;
  pm_pl : option pool_list;
  pm_signal : bool
}.

Record disk_result : Type := {
  pd_ret : bool;
  pd_pl : option pool_list;
  pd_trace : list probe_event
}.

(** [!pools->pool_name || strlen(pools->pool_name) == 0] *)
Definition no_pool_name (pl : pool_list) : bool :=
  match pool_name pl with
  | None => true
  | Some s => strlen s =? 0
  end.

(** A string property that is there and not empty. *)
Definition nonempty (s : option string) : option string :=
  match s with
  | Some v => if strlen v =? 0 then None else Some v
  | None => None
  end.

Definition by_id_prefix : string := "/private/var/run/disk/by-id/media-".

(** The path [zfs_boot_probe_disk] makes up for a device. *)
Definition probe_path (media : IOMedia) : option string :=
  match nonempty (media_uuid media) with
  | Some uuid => Some (by_id_prefix ++ uuid)%string
  | None =>
      match nonempty (media_bsd_name media) with
      | Some bsd => Some ("/dev/" ++ bsd)%string
      | None => None
      end
  end.

(** The match of a decoded label against the pool asked for. *)
Definition probe_matched (pl : pool_list) (config : nvlist) : bool :=
  match pool_name pl, nvlist_lookup_string config ZPOOL_CONFIG_POOL_NAME with
  | Some name, Some pname => same_string name pname
  | _, _ =>
      if negb (pool_guid pl =? 0) then
        match nvlist_lookup_uint64 config ZPOOL_CONFIG_POOL_GUID with
        | Some this_guid => pool_guid pl =? this_guid
        | None => false
        end
      else false
  end.

Section Probe.

Variable labelsize : Z.
Variable SPA_MINDEVSIZE : Z.

(** [zfs_boot_probe_media(target, refCon, newService, notifier)] *)
Definition zfs_boot_probe_media (refCon : option pool_list)
    (newService : option IOService) : media_result :=
  let stop ret := {| pm_ret := ret; pm_pl := refCon; pm_signal := false |} in
  match refCon with
  | None => stop false
  | Some pl =>
  match newService with
  | None => stop false
  | Some svc =>
      if negb (terminating pl =? ZFS_BOOT_ACTIVE) then stop false
      else if no_pool_name pl then stop false
      else match svc_provider svc with
      | None => stop false
      | Some media =>
          match media_leaf media with
          | None => stop true
          | Some _ =>
              if media_size media <? SPA_MINDEVSIZE then stop true
              else match nonempty (media_bsd_name media) with
              | None => stop true
              | Some _ =>
                  {| pm_ret := true;
                     pm_pl := Some (set_disks pl
                                      (setObject (disks pl) media));
                     pm_signal := true |}
              end
          end
      end
  end
  end.

(** [zfs_boot_probe_disk(pools, media)] *)
Definition zfs_boot_probe_disk (pools : option pool_list) (media : IOMedia)
    : disk_result :=
  let stop ret trace :=
    {| pd_ret := ret; pd_pl := pools; pd_trace := trace |} in
  match pools with
  | None => stop false []
  | Some pl =>
      if negb (terminating pl =? ZFS_BOOT_ACTIVE) then stop false []
      else if no_pool_name pl then stop false []
      else match probe_path media with
      | None => stop false []
      | Some path =>
          match zfs_boot_read_label labelsize (Some media) with
          | (0, Some config, Some num_labels) =>
              if num_labels =? 0
              then stop true [PeReadLabel (media_id media)]
              else if negb (probe_matched pl config)
              then stop true [PeReadLabel (media_id media);
                              PeFreeConfig config]
              else
                {| pd_ret := true;
                   pd_pl := Some (ac_pl (zfs_boot_add_config pl path 1
                                           num_labels config));
                   pd_trace := [PeReadLabel (media_id media);
                                PeAddConfig path 1 num_labels config] |}
          | _ => stop true [PeReadLabel (media_id media)]
          end
      end
  end.

(** The probes of one turn of the worker's loop: the set of pending disks
    is swapped for an empty one and every disk in it is probed.  On a
    pool list that is not active nothing is probed; the thread then
    leaves its loop, which [import_thread_turn] below follows. *)
Definition probe_pending (pl : pool_list) : pool_list * list probe_event :=
  if negb (terminating pl =? ZFS_BOOT_ACTIVE) then (pl, [])
  else
    match disks pl with
    | [] => (pl, [])
    | pending =>
        fold_left
          (fun acc media =>
             match pd_pl (zfs_boot_probe_disk (Some (fst acc)) media) with
             | Some pl' =>
                 (pl', snd acc
                       ++ pd_trace (zfs_boot_probe_disk (Some (fst acc))
                                      media))
             | None => acc
             end)
          pending (set_disks pl [], [])
    end.

(** What can happen to the shared state: a device arrives, or the worker
    takes a turn. *)
Inductive boot_action : Type :=
| Arrival (newService : option IOService)
| WorkerTurn.

Definition boot_step (st : pool_list * list probe_event) (a : boot_action)
    : pool_list * list probe_event :=
  match a with
  | Arrival svc =>
      match pm_pl (zfs_boot_probe_media (Some (fst st)) svc) with
      | Some pl' => (pl', snd st)
      | None => st
      end
  | WorkerTurn =>
      let '(pl', trace) := probe_pending (fst st) in
      (pl', snd st ++ trace)
  end.

Definition boot_run (pl : pool_list) (actions : list boot_action)
    : pool_list * list probe_event :=
  fold_left boot_step actions (pl, []).

End Probe.

(** The match in the words of the spec (4.E): by name where the name is
    set and equal, else by guid where the guid is set and equal. *)
Definition spec_matched (pl : pool_list) (config : nvlist) : Prop :=
  (exists name,
      pool_name pl = Some name /\
      nvlist_lookup_string config ZPOOL_CONFIG_POOL_NAME = Some name) \/
  (pool_guid pl <> 0 /\
   nvlist_lookup_uint64 config ZPOOL_CONFIG_POOL_GUID = Some (pool_guid pl)).

(** The match as the source has it: the guid is looked at only for a label
    without pool name (or a pool list without one). *)
Definition code_matched (pl : pool_list) (config : nvlist) : Prop :=
  match pool_name pl, nvlist_lookup_string config ZPOOL_CONFIG_POOL_NAME with
  | Some name, Some pname => pname = name
  | _, _ =>
      pool_guid pl <> 0 /\
      nvlist_lookup_uint64 config ZPOOL_CONFIG_POOL_GUID
      = Some (pool_guid pl)
  end.

(** A pool list looking for "tank" with guid 1001, and a disk whose four
    labels say [pool_name] in pool 1001. *)
Definition named_label (pool : string) : nvlist :=
  NVL [ (ZPOOL_CONFIG_POOL_NAME, V_string pool);
        (ZPOOL_CONFIG_POOL_STATE, V_uint64 POOL_STATE_ACTIVE);
        (ZPOOL_CONFIG_POOL_TXG, V_uint64 12);
        (ZPOOL_CONFIG_POOL_GUID, V_uint64 1001);
        (ZPOOL_CONFIG_TOP_GUID, V_uint64 7);
        (ZPOOL_CONFIG_GUID, V_uint64 7) ].

Definition named_media (pool : string) : IOMedia :=
  {| media_id := 1;
     media_size := 64 * 2 ^ 20;
     media_leaf := Some true;
     media_bsd_name := Some "disk0"%string;
     media_uuid := None;
     media_open := true;
     media_read := fun _ => {| io_ret := kIOReturnSuccess;
                               io_nread := sizeof_vdev_label_t;
                               io_unpack := Some (named_label pool) |} |}.

Definition tank_1001 : pool_list := new_pool_list (Some "tank"%string) 1001.

(** ** Assembling the top-level vdevs of a pool *)
(** [zfs_boot_vdev_is_hole(hole_array, holes, id)] *)
Definition zfs_boot_vdev_is_hole (hole_array : list Z) (id : Z) : bool :=
  existsb (fun h => h =? id) hole_array.

(** Names of the pool header, as the format headers have them. *)
Definition ZPOOL_CONFIG_COMMENT : string := "comment".

Definition ZPOOL_CONFIG_HOSTID : string := "hostid".

Definition ZPOOL_CONFIG_HOSTNAME : string := "hostname".

(** Modelled from the spec: [nvlist_remove(nvl, name, type)] of the
    property list library, which is not part of the sources: the first
    pair of that name and type goes. *)
Fixpoint remove_typed (is_type : nvvalue -> bool) (name : string)
    (ps : list (string * nvvalue)) : list (string * nvvalue) :=
  match ps with
  | [] => []
  | (n, v) :: r =>
      if String.eqb n name && is_type v then r
      else (n, v) :: remove_typed is_type name r
  end.

Definition nvlist_remove (nvl : nvlist) (name : string)
    (is_type : nvvalue -> bool) : nvlist :=
  NVL (remove_typed is_type name (pairs_of nvl)).

Definition DATA_TYPE_UINT64 (v : nvvalue) : bool :=
  match v with V_uint64 _ => true | _ => false end.

Definition DATA_TYPE_UINT64_ARRAY (v : nvvalue) : bool :=
  match v with V_uint64_array _ => true | _ => false end.

(** The locals of [zfs_boot_get_configs] that the child array of a pool
    depends on.  [holes] is the length of [hole_array]; [children] is the
    [uint_t] the source keeps next to the array [child]; [config] is the
    pool config under construction. *)
Record top_levels : Type := {
  tmp : option nvlist;
  max_txg : Z;
  hole_array : list Z;
  max_id : Z;
  valid_top_config : bool;
  config : nvlist;
  config_seen : bool;
  child : list (option nvlist);
  children : Z
}.

(** The inner loop over the configs of one vdev entry; [tmp] keeps what it
    held when no config has a txg above 0. *)
Definition pick_best (acc : Z * option nvlist) (ce : config_entry)
    : Z * option nvlist :=
  if ce_txg ce >? fst acc then (ce_txg ce, Some (ce_config ce)) else acc.

Definition best_config (tmp0 : option nvlist) (configs : list config_entry)
    : Z * option nvlist :=
  fold_left pick_best configs (0, tmp0).

(** The namespace metadata, taken from [cfg] when its vdev entry raises
    the maximum txg of the pool. *)
Definition top_metadata (st : top_levels) (best_txg : Z) (cfg : nvlist)
    : top_levels :=
  if best_txg >? max_txg st then
    let config0 :=
      nvlist_remove
        (nvlist_remove (config st) ZPOOL_CONFIG_VDEV_CHILDREN
           DATA_TYPE_UINT64)
        ZPOOL_CONFIG_HOLE_ARRAY DATA_TYPE_UINT64_ARRAY in
    let '(id, valid, config1) :=
      match nvlist_lookup_uint64 cfg ZPOOL_CONFIG_VDEV_CHILDREN with
      | Some m =>
          (m, true, nvlist_add_uint64 config0 ZPOOL_CONFIG_VDEV_CHILDREN m)
      | None => (0, false, config0)
      end in
    let '(holes, config2) :=
      match nvlist_lookup_uint64_array cfg ZPOOL_CONFIG_HOLE_ARRAY with
      | Some a =>
          (a, nvlist_add_uint64_array config1 ZPOOL_CONFIG_HOLE_ARRAY a)
      | None => ([], config1)
      end in
    {| tmp := tmp st;
       max_txg := best_txg;
       hole_array := holes;
       max_id := id;
       valid_top_config := valid;
       config := config2;
       config_seen := config_seen st;
       child := child st;
       children := children st |}
  else st.

(** The pool header the first vdev entry of a pool seeds: version, pool
    guid, name, pool txg and comment where there are any, pool state,
    and hostid with hostname where there is a hostid.  [None]: one of the
    [fnvlist_lookup_*] calls finds nothing, which is fatal. *)
Definition header_seed (config0 cfg : nvlist) : option nvlist :=
  match nvlist_lookup_uint64 cfg ZPOOL_CONFIG_VERSION with
  | None => None
  | Some version =>
  let c1 := nvlist_add_uint64 config0 ZPOOL_CONFIG_VERSION version in
  match nvlist_lookup_uint64 cfg ZPOOL_CONFIG_POOL_GUID with
  | None => None
  | Some guid =>
  let c2 := nvlist_add_uint64 c1 ZPOOL_CONFIG_POOL_GUID guid in
  match nvlist_lookup_string cfg ZPOOL_CONFIG_POOL_NAME with
  | None => None
  | Some name =>
  let c3 := nvlist_add_string c2 ZPOOL_CONFIG_POOL_NAME name in
  let c4 := match nvlist_lookup_uint64 cfg ZPOOL_CONFIG_POOL_TXG with
            | Some pool_txg =>
                nvlist_add_uint64 c3 ZPOOL_CONFIG_POOL_TXG pool_txg
            | None => c3
            end in
  let c5 := match nvlist_lookup_string cfg ZPOOL_CONFIG_COMMENT with
            | Some comment =>
                nvlist_add_string c4 ZPOOL_CONFIG_COMMENT comment
            | None => c4
            end in
  match nvlist_lookup_uint64 cfg ZPOOL_CONFIG_POOL_STATE with
  | None => None
  | Some state =>
  let c6 := nvlist_add_uint64 c5 ZPOOL_CONFIG_POOL_STATE state in
  match nvlist_lookup_uint64 cfg ZPOOL_CONFIG_HOSTID with
  | None => Some c6
  | Some hostid =>
      match nvlist_lookup_string cfg ZPOOL_CONFIG_HOSTNAME with
      | None => None
      | Some hostname =>
          Some (nvlist_add_string
                  (nvlist_add_uint64 c6 ZPOOL_CONFIG_HOSTID hostid)
                  ZPOOL_CONFIG_HOSTNAME hostname)
      end
  end end end end end.

Section ChildArray.

(** [kmem_alloc] is the allocator of the platform layer, not part of the
    sources, and it does not clear what it hands out: the other callers in
    the file follow it with [bzero], [zfs_boot_get_configs] does not.
    [heap n i] is what slot [i] of a new array of [n] slots reads as
    before anything is stored there: empty, or whatever pointer that
    memory held.  Where the ids fit the [uint_t] count, the arrays made
    for one pool all differ in length, so the length tells them apart. *)
Variable heap : Z -> nat -> option nvlist.

Definition kmem_alloc_slots (n : Z) : list (option nvlist) :=
  heap n <$> seq 0 (Z.to_nat n).

(** A longer array: the first [children] slots are copied over, the
    others are as the allocator left them. *)
Definition grow_child (st : top_levels) (n : Z) : list (option nvlist) :=
  take (Z.to_nat (children st)) (child st)
  ++ drop (Z.to_nat (children st)) (kmem_alloc_slots n).

(** One turn of the loop over the vdev entries of a pool.  [None]: the
    source would read through [tmp] or [nvtop] where nothing was stored,
    fail a fatal lookup, or write past the array. *)
Definition top_level_step (st : top_levels) (ve : vdev_entry)
    : option top_levels :=
  let '(best_txg, tmp') := best_config (tmp st) (ve_configs ve) in
  match tmp' with
  | None => None
  | Some cfg =>
      let st1 := top_metadata st best_txg cfg in
      match (if config_seen st1 then Some (config st1)
             else header_seed (config st1) cfg) with
      | None => None
      | Some config1 =>
      match nvlist_lookup_nvlist cfg ZPOOL_CONFIG_VDEV_TREE with
      | None => None
      | Some nvtop =>
          match nvlist_lookup_uint64 nvtop ZPOOL_CONFIG_ID with
          | None => None
          | Some id =>
              let '(child1, children1) :=
                if id >=? children st1
                then (grow_child st1 (wrap64 (id + 1)),
                      wrap32 (wrap64 (id + 1)))
                else (child st1, children st1) in
              if id <? Z.of_nat (length child1) then
                Some {| tmp := tmp';
                        max_txg := max_txg st1;
                        hole_array := hole_array st1;
                        max_id := max_id st1;
                        valid_top_config := valid_top_config st1;
                        config := config1;
                        config_seen := true;
                        child := <[Z.to_nat id := Some (nvlist_dup nvtop)]>
                                   child1;
                        children := children1 |}
              else None
          end
      end
      end
  end.

Fixpoint top_level_loop (st : top_levels) (vdevs : list vdev_entry)
    : option top_levels :=
  match vdevs with
  | [] => Some st
  | ve :: rest =>
      match top_level_step st ve with
      | Some st' => top_level_loop st' rest
      | None => None
      end
  end.

(** "If we have information about all the top-levels then clean up": cut
    the array down to [max_id] slots or extend it to them. *)
Definition normalize_children (st : top_levels)
    : list (option nvlist) * Z :=
  if valid_top_config st then
    if max_id st <? children st
    then (take (Z.to_nat (max_id st)) (child st), wrap32 (max_id st))
    else if max_id st >? children st
    then (grow_child st (max_id st), wrap32 (max_id st))
    else (child st, children st)
  else (child st, children st).

End ChildArray.

Definition hole_vdev (c : Z) : nvlist :=
  nvlist_add_uint64
    (nvlist_add_uint64
       (nvlist_add_string nvlist_alloc ZPOOL_CONFIG_TYPE VDEV_TYPE_HOLE)
       ZPOOL_CONFIG_ID c)
    ZPOOL_CONFIG_GUID 0.

Definition missing_vdev (c : Z) : nvlist :=
  nvlist_add_uint64
    (nvlist_add_uint64
       (nvlist_add_string nvlist_alloc ZPOOL_CONFIG_TYPE VDEV_TYPE_MISSING)
       ZPOOL_CONFIG_ID c)
    ZPOOL_CONFIG_GUID 0.

(** [for (c = 0; c < children; c++)] over the slots of the array. *)
Definition for_slots (f : Z -> option nvlist -> option nvlist)
    (children : Z) (child : list (option nvlist)) : list (option nvlist) :=
  imap (fun i slot =>
          if Z.of_nat i <? children then f (Z.of_nat i) slot else slot)
       child.

Definition fill_holes (hole_array : list Z) (children : Z)
    (child : list (option nvlist)) : list (option nvlist) :=
  if Z.of_nat (length hole_array) >? 0 then
    for_slots
      (fun c slot =>
         match slot with
         | Some nv => Some nv
         | None =>
             if zfs_boot_vdev_is_hole hole_array c
             then Some (hole_vdev c) else None
         end)
      children child
  else child.

Definition fill_missing (children : Z) (child : list (option nvlist))
    : list (option nvlist) :=
  for_slots
    (fun c slot =>
       match slot with
       | Some nv => Some nv
       | None => Some (missing_vdev c)
       end)
    children child.

(** The child array [zfs_boot_get_configs] puts into the root vdev of pool
    [pe]; [prev] is what the locals hold when the turn for this pool
    starts.  [None] also where the [verify] on the pool guid of the
    config fails. *)
Definition zfs_boot_get_configs_children (heap : Z -> nat -> option nvlist)
    (prev : top_levels) (pe : pool_entry) : option (list (option nvlist)) :=
  let st0 := {| tmp := tmp prev;
                max_txg := 0;
                hole_array := hole_array prev;
                max_id := max_id prev;
                valid_top_config := valid_top_config prev;
                config := nvlist_alloc;
                config_seen := false;
                child := [];
                children := 0 |} in
  match top_level_loop heap st0 (pe_vdevs pe) with
  | None => None
  | Some st =>
      let '(child1, children1) := normalize_children heap st in
      match nvlist_lookup_uint64 (config st) ZPOOL_CONFIG_POOL_GUID with
      | None => None
      | Some guid =>
          let child2 := fill_holes (hole_array st) children1 child1 in
          let child3 := fill_missing children1 child2 in
          Some (take (Z.to_nat children1) child3)
      end
  end.

(** The locals at the first pool. *)
Definition top_levels_init : top_levels :=
  {| tmp := None; max_txg := 0; hole_array := []; max_id := 0;
     valid_top_config := false; config := nvlist_alloc;
     config_seen := false; child := []; children := 0 |}.

(** The best config of a vdev entry: first among those of the highest
    txg. *)
Definition vdev_best (ve : vdev_entry) : Z * option nvlist :=
  best_config None (ve_configs ve).

(** The top-level vdev tree in the best config of [ve], and its id. *)
Definition vdev_top (ve : vdev_entry) : option (Z * nvlist) :=
  match snd (vdev_best ve) with
  | Some cfg =>
      match nvlist_lookup_nvlist cfg ZPOOL_CONFIG_VDEV_TREE with
      | Some nvtop =>
          match nvlist_lookup_uint64 nvtop ZPOOL_CONFIG_ID with
          | Some id => Some (id, nvtop)
          | None => None
          end
      | None => None
      end
  | None => None
  end.

Definition config_holes (cfg : nvlist) : list Z :=
  match nvlist_lookup_uint64_array cfg ZPOOL_CONFIG_HOLE_ARRAY with
  | Some a => a
  | None => []
  end.

(** *** Notions the statements about the child array use *)

Definition or_else (t : option nvlist) (t0 : option nvlist) : option nvlist :=
  match t with
  | Some c => Some c
  | None => t0
  end.

(** Array and count agree, and the count fits its [uint_t]. *)
Definition slots_ok (st : top_levels) : Prop :=
  children st = Z.of_nat (length (child st)) /\ children st < 2 ^ 32.

(** The array after the tree [nvtop] of id [id] has gone in: where the
    array had to grow, the slots between are as the allocator left
    them. *)
Definition place (heap : Z -> nat -> option nvlist)
    (slots : list (option nvlist)) (id : Z) (nvtop : nvlist)
    : list (option nvlist) :=
  <[Z.to_nat id := Some nvtop]>
    (slots ++ drop (length slots) (kmem_alloc_slots heap (id + 1))).

(** A vdev entry the loop can place: its best config has a vdev tree with
    an id the [uint_t] count can follow. *)
Definition top_ok (ve : vdev_entry) : Prop :=
  exists id nvtop, vdev_top ve = Some (id, nvtop) /\ 0 <= id < 2 ^ 32 - 1.

(** A config the pool header can be seeded from: it has a version, a
    pool guid, a pool name and a pool state, and a hostname where it has
    a hostid. *)
Definition header_ok (cfg : nvlist) : Prop :=
  is_Some (nvlist_lookup_uint64 cfg ZPOOL_CONFIG_VERSION) /\
  is_Some (nvlist_lookup_uint64 cfg ZPOOL_CONFIG_POOL_GUID) /\
  is_Some (nvlist_lookup_string cfg ZPOOL_CONFIG_POOL_NAME) /\
  is_Some (nvlist_lookup_uint64 cfg ZPOOL_CONFIG_POOL_STATE) /\
  (is_Some (nvlist_lookup_uint64 cfg ZPOOL_CONFIG_HOSTID) ->
   is_Some (nvlist_lookup_string cfg ZPOOL_CONFIG_HOSTNAME)).

(** The header is there: seeded, with the pool guid in it. *)
Definition seeded (st : top_levels) : Prop :=
  config_seen st = true /\
  is_Some (nvlist_lookup_uint64 (config st) ZPOOL_CONFIG_POOL_GUID).

(** The first vdev entry of the pool has a best config the header can be
    seeded from. *)
Definition first_header_ok (vdevs : list vdev_entry) : Prop :=
  match vdevs with
  | ve :: _ => exists cfg, snd (vdev_best ve) = Some cfg /\ header_ok cfg
  | [] => True
  end.

(** The slots of the array against the vdev entries gone through: every
    id gone through is inside the array; a slot whose index is the id of
    an entry gone through holds the tree of such an entry; any other slot
    is as the allocator left it. *)
Definition child_inv (heap : Z -> nat -> option nvlist)
    (slots : list (option nvlist)) (done : list vdev_entry) : Prop :=
  (forall ve id nvtop,
      In ve done -> vdev_top ve = Some (id, nvtop) ->
      (Z.to_nat id < length slots)%nat) /\
  (forall (i : nat) slot,
      slots !! i = Some slot ->
      (exists ve nvtop,
          In ve done /\ vdev_top ve = Some (Z.of_nat i, nvtop) /\
          slot = Some nvtop) \/
      ((forall ve nvtop,
           In ve done -> vdev_top ve <> Some (Z.of_nat i, nvtop)) /\
       exists n, slot = heap n i)).

(** The metadata after a vdev entry, as a function of its best config. *)
Definition meta_step (st : top_levels) (ve : vdev_entry) : top_levels :=
  match vdev_best ve with
  | (txg, Some cfg) => top_metadata st txg cfg
  | (_, None) => st
  end.

Definition same_meta (a b : top_levels) : Prop :=
  max_txg a = max_txg b /\ hole_array a = hole_array b /\
  max_id a = max_id b /\ valid_top_config a = valid_top_config b.

(** Memory that reads as empty, and memory in which slot 1 of an array of
    three slots still holds a pointer from an earlier use. *)
Definition zeroed_heap : Z -> nat -> option nvlist := fun _ _ => None.

Definition stale_vdev : nvlist :=
  NVL [ (ZPOOL_CONFIG_TYPE, V_string "disk");
        (ZPOOL_CONFIG_ID, V_uint64 5);
        (ZPOOL_CONFIG_GUID, V_uint64 99) ].

Definition stale_heap : Z -> nat -> option nvlist :=
  fun n i => if (n =? 3) && (i =? 1)%nat then Some stale_vdev else None.

(** Scenario S5 of the spec: [vdev_children = 3], [hole_array = [1]],
    devices for the top-level vdevs 0 and 2. *)
Definition s5_tree (id guid : Z) : nvlist :=
  NVL [ (ZPOOL_CONFIG_TYPE, V_string "disk");
        (ZPOOL_CONFIG_ID, V_uint64 id);
        (ZPOOL_CONFIG_GUID, V_uint64 guid) ].

Definition s5_label (id guid : Z) : nvlist :=
  NVL [ (ZPOOL_CONFIG_VERSION, V_uint64 5000);
        (ZPOOL_CONFIG_POOL_NAME, V_string "tank");
        (ZPOOL_CONFIG_POOL_STATE, V_uint64 POOL_STATE_ACTIVE);
        (ZPOOL_CONFIG_POOL_TXG, V_uint64 12);
        (ZPOOL_CONFIG_POOL_GUID, V_uint64 1001);
        (ZPOOL_CONFIG_TOP_GUID, V_uint64 guid);
        (ZPOOL_CONFIG_GUID, V_uint64 guid);
        (ZPOOL_CONFIG_VDEV_CHILDREN, V_uint64 3);
        (ZPOOL_CONFIG_HOLE_ARRAY, V_uint64_array [1]);
        (ZPOOL_CONFIG_VDEV_TREE, V_nvlist (s5_tree id guid)) ].

Definition s5_vdev (id guid : Z) : vdev_entry :=
  {| ve_guid := guid;
     ve_configs := [ {| ce_txg := 12; ce_config := s5_label id guid |} ] |}.

Definition s5_pool : pool_entry :=
  {| pe_guid := 1001; pe_vdevs := [ s5_vdev 2 72; s5_vdev 0 70 ] |}.

(** The disk of scenario S2 with something else between the labels. *)
Definition s2_media_noise : IOMedia :=
  {| media_id := 2;
     media_size := 64 * 2 ^ 20;
     media_leaf := Some false;
     media_bsd_name := None;
     media_uuid := None;
     media_open := true;
     media_read := fun off =>
       if off =? 5 * sizeof_vdev_label_t
       then {| io_ret := kIOReturnSuccess;
               io_nread := sizeof_vdev_label_t;
               io_unpack := Some (s2_label 99) |}
       else s2_read off |}.

(** ** Runs of [zfs_boot_add_config] *)

(** The name entry a call links in, if it links one: both the name-only
    exit for spares and cache devices and the regular exit do, the exit
    for half-initialised labels does not. *)
Definition name_of_call (c : add_call) : option name_entry :=
  match spare_or_l2cache_guid (call_config c) with
  | Some vdev_guid =>
      Some (new_name_entry (call_path c) vdev_guid (call_order c)
              (call_num_labels c))
  | None =>
      match label_identity (call_config c) with
      | Some (_, vdev_guid, _, _) =>
          Some (new_name_entry (call_path c) vdev_guid (call_order c)
                  (call_num_labels c))
      | None => None
      end
  end.

(** The call gets as far as the search for its pool. *)
Definition reaches_tree (c : add_call) : bool :=
  match spare_or_l2cache_guid (call_config c) with
  | Some _ => false
  | None =>
      match label_identity (call_config c) with
      | Some _ => true
      | None => false
      end
  end.

(** No entry, no empty list: every pool entry has a vdev entry and every
    vdev entry has a config entry. *)
Definition vdev_filled (ve : vdev_entry) : Prop := ve_configs ve <> [].

Definition pool_filled (pe : pool_entry) : Prop :=
  pe_vdevs pe <> [] /\ Forall vdev_filled (pe_vdevs pe).

(** The leaf vdev with two paths, after its fixup. *)
Definition leaf_vdev_fixed : nvlist :=
  NVL [ (ZPOOL_CONFIG_TYPE, V_string "disk");
        (ZPOOL_CONFIG_ID, V_uint64 0);
        (ZPOOL_CONFIG_GUID, V_uint64 51);
        (ZPOOL_CONFIG_PATH, V_string "/dev/disk3s1") ].

(** A leaf vdev whose label carries no path. *)
Definition leaf_vdev_no_path : nvlist :=
  NVL [ (ZPOOL_CONFIG_TYPE, V_string "disk");
        (ZPOOL_CONFIG_GUID, V_uint64 51) ].

(** ** Teardown flag *)

Definition set_terminating (pl : pool_list) (t : Z) : pool_list :=
  {| pools := pools pl; names := names pl;
     pool_guid := pool_guid pl; pool_name := pool_name pl;
     disks := disks pl; terminating := t |}.

(** [zfs_boot_fini], on what [zfs_boot_pool_list] points at: the
    compare-and-swap moves the flag from active to terminating and leaves
    any other value alone. *)
Definition zfs_boot_fini (global : option pool_list) : option pool_list :=
  match global with
  | None => None
  | Some pl =>
      Some (if terminating pl =? ZFS_BOOT_ACTIVE
            then set_terminating pl ZFS_BOOT_TERMINATING
            else pl)
  end.

(** A device the arrival callback lets into the disk set. *)
Definition eligible (mindevsize : Z) (m : IOMedia) : Prop :=
  is_Some (media_leaf m) /\ mindevsize <= media_size m /\
  exists bsd, media_bsd_name m = Some bsd /\ bsd <> ""%string.

(** A name entry as the probe makes them. *)
Definition probe_name (ne : name_entry) : Prop :=
  ne_order ne = 1 /\ 1 <= ne_num_labels ne <= 4 /\
  exists s, s <> ""%string /\
    (ne_name ne = (by_id_prefix ++ s)%string \/
     ne_name ne = ("/dev/" ++ s)%string).

(** What the probe keeps true of a pool list set up for the pool [name],
    [guid]: the target is still the same, the names are as the probe makes
    them, every config in the tree matched the target, and no device is
    in the disk set twice. *)
Definition probe_inv (name : option string) (guid : Z) (pl : pool_list)
    : Prop :=
  pool_name pl = name /\ pool_guid pl = guid /\
  Forall probe_name (names pl) /\
  (forall pg tg ce,
      has_config pl pg tg ce -> probe_matched pl (ce_config ce) = true) /\
  List.NoDup (List.map media_id (disks pl)).

(** A boot argument that is not there or is empty, and one that starts
    with ["zfs:"]. *)
Definition empty_arg (v : option string) : Prop :=
  v = None \/ v = Some ""%string.

Definition zfs_prefixed (v : option string) : Prop :=
  exists r, v = Some ("zfs:" ++ r)%string.

(** The boot argument [zfs_boot_check_mountroot] settles on, with the
    arguments it has asked for by then. *)
Definition chosen_arg (env : boot_env) (arg : string)
    (log : list host_event) : Prop :=
  (arg = "zfs_boot"%string /\ log = [EvBootArg "zfs_boot"]) \/
  (arg = "rd"%string /\
   empty_arg (env_boot_arg env "zfs_boot") /\
   ~ zfs_prefixed (env_boot_arg env "rd") /\
   log = [EvBootArg "zfs_boot"; EvBootArg "rd"]) \/
  (arg = "rootdev"%string /\
   empty_arg (env_boot_arg env "zfs_boot") /\
   (empty_arg (env_boot_arg env "rd") \/
    zfs_prefixed (env_boot_arg env "rd")) /\
   ~ zfs_prefixed (env_boot_arg env "rootdev") /\
   log = [EvBootArg "zfs_boot"; EvBootArg "rd"; EvBootArg "rootdev"]).

(** Two seconds after boot, with [rd=zfs:tank] and nothing else. *)
Definition zfs_rd_env : boot_env :=
  {| env_uptime := 2 * 10 ^ 9;
     env_boot_arg := fun name =>
                       if String.eqb name "rd"
                       then Some "zfs:tank"%string else None;
     env_set_alloc := true;
     env_notifier := true |}.

(** Two seconds after boot, with [zfs_boot=/ROOT]. *)
Definition slash_env : boot_env :=
  {| env_uptime := 2 * 10 ^ 9;
     env_boot_arg := fun name =>
                       if String.eqb name "zfs_boot"
                       then Some "/ROOT"%string else None;
     env_set_alloc := true;
     env_notifier := true |}.

(** Two seconds after boot, with [zfs_boot=tank/ROOT]. *)
Definition tank_env : boot_env :=
  {| env_uptime := 2 * 10 ^ 9;
     env_boot_arg := fun name =>
                       if String.eqb name "zfs_boot"
                       then Some "tank/ROOT"%string else None;
     env_set_alloc := true;
     env_notifier := true |}.

(** The disk of pool "tank" arrives and the worker takes a turn. *)
Definition tank_arrival : list boot_action :=
  [ Arrival (Some {| svc_provider := Some (named_media "tank") |});
    WorkerTurn ].

(** The pool list after that, when "tank" was asked for. *)
Definition tank_found : pool_list :=
  {| pools := [ {| pe_guid := 1001;
                   pe_vdevs := [ {| ve_guid := 7;
                                    ve_configs :=
                                      [ {| ce_txg := 12;
                                           ce_config := named_label "tank" |} ]
                                 |} ] |} ];
     names := [ new_name_entry "/dev/disk0" 7 1 4 ];
     pool_guid := 0;
     pool_name := Some "tank"%string;
     disks := [];
     terminating := ZFS_BOOT_ACTIVE |}.

(** ** Mount table lookups *)
(** [strcmp(s1, s2)]: the difference of the first pair of bytes that
    differ, the terminator included. *)
Fixpoint strcmp (s1 s2 : string) : Z :=
  match s1, s2 with
  | EmptyString, EmptyString => 0
  | EmptyString, String c2 _ => 0 - uchar c2
  | String c1 _, EmptyString => uchar c1
  | String c1 r1, String c2 r2 =>
      if Ascii.eqb c1 c2 then strcmp r1 r2 else uchar c1 - uchar c2
  end.

(** [isspace] in the C locale: tab to carriage return, and space. *)
Definition isspace (c : ascii) : bool :=
  ((9 <=? nat_of_ascii c)%nat && (nat_of_ascii c <=? 13)%nat)
  || (nat_of_ascii c =? 32)%nat.

(** The fields of [struct statfs] and of [struct mnttab] that
    [getmntany.c] uses; those of [struct mnttab] are pointers and may be
    null. *)
Record statfs : Type := {
  f_fstypename : string;
  f_mntonname : string;
  f_mntfromname : string
}.

Record mnttab : Type := {
  mnt_special : option string;
  mnt_mountp : option string;
  mnt_fstype : option string;
  mnt_mntopts : option string
}.

(** [getmntany(fp, mgetp, mrefp)] over the mounts [getmntinfo] reports
    (none when it fails): the return value and what [mgetp] holds then.
    [strcmp] on a null pointer is undefined ([None]); [fp] is not
    used. *)
Fixpoint getmntany (sfsp : list statfs) (mgetp mrefp : mnttab)
    : option (Z * mnttab) :=
  match sfsp with
  | [] => Some (-1, mgetp)
  | s :: rest =>
      match mnt_fstype mrefp with
      | None => None
      | Some fstype =>
          if strcmp fstype (f_fstypename s) =? 0 then
            match mnt_special mrefp with
            | None => None
            | Some special =>
                if strcmp special (f_mntfromname s) =? 0
                then Some (0, {| mnt_special := Some (f_mntfromname s);
                                 mnt_mountp := Some (f_mntonname s);
                                 mnt_fstype := Some (f_fstypename s);
                                 mnt_mntopts := Some ""%string |})
                else getmntany rest mgetp mrefp
            end
          else getmntany rest mgetp mrefp
      end
  end.

(** The first loop of [mntopt]: the number of bytes skipped and the
    string from there. *)
Fixpoint skip_space (s : string) : nat * string :=
  match s with
  | String c r =>
      if isspace c
      then let '(k, t) := skip_space r in (S k, t)
      else (O, s)
  | EmptyString => (O, s)
  end.

(** The second loop of [mntopt] and the write of the terminator: the
    token, and what follows the comma where there is one. *)
Fixpoint until_comma (s : string) : string * option string :=
  match s with
  | EmptyString => (EmptyString, None)
  | String c r =>
      if Ascii.eqb c ","
      then (EmptyString, Some r)
      else let '(tok, rest) := until_comma r in (String c tok, rest)
  end.

(** [mntopt(&p)] on the string at [*p]: where the token starts, counted
    from the old [*p]; the token; where the new [*p] is, counted from the
    old one; and the string there. *)
Definition mntopt (p : string) : nat * string * nat * string :=
  let '(k, s) := skip_space p in
  let '(tok, after) := until_comma s in
  match after with
  | Some rest => (k, tok, (k + String.length tok + 1)%nat, rest)
  | None => (k, tok, (k + String.length tok)%nat, EmptyString)
  end.

(** What [hasmntopt] returns: a pointer into the options of the entry, as
    an offset from their start, or null; undefined where [strcpy] writes
    past the end of [tmpopts]. *)
Inductive opt_result : Type :=
| OptUndefined
| OptNull
| OptAt (offset : nat).

(** The loop of [hasmntopt], with [opts - tmpopts] in [off] and the
    string at [opts] in [p]; [None] when the fuel runs out. *)
Fixpoint hasmntopt_loop (fuel : nat) (off : nat) (p : string) (opt : string)
    : option opt_result :=
  match fuel with
  | O => None
  | S fuel' =>
      let '(k, f, next, rest) := mntopt p in
      match f with
      | EmptyString => Some OptNull
      | String _ _ =>
          if strncmp opt f (String.length opt) =? 0
          then Some (OptAt (off + k))
          else hasmntopt_loop fuel' (off + next) rest opt
      end
  end.

Section MountOptions.

(** The size of the buffer the options are copied to. *)
Variable MNT_LINE_MAX : Z.

(** [hasmntopt(mnt, opt)] *)
Definition hasmntopt (mnt : mnttab) (opt : string) : option opt_result :=
  match mnt_mntopts mnt with
  | None => Some OptNull
  | Some opts =>
      if MNT_LINE_MAX <=? strlen opts then Some OptUndefined
      else hasmntopt_loop (S (String.length opts)) 0 opts opt
  end.

End MountOptions.

(** A string a C program can hold: no byte of it is the terminator. *)
Definition c_string (s : string) : Prop := strchr s Ascii.zero = None.

Definition c_statfs (s : statfs) : Prop :=
  c_string (f_fstypename s) /\ c_string (f_mntfromname s).

(** The entry [getmntany] fills in for a mount. *)
Definition mnttab_of (s : statfs) : mnttab :=
  {| mnt_special := Some (f_mntfromname s);
     mnt_mountp := Some (f_mntonname s);
     mnt_fstype := Some (f_fstypename s);
     mnt_mntopts := Some ""%string |}.

Definition same_mount (fstype special : string) (s : statfs) : bool :=
  String.eqb fstype (f_fstypename s) && String.eqb special (f_mntfromname s).

(** An option as one writes it: not empty, no comma in it, no white
    space in front. *)
Definition wf_opt (t : string) : Prop :=
  t <> ""%string /\ strchr t "," = None /\
  match t with
  | String c _ => isspace c = false
  | EmptyString => True
  end.

(** Options joined by commas. *)
Fixpoint join_opts (toks : list string) : string :=
  match toks with
  | [] => ""%string
  | t :: ts =>
      match ts with
      | [] => t
      | _ :: _ => (t ++ String "," (join_opts ts))%string
      end
  end.

(** The first of the options that starts with [opt], as the offset it has
    in the joined string. *)
Fixpoint first_with_prefix (opt : string) (toks : list string) (off : nat)
    : opt_result :=
  match toks with
  | [] => OptNull
  | t :: ts =>
      if String.prefix opt t then OptAt off
      else first_with_prefix opt ts (off + String.length t + 1)
  end.

(** The token at offset [k] of [opts]; it ends at a comma or at the end
    of [opts]. *)
Definition token_at (opts : string) (k : nat) (tok : string) : Prop :=
  exists pre post,
    opts = (pre ++ tok ++ post)%string /\ String.length pre = k /\
    (post = ""%string \/ exists r, post = String "," r).

Definition fstab_mounts : list statfs :=
  [ {| f_fstypename := "apfs"; f_mntonname := "/"; f_mntfromname := "disk1s1" |};
    {| f_fstypename := "zfs"; f_mntonname := "/Volumes/tank";
       f_mntfromname := "tank" |};
    {| f_fstypename := "zfs"; f_mntonname := "/Volumes/tank/home";
       f_mntfromname := "tank/home" |};
    {| f_fstypename := "zfs"; f_mntonname := "/Volumes/tank2";
       f_mntfromname := "tank" |} ].

Definition mnttab_ref (fstype special : string) : mnttab :=
  {| mnt_special := Some special; mnt_mountp := None;
     mnt_fstype := Some fstype; mnt_mntopts := None |}.

Definition mnttab_opts (opts : string) : mnttab :=
  {| mnt_special := None; mnt_mountp := None; mnt_fstype := None;
     mnt_mntopts := Some opts |}.

(** White space only. *)
Fixpoint blank (s : string) : bool :=
  match s with
  | EmptyString => true
  | String c r => isspace c && blank r
  end.

(** Options, each followed by a comma, and then [tail]. *)
Fixpoint opts_then (toks : list string) (tail : string) : string :=
  match toks with
  | [] => tail
  | t :: ts => (t ++ String "," (opts_then ts tail))%string
  end.

(** ** The boot device's reads and writes *)
Inductive IODirection : Type :=
| kIODirectionNone
| kIODirectionIn
| kIODirectionOut
| kIODirectionInOut.

(** The memory a request is to be served from or to. *)
Record IOMemoryDescriptor : Type := {
  md_direction : IODirection;
  md_bytes : list Z
}.

Definition kIOReturnError : Z := 3758097084.

Definition getLength (md : IOMemoryDescriptor) : Z :=
  Z.of_nat (length (md_bytes md)).

(** [IOMemoryDescriptor::writeBytes(offset, bytes, length)]: what is
    copied ends where the memory ends. *)
Definition writeBytes (md : IOMemoryDescriptor) (offset : Z)
    (bytes : list Z) (len : Z) : IOMemoryDescriptor :=
  let off := Z.to_nat offset in
  let n := Nat.min (Z.to_nat len) (length (md_bytes md) - off) in
  {| md_direction := md_direction md;
     md_bytes := take off (md_bytes md) ++ take n bytes
                 ++ drop (off + n) (md_bytes md) |}.

(** The loop of [doAsyncReadWrite] over a read buffer; [None] when the
    fuel runs out. *)
Fixpoint zero_loop (fuel : nat) (buffer : IOMemoryDescriptor)
    (zero : list Z) (off len : Z) : option IOMemoryDescriptor :=
  match fuel with
  | O => None
  | S fuel' =>
      if len >? 0 then
        let cur := if len >? ZFS_BOOT_DEV_BSIZE
                   then ZFS_BOOT_DEV_BSIZE else len in
        zero_loop fuel' (writeBytes buffer off zero cur) zero
          (wrap64 (off + cur)) (wrap64 (len - cur))
      else Some buffer
  end.

(** What a call of [doAsyncReadWrite] comes to: its return value, the
    status and the byte count the completion is called with, and the
    buffer afterwards. *)
Record rw_result : Type := {
  rw_ret : Z;
  rw_status : Z;
  rw_actual : Z;
  rw_buffer : option IOMemoryDescriptor
}.

(** [ZFSBootDevice::doAsyncReadWrite(buffer, block, nblks, attributes,
    completion)] *)
Definition doAsyncReadWrite (buffer : option IOMemoryDescriptor)
    (block nblks : Z) : option rw_result :=
  match buffer with
  | None =>
      Some {| rw_ret := kIOReturnSuccess; rw_status := kIOReturnError;
              rw_actual := 0; rw_buffer := None |}
  | Some md =>
      match md_direction md with
      | kIODirectionIn =>
          match zero_loop (S (Z.to_nat (getLength md))) md
                  (replicate (Z.to_nat ZFS_BOOT_DEV_BSIZE) 0) 0
                  (getLength md) with
          | Some md' =>
              Some {| rw_ret := kIOReturnSuccess;
                      rw_status := kIOReturnSuccess;
                      rw_actual := getLength md';
                      rw_buffer := Some md' |}
          | None => None
          end
      | _ =>
          Some {| rw_ret := kIOReturnSuccess; rw_status := kIOReturnSuccess;
                  rw_actual := getLength md; rw_buffer := Some md |}
      end
  end.

(** A read buffer of 1030 bytes that are not zero. *)
Definition read_1030 : IOMemoryDescriptor :=
  {| md_direction := kIODirectionIn; md_bytes := replicate 1030 255 |}.

(** ** Giving the pool list back *)
(** The configs a tree holds, in the order [zfs_boot_free] walks it. *)
Definition vdev_configs (ve : vdev_entry) : list nvlist :=
  List.map ce_config (ve_configs ve).

Definition pool_configs (pe : pool_entry) : list nvlist :=
  flat_map vdev_configs (pe_vdevs pe).

Definition tree_configs (ps : list pool_entry) : list nvlist :=
  flat_map pool_configs ps.

(** [zfs_boot_free()]: what [zfs_boot_pool_list] holds afterwards, and
    the configs and the names it has freed, in order. *)
Definition zfs_boot_free (global : option pool_list)
    : option pool_list * list nvlist * list string :=
  match global with
  | None => (None, [], [])
  | Some pl => (None, tree_configs (pools pl), List.map ne_name (names pl))
  end.

(** The config of a call, where the call has kept it. *)
Definition not_freed (freed : bool) (config : nvlist) : list nvlist :=
  if freed then [] else [config].

(** A run of [zfs_boot_add_config] calls, with the configs the calls
    have freed, in order. *)
Definition add_step (st : pool_list * list nvlist) (c : add_call)
    : pool_list * list nvlist :=
  let r := zfs_boot_add_config (fst st) (call_path c) (call_order c)
             (call_num_labels c) (call_config c) in
  (ac_pl r, snd st ++ (if ac_freed r then [call_config c] else [])).

Definition add_run (pl : pool_list) (calls : list add_call)
    : pool_list * list nvlist :=
  fold_left add_step calls (pl, []).

(** The calls that leave through the first exit of
    [zfs_boot_add_config]. *)
Definition spare_call (c : add_call) : bool :=
  bool_decide (is_Some (spare_or_l2cache_guid (call_config c))).

(** ** Path fixup on a whole vdev tree *)
(** The pair [zfs_boot_fix_paths] takes the children from: the first
    array of property lists named [children], with the pairs in front of
    it and behind it. *)
Fixpoint first_children (ps : list (string * nvvalue))
    : option (list (string * nvvalue) * list nvlist
              * list (string * nvvalue)) :=
  match ps with
  | [] => None
  | (n, v) :: r =>
      let further :=
        match first_children r with
        | Some (pre, cs, post) => Some ((n, v) :: pre, cs, post)
        | None => None
        end in
      match v with
      | V_nvlist_array cs =>
          if String.eqb n ZPOOL_CONFIG_CHILDREN then Some ([], cs, r)
          else further
      | _ => further
      end
  end.

(** The loop over the children: each is fixed in turn. *)
Fixpoint fix_children (f : nvlist -> option nvlist) (cs : list nvlist)
    : option (list nvlist) :=
  match cs with
  | [] => Some []
  | c :: r =>
      match f c, fix_children f r with
      | Some c', Some r' => Some (c' :: r')
      | _, _ => None
      end
  end.

(** A mirror of the disk seen under two paths and a disk without a path
    in its label, and the mirror after its fixup. *)
Definition mirror_vdev : nvlist :=
  NVL [ (ZPOOL_CONFIG_TYPE, V_string "mirror");
        (ZPOOL_CONFIG_GUID, V_uint64 50);
        (ZPOOL_CONFIG_CHILDREN,
         V_nvlist_array
           [ leaf_vdev;
             NVL [ (ZPOOL_CONFIG_TYPE, V_string "disk");
                   (ZPOOL_CONFIG_GUID, V_uint64 60) ] ]) ].

Definition mirror_vdev_fixed : nvlist :=
  NVL [ (ZPOOL_CONFIG_TYPE, V_string "mirror");
        (ZPOOL_CONFIG_GUID, V_uint64 50);
        (ZPOOL_CONFIG_CHILDREN,
         V_nvlist_array
           [ leaf_vdev_fixed;
             NVL [ (ZPOOL_CONFIG_TYPE, V_string "disk");
                   (ZPOOL_CONFIG_GUID, V_uint64 60);
                   (ZPOOL_CONFIG_PATH, V_string "/dev/disk7") ] ]) ].

(** ** The worker's way out *)
(** A turn of the loop of [zfs_boot_import_thread] as far as the probes
    go.  The thread tests the flag before anything else and at the head of
    every turn; on a pool list that is not active it leaves the loop and
    calls [zfs_boot_free]. *)
Inductive worker_turn : Type :=
| WorkerProbed (pl : pool_list) (trace : list probe_event)
| WorkerLeft (global : option pool_list) (configs : list nvlist)
    (freed_names : list string).

Definition import_thread_turn (labelsize : Z) (pl : pool_list)
    : worker_turn :=
  if negb (terminating pl =? ZFS_BOOT_ACTIVE) then
    let '(global, configs, freed_names) := zfs_boot_free (Some pl) in
    WorkerLeft global configs freed_names
  else
    let '(pl', trace) := probe_pending labelsize pl in
    WorkerProbed pl' trace.

(** ** Boot arguments on the command line *)
(** [PE_parse_boot_argn(name, buf, max_len)] for a string argument of the
    command line [args]: where the argument is there, its first
    [max_len - 1] bytes go to the buffer and the call returns true. *)
Definition PE_parse_boot_argn (args : string -> option string)
    (name : string) (max_len : Z) : option string :=
  match args name with
  | Some s => Some (take_chars (Z.to_nat (max_len - 1)) s)
  | None => None
  end.

(** What the reads of [zfs_boot_check_mountroot] leave in its buffer of
    [name_len = ZFS_MAX_DATASET_NAME_LEN] bytes: [zfs_boot] is asked for
    with that length, [rd] and [rootdev] with [path_len = MAXPATHLEN].
    The copy of [rd] or [rootdev] stays inside the buffer only when the
    argument is shorter than [name_len]. *)
Definition boot_args_read (name_len path_len : Z)
    (args : string -> option string) (name : string) : option string :=
  if String.eqb name "zfs_boot"
  then PE_parse_boot_argn args name name_len
  else PE_parse_boot_argn args name path_len.

(** The read of the chosen argument. *)
Definition arg_as_read (name_len : Z) (arg raw : string) : string :=
  if String.eqb arg "zfs_boot"
  then take_chars (Z.to_nat (name_len - 1)) raw
  else raw.

(** A command line with [zfs_boot=tank/ROOT], read two seconds after
    boot into a buffer of four bytes. *)
Definition tank_args : string -> option string :=
  fun name => if String.eqb name "zfs_boot"
              then Some "tank/ROOT"%string else None.

Definition cut_env : boot_env :=
  {| env_uptime := 2 * 10 ^ 9;
     env_boot_arg := boot_args_read 4 16 tank_args;
     env_set_alloc := true;
     env_notifier := true |}.

(** * Part II: what holds of it *)

(** ** Machine words *)

Lemma wrap64_small z : is_u64 z -> wrap64 z = z.
Proof. intros H. apply Z.mod_small. exact H. Qed.

Lemma wrap32_small z : 0 <= z < 2 ^ 32 -> wrap32 z = z.
Proof. intros H. apply Z.mod_small. exact H. Qed.

Lemma wrap64_range z : is_u64 (wrap64 z).
Proof. unfold is_u64, wrap64. apply Z.mod_pos_bound. lia. Qed.

Lemma wrap32_range z : 0 <= wrap32 z < 2 ^ 32.
Proof. unfold wrap32. apply Z.mod_pos_bound. lia. Qed.

Lemma wrap32_le z : 0 <= z -> wrap32 z <= z.
Proof. intros H. unfold wrap32. apply Z.mod_le; lia. Qed.

Lemma neg_pow2_bits k :
  0 <= k < 64 -> wrap64 (- 2 ^ k) = Z.shiftl (Z.ones (64 - k)) k.
Proof.
  intros Hk. unfold wrap64.
  rewrite Z.shiftl_mul_pow2, Z.ones_equiv by lia.
  assert (Hp : 2 ^ 64 = 2 ^ (64 - k) * 2 ^ k)
    by (rewrite <- Z.pow_add_r by lia; f_equal; lia).
  assert (0 < 2 ^ k) by (apply Z.pow_pos_nonneg; lia).
  assert (0 < 2 ^ (64 - k)) by (apply Z.pow_pos_nonneg; lia).
  replace (Z.pred (2 ^ (64 - k)) * 2 ^ k) with (2 ^ 64 - 2 ^ k) by lia.
  symmetry. apply Z.mod_unique with (q := -1); lia.
Qed.

(** On a power of two the mask form of the macro is the rounding down
    the label geometry is described with. *)
Lemma P2ALIGN_pow2 x k :
  is_u64 x -> 0 <= k < 64 -> P2ALIGN x (2 ^ k) = x - x mod 2 ^ k.
Proof.
  intros [Hx0 Hx1] Hk. unfold P2ALIGN. rewrite neg_pow2_bits by exact Hk.
  assert (Hl : Z.land x (Z.shiftl (Z.ones (64 - k)) k)
               = Z.ldiff x (Z.ones k)).
  { apply Z.bits_inj'. intros n Hn.
    rewrite Z.land_spec, Z.ldiff_spec, Z.shiftl_spec by lia.
    destruct (Z.ltb_spec n k) as [Hlt | Hge].
    - rewrite (Z.testbit_neg_r _ (n - k)) by lia.
      rewrite Z.ones_spec_low by lia. simpl.
      now rewrite !andb_false_r.
    - rewrite (Z.ones_spec_high k n) by lia. simpl. rewrite andb_true_r.
      destruct (Z.ltb_spec n 64) as [Hlt | Hge'].
      + rewrite Z.ones_spec_low by lia. now rewrite andb_true_r.
      + rewrite Z.ones_spec_high by lia. rewrite andb_false_r.
        symmetry.
        destruct (Z.eq_dec x 0) as [-> | Hne];
          [ apply Z.testbit_0_l | ].
        apply Z.bits_above_log2; [ lia | ].
        apply Z.lt_le_trans with 64; [ | lia ].
        apply Z.log2_lt_pow2; lia. }
  rewrite Hl, Z.ldiff_ones_r by lia.
  rewrite Z.shiftr_div_pow2, Z.shiftl_mul_pow2 by lia.
  assert (0 < 2 ^ k) by (apply Z.pow_pos_nonneg; lia).
  pose proof (Z.div_mod x (2 ^ k)). lia.
Qed.

(** ** C strings *)

Lemma uchar_inj c d : uchar c = uchar d -> c = d.
Proof.
  unfold uchar. intros H. apply Nat2Z.inj in H.
  rewrite <- (ascii_nat_embedding c), <- (ascii_nat_embedding d).
  now rewrite H.
Qed.

Lemma strncmp_full a : forall b,
  String.length a = String.length b ->
  strncmp a b (String.length a) = 0 -> a = b.
Proof.
  induction a as [| c a IH]; intros [| d b] Hlen Hcmp;
    simpl in *; try discriminate; [ reflexivity | ].
  destruct (Ascii.eqb_spec c d) as [-> | Hne].
  - f_equal. apply IH; [ lia | exact Hcmp ].
  - exfalso. apply Hne, uchar_inj. lia.
Qed.

Lemma strncmp_refl a : strncmp a a (String.length a) = 0.
Proof.
  induction a as [| c a IH]; simpl; [ reflexivity | ].
  now rewrite Ascii.eqb_refl.
Qed.

Lemma same_string_spec a b : same_string a b = true <-> a = b.
Proof.
  unfold same_string, strlen. rewrite andb_true_iff, !Z.eqb_eq. split.
  - intros [Hl Hc]. apply strncmp_full; [ lia | exact Hc ].
  - intros ->. split; [ reflexivity | apply strncmp_refl ].
Qed.

Lemma same_string_false a b : same_string a b = false <-> a <> b.
Proof.
  rewrite <- same_string_spec. destruct (same_string a b); split;
    congruence.
Qed.

(** ** Property lists *)

Lemma lookup_with_other {A} (sel : nvvalue -> option A) name ps :
  lookup_with sel (List.filter (other_name name) ps) name = None.
Proof.
  induction ps as [| [n v] r IH]; simpl; [ reflexivity | ].
  unfold other_name at 1. simpl.
  destruct (String.eqb n name) eqn:E; simpl; [ exact IH | ].
  now rewrite E.
Qed.

Lemma lookup_with_app {A} (sel : nvvalue -> option A) name ps qs :
  lookup_with sel (ps ++ qs) name =
  match lookup_with sel ps name with
  | Some a => Some a
  | None => lookup_with sel qs name
  end.
Proof.
  induction ps as [| [n v] r IH]; simpl; [ reflexivity | ].
  destruct (String.eqb n name); [ | exact IH ].
  destruct (sel v); [ reflexivity | exact IH ].
Qed.

Lemma lookup_with_filter_ne {A} (sel : nvvalue -> option A) name other ps :
  name <> other ->
  lookup_with sel (List.filter (other_name other) ps) name
  = lookup_with sel ps name.
Proof.
  intros Hne. induction ps as [| [n v] r IH]; simpl; [ reflexivity | ].
  unfold other_name at 1. simpl.
  destruct (String.eqb_spec n other) as [-> | Hn]; simpl.
  - destruct (String.eqb_spec other name) as [E | _];
      [ congruence | exact IH ].
  - destruct (String.eqb n name); [ | exact IH ].
    destruct (sel v); [ reflexivity | exact IH ].
Qed.

Lemma lookup_add_string_eq nvl name s :
  nvlist_lookup_string (nvlist_add_string nvl name s) name = Some s.
Proof.
  unfold nvlist_lookup_string, nvlist_add_string, nvlist_add. simpl.
  rewrite lookup_with_app, lookup_with_other. simpl.
  now rewrite String.eqb_refl.
Qed.

Lemma lookup_remove_all_eq {A} (sel : nvvalue -> option A) nvl name :
  lookup_with sel (pairs_of (nvlist_remove_all nvl name)) name = None.
Proof. apply lookup_with_other. Qed.

Lemma lookup_remove_all_ne {A} (sel : nvvalue -> option A) nvl name other :
  name <> other ->
  lookup_with sel (pairs_of (nvlist_remove_all nvl other)) name
  = lookup_with sel (pairs_of nvl) name.
Proof. intros H. now apply lookup_with_filter_ne. Qed.

Lemma lookup_add_other {A} (sel : nvvalue -> option A) nvl name v key :
  key <> name ->
  lookup_with sel (pairs_of (nvlist_add nvl name v)) key
  = lookup_with sel (pairs_of nvl) key.
Proof.
  intros Hne. unfold nvlist_add. cbn [pairs_of].
  rewrite lookup_with_app, lookup_with_filter_ne by exact Hne.
  destruct (lookup_with sel (pairs_of nvl) key); [ reflexivity | ].
  cbn [lookup_with].
  destruct (String.eqb_spec name key); [ congruence | reflexivity ].
Qed.

(** ** Label geometry *)

Section LabelGeometry.

Variable k : Z.
Hypothesis k_range : 0 <= k < 64.

Let L : Z := 2 ^ k.

Lemma labelsize_pos : 0 < L.
Proof using k_range. apply Z.pow_pos_nonneg; lia. Qed.

Lemma labelsize_u64 : is_u64 L.
Proof using k_range.
  pose proof labelsize_pos. split; [ lia | ].
  apply Z.pow_lt_mono_r; lia.
Qed.

Lemma aligned_round_down size :
  is_u64 size -> P2ALIGN size L = size - size mod L.
Proof using k_range. intros H. now apply P2ALIGN_pow2. Qed.

Lemma aligned_u64 size : is_u64 size -> is_u64 (P2ALIGN size L).
Proof using k_range.
  intros H. rewrite aligned_round_down by exact H.
  pose proof (Z.mod_pos_bound size L labelsize_pos).
  pose proof (Z.mod_le size L). unfold is_u64 in *. lia.
Qed.

(** The [ASSERT] of [zfs_boot_label_offset] holds of the size
    [zfs_boot_read_label] passes. *)
Lemma aligned_phase size : is_u64 size -> P2PHASE (P2ALIGN size L) L = 0.
Proof using k_range.
  intros H. rewrite aligned_round_down by exact H. unfold P2PHASE.
  pose proof labelsize_pos as Hpos. pose proof labelsize_u64 as Hu.
  rewrite wrap64_small by (unfold is_u64 in *; lia).
  replace (L - 1) with (Z.ones k) by (rewrite Z.ones_equiv; reflexivity).
  rewrite Z.land_ones by lia. fold L.
  rewrite Zminus_mod_idemp_r, Z.sub_diag. apply Z.mod_0_l. lia.
Qed.

Lemma label_offset_front size l :
  0 <= l < 2 -> zfs_boot_label_offset L size l = l * L.
Proof using k_range.
  intros Hl. unfold zfs_boot_label_offset, VDEV_LABELS.
  change (4 / 2) with 2. replace (l <? 2) with true by (symmetry; lia).
  pose proof labelsize_u64 as [H0 H1].
  rewrite Z.add_0_r, (wrap64_small l) by (unfold is_u64; lia).
  assert (is_u64 (l * L)) by (unfold is_u64; nia).
  rewrite (wrap64_small (l * L)) by assumption.
  now apply wrap64_small.
Qed.

Lemma label_offset_back size l :
  2 <= l < 4 ->
  zfs_boot_label_offset L size l = wrap64 (size - (4 - l) * L).
Proof using k_range.
  intros Hl. unfold zfs_boot_label_offset, VDEV_LABELS.
  change (4 / 2) with 2. replace (l <? 2) with false by (symmetry; lia).
  rewrite (wrap64_small l) by (unfold is_u64; lia).
  unfold wrap64.
  rewrite Zminus_mod_idemp_r, Zplus_mod_idemp_l, Zplus_mod_idemp_r.
  f_equal. lia.
Qed.

End LabelGeometry.

(** C8.  For a label size that is a power of two, every device size and
    every label index [l] in 0..3: the aligned size is the device size
    rounded down to a label multiple, and the offset read is [l * labelsize]
    for the two front copies and [size_aligned - (4 - l) * labelsize] for
    the two back copies.  The back offset is the [uint64_t] value of that
    difference, which is the difference itself as soon as the aligned size
    holds the four labels. *)
Theorem label_offset_geometry :
  forall k size l : Z,
    0 <= k < 64 -> is_u64 size -> 0 <= l < 4 ->
    let labelsize := 2 ^ k in
    let size_aligned := P2ALIGN size labelsize in
    size_aligned = size - size mod labelsize /\
    (l < 2 ->
       zfs_boot_label_offset labelsize size_aligned l = l * labelsize) /\
    (2 <= l ->
       zfs_boot_label_offset labelsize size_aligned l
       = wrap64 (size_aligned - (4 - l) * labelsize)) /\
    (2 <= l -> 4 * labelsize <= size_aligned ->
       zfs_boot_label_offset labelsize size_aligned l
       = size_aligned - (4 - l) * labelsize).
Proof.
  intros k size l Hk Hsize Hl labelsize size_aligned.
  pose proof (labelsize_pos k Hk) as Hpos. fold labelsize in Hpos.
  pose proof (aligned_u64 k Hk size Hsize) as Hal.
  fold labelsize size_aligned in Hal.
  split; [ apply aligned_round_down; assumption | ].
  split; [ intros H; apply label_offset_front; lia | ].
  split; intros H.
  - apply label_offset_back; lia.
  - intros Hfit. unfold labelsize. rewrite label_offset_back by lia.
    apply wrap64_small. fold labelsize. unfold is_u64 in *. nia.
Qed.

Lemma label_offset_geometry_witness :
  let size := 64 * 2 ^ 20 + 5 in
  P2ALIGN size (2 ^ 18) = 64 * 2 ^ 20 /\
  zfs_boot_label_offset (2 ^ 18) (P2ALIGN size (2 ^ 18)) 3
  = 64 * 2 ^ 20 - 2 ^ 18.
Proof.
  intros size.
  assert (Hk : 0 <= 18 < 64) by lia.
  assert (Hs : is_u64 size) by (unfold is_u64, size; lia).
  assert (Hl : 0 <= 3 < 4) by lia.
  destruct (label_offset_geometry 18 size 3 Hk Hs Hl) as (Ha & _ & _ & Hb).
  split.
  - rewrite Ha. reflexivity.
  - rewrite Hb; [ | lia | rewrite Ha; vm_compute; discriminate ].
    rewrite Ha. reflexivity.
Defined.

(** ** Label consensus *)

Section LabelConsensus.

Variable labelsize : Z.
Variable media : IOMedia.

Let size : Z := P2ALIGN (media_size media) labelsize.

Lemma accepted_copy_usable l guid config :
  accepted_copy labelsize media l = Some (guid, config) <->
  (let io := media_read media (zfs_boot_label_offset labelsize size l) in
   io_ret io = kIOReturnSuccess /\ labelsize <= io_nread io /\
   io_unpack io = Some config /\ usable_label config guid).
Proof.
  unfold accepted_copy, usable_label, label_guid_check, label_state_check,
    label_txg_check. fold size. cbv zeta.
  destruct (media_read media (zfs_boot_label_offset labelsize size l))
    as [ret nread unpack]. simpl.
  destruct (Z.eqb_spec ret kIOReturnSuccess) as [Hret | Hret]; simpl;
    [ | split; [ discriminate | tauto ] ].
  destruct (Z.ltb_spec nread labelsize) as [Hn | Hn];
    [ split; [ discriminate | lia ] | ].
  destruct unpack as [cfg |];
    [ | split; [ discriminate | intros (_ & _ & H & _); discriminate ] ].
  destruct (nvlist_lookup_uint64 cfg ZPOOL_CONFIG_GUID) as [g |] eqn:Eg.
  2:{ split; [ discriminate | ].
      intros (_ & _ & [= <-] & H & _). congruence. }
  destruct (Z.eqb_spec g 0) as [Hg | Hg].
  { split; [ discriminate | ].
    intros (_ & _ & [= <-] & H & Hnz & _). congruence. }
  destruct (nvlist_lookup_uint64 cfg ZPOOL_CONFIG_POOL_STATE)
    as [s |] eqn:Es.
  2:{ split; [ discriminate | ].
      intros (_ & _ & [= <-] & _ & _ & s & H & _). congruence. }
  destruct (Z.gtb_spec s POOL_STATE_L2CACHE) as [Hs | Hs].
  { split; [ discriminate | ].
    intros (_ & _ & [= <-] & _ & _ & s' & H & Hle & _).
    assert (s' = s) by congruence. lia. }
  destruct (Z.eqb_spec s POOL_STATE_SPARE) as [Hsp | Hsp]; simpl.
  { split.
    - intros [= <- <-]. repeat split; try assumption.
      exists s. repeat split; try assumption. congruence.
    - intros (_ & _ & [= <-] & H & _). congruence. }
  destruct (Z.eqb_spec s POOL_STATE_L2CACHE) as [Hl2 | Hl2]; simpl.
  { split.
    - intros [= <- <-]. repeat split; try assumption.
      exists s. repeat split; try assumption. congruence.
    - intros (_ & _ & [= <-] & H & _). congruence. }
  destruct (nvlist_lookup_uint64 cfg ZPOOL_CONFIG_POOL_TXG) as [t |] eqn:Et.
  2:{ split; [ discriminate | ].
      intros (_ & _ & [= <-] & _ & _ & s' & H & _ & Ht).
      assert (s' = s) by congruence. subst s'.
      destruct (Ht Hsp Hl2) as (t & Ht' & _). congruence. }
  destruct (Z.eqb_spec t 0) as [Ht | Ht]; simpl.
  { split; [ discriminate | ].
    intros (_ & _ & [= <-] & _ & _ & s' & H & _ & Ht').
    assert (s' = s) by congruence. subst s'.
    destruct (Ht' Hsp Hl2) as (t' & Ht'' & Hnz). congruence. }
  split.
  - intros [= <- <-]. repeat split; try assumption.
    exists s. repeat split; try assumption. intros _ _. now exists t.
  - intros (_ & _ & [= <-] & H & _). congruence.
Qed.

Lemma accepted_copy_guid l guid config :
  accepted_copy labelsize media l = Some (guid, config) -> guid <> 0.
Proof. intros H. apply accepted_copy_usable in H. apply H. Qed.

(** One turn of the loop in terms of the copy it looked at. *)
Lemma read_label_step_accepted st l :
  read_label_step labelsize size media st l =
  match accepted_copy labelsize media l with
  | None => st
  | Some (guid, config) =>
      if expected_guid st =? 0
      then {| expected_config := Some config;
              expected_guid := guid;
              count := count st + 1 |}
      else if expected_guid st =? guid
           then {| expected_config := expected_config st;
                   expected_guid := expected_guid st;
                   count := count st + 1 |}
           else st
  end.
Proof.
  unfold read_label_step, accepted_copy. fold size.
  destruct (media_read media (zfs_boot_label_offset labelsize size l))
    as [ret nread unpack]. simpl.
  destruct (negb (ret =? kIOReturnSuccess)); [ reflexivity | ].
  destruct (nread <? labelsize); [ reflexivity | ].
  destruct unpack as [cfg |]; [ | reflexivity ].
  destruct (label_guid_check cfg) as [g |]; [ | reflexivity ].
  destruct (label_state_check cfg) as [s |]; [ | reflexivity ].
  destruct (label_txg_check cfg s); simpl; [ | reflexivity ].
  destruct (expected_guid st =? 0); reflexivity.
Qed.

(** Once the first label is in, later copies only move the counter. *)
Lemma label_loop_counting ls : forall st,
  expected_guid st <> 0 ->
  fold_left (read_label_step labelsize size media) ls st =
  {| expected_config := expected_config st;
     expected_guid := expected_guid st;
     count := count st
       + Z.of_nat (List.length
           (List.filter (same_guid (expected_guid st))
              (accepted_among labelsize media ls))) |}.
Proof.
  induction ls as [| l ls IH]; intros st Hst;
    cbn [fold_left accepted_among].
  - destruct st; cbn. f_equal. lia.
  - rewrite read_label_step_accepted.
    destruct (accepted_copy labelsize media l) as [[g c] |] eqn:Eacc.
    + replace (expected_guid st =? 0) with false by (symmetry; lia).
      cbn [List.filter]. unfold same_guid at 1. cbn [fst].
      rewrite (Z.eqb_sym g).
      destruct (expected_guid st =? g).
      * rewrite IH by exact Hst. cbn [expected_config expected_guid count].
        f_equal. cbn [List.length]. lia.
      * apply IH, Hst.
    + apply IH, Hst.
Qed.

Lemma label_loop_consensus ls : forall st,
  expected_guid st = 0 ->
  fold_left (read_label_step labelsize size media) ls st =
  match accepted_among labelsize media ls with
  | [] => st
  | (guid, config) :: rest =>
      {| expected_config := Some config;
         expected_guid := guid;
         count := count st
           + Z.of_nat (List.length
               (List.filter (same_guid guid) ((guid, config) :: rest))) |}
  end.
Proof.
  induction ls as [| l ls IH]; intros st Hst;
    cbn [fold_left accepted_among]; [ reflexivity | ].
  rewrite read_label_step_accepted.
  destruct (accepted_copy labelsize media l) as [[g c] |] eqn:Eacc.
  - rewrite Hst. change (0 =? 0) with true. cbv iota.
    rewrite label_loop_counting
      by (cbn; eapply accepted_copy_guid; eassumption).
    cbn [expected_config expected_guid count List.filter].
    unfold same_guid at 2. cbn [fst]. rewrite Z.eqb_refl.
    f_equal. cbn [List.length]. lia.
  - apply IH, Hst.
Qed.

End LabelConsensus.

(** C2.  For every device: a label copy is accepted exactly when it is
    read in full, unpacks, has a nonzero guid, a pool state up to
    [POOL_STATE_L2CACHE] and, unless the state is SPARE or L2CACHE, a
    nonzero pool txg; [zfs_boot_read_label] returns the config of the first
    accepted copy (copies taken in the order 0..3) and a label count equal
    to the number of accepted copies that carry the guid of that first
    copy.  (A device without size, or one that does not open, has no copy
    read: the call fails with no config.) *)
Theorem read_label_first_accepted :
  forall (labelsize : Z) (m : IOMedia),
    (forall l guid config,
        accepted_copy labelsize m l = Some (guid, config) <->
        (let io := media_read m
                     (zfs_boot_label_offset labelsize
                        (P2ALIGN (media_size m) labelsize) l) in
         io_ret io = kIOReturnSuccess /\ labelsize <= io_nread io /\
         io_unpack io = Some config /\ usable_label config guid)) /\
    zfs_boot_read_label labelsize (Some m) =
      if (media_size m =? 0) || negb (media_open m)
      then (-1, None, None)
      else (0, fst (consensus (accepted_copies labelsize m)),
            Some (snd (consensus (accepted_copies labelsize m)))).
Proof.
  intros labelsize m. split.
  - intros l guid config. apply accepted_copy_usable.
  - unfold zfs_boot_read_label.
    destruct (media_size m =? 0); [ reflexivity | ].
    destruct (media_open m); [ | reflexivity ].
    cbn [negb orb]. cbv iota zeta.
    rewrite label_loop_consensus by reflexivity.
    unfold accepted_copies, consensus.
    destruct (accepted_among labelsize m label_indices)
      as [| [g c] rest]; reflexivity.
Qed.

Lemma read_label_first_accepted_witness :
  zfs_boot_read_label sizeof_vdev_label_t (Some s2_media)
  = (0, Some (s2_label 7), Some 2).
Proof.
  destruct (read_label_first_accepted sizeof_vdev_label_t s2_media)
    as [_ H].
  rewrite H. vm_compute. reflexivity.
Defined.

(** ** Keyed linked lists *)

Section Keyed.

Context {A : Type}.
Variable key : A -> Z.
Variable k : Z.

Let hit : A -> bool := has_key key k.

Lemma find_hit_key l x : List.find hit l = Some x -> key x = k /\ In x l.
Proof using Type.
  intros H. apply List.find_some in H as [Hin Hk].
  unfold hit, has_key in Hk. split; [ lia | exact Hin ].
Qed.

Lemma find_miss_key l : List.find hit l = None -> ~ In k (List.map key l).
Proof using Type.
  intros H Hin. apply in_map_iff in Hin as (x & Hx & Hin).
  pose proof (List.find_none _ _ H x Hin) as Hf.
  unfold hit, has_key in Hf. lia.
Qed.

Lemma find_unique l x :
  List.NoDup (List.map key l) -> In x l -> key x = k ->
  List.find hit l = Some x.
Proof using Type.
  induction l as [| y r IH]; intros Hnd Hin Hk; [ destruct Hin | ].
  simpl in *. inversion Hnd as [| ? ? Hnotin Hnd']; subst.
  unfold hit at 1. unfold has_key.
  destruct (Z.eqb_spec (key y) (key x)) as [E | E].
  - destruct Hin as [-> | Hin]; [ reflexivity | ].
    exfalso. apply Hnotin. rewrite E. now apply in_map.
  - destruct Hin as [-> | Hin]; [ congruence | ]. now apply IH.
Qed.

Lemma replace_first_found l x :
  List.find hit l = Some x -> replace_first hit x l = l.
Proof using Type.
  induction l as [| y r IH]; simpl; [ discriminate | ].
  destruct (hit y); [ now intros [= ->] | ].
  intros H. now rewrite IH.
Qed.

Lemma replace_first_keys l x y :
  List.find hit l = Some x -> key y = k ->
  List.map key (replace_first hit y l) = List.map key l.
Proof using Type.
  induction l as [| z r IH]; simpl; [ discriminate | ].
  destruct (hit z) eqn:E; simpl.
  - intros [= ->] Hy. f_equal. unfold hit, has_key in E. lia.
  - intros H Hy. now rewrite IH.
Qed.

Lemma replace_first_Forall (P : A -> Prop) l y :
  Forall P l -> P y -> Forall P (replace_first hit y l).
Proof using Type.
  induction 1 as [| z r Hz Hr IH]; intros Hy; simpl; [ constructor | ].
  destruct (hit z); constructor; auto.
Qed.

(** Every node but the one written through the pointer is still there,
    and that one has given way to the new content. *)
Lemma replace_first_In l y z :
  In z l ->
  In z (replace_first hit y l) \/
  (List.find hit l = Some z /\ In y (replace_first hit y l)).
Proof using Type.
  induction l as [| x r IH]; intros Hin; [ destruct Hin | ].
  simpl. destruct (hit x) eqn:E.
  - destruct Hin as [-> | Hin].
    + right. split; [ reflexivity | now left ].
    + left. now right.
  - destruct Hin as [-> | Hin]; [ left; now left | ].
    destruct (IH Hin) as [H | [H1 H2]]; [ left | right; split; auto ];
      now right.
Qed.

End Keyed.

(** ** Aggregator *)

Lemma add_to_vdev_guid txg config ve :
  ve_guid (fst (add_to_vdev txg config ve)) = ve_guid ve.
Proof.
  unfold add_to_vdev. now destruct (List.find (is_txg txg) (ve_configs ve)).
Qed.

Lemma add_to_vdev_inv txg config ve :
  vdev_inv ve -> vdev_inv (fst (add_to_vdev txg config ve)).
Proof.
  unfold add_to_vdev, vdev_inv. intros H.
  destruct (List.find (is_txg txg) (ve_configs ve)) eqn:E; simpl;
    [ exact H | ].
  constructor; [ | exact H ]. now apply (find_miss_key ce_txg txg).
Qed.

Lemma add_to_vdev_keeps txg config ve ce :
  In ce (ve_configs ve) ->
  In ce (ve_configs (fst (add_to_vdev txg config ve))).
Proof.
  unfold add_to_vdev. intros H.
  destruct (List.find (is_txg txg) (ve_configs ve)); simpl;
    [ exact H | now right ].
Qed.

Lemma add_to_pool_guid top_guid txg config pe :
  pe_guid (fst (add_to_pool top_guid txg config pe)) = pe_guid pe.
Proof.
  unfold add_to_pool.
  destruct (List.find (is_vdev top_guid) (pe_vdevs pe));
    destruct (add_to_vdev txg config _); reflexivity.
Qed.

Lemma add_to_pool_inv top_guid txg config pe :
  pool_inv pe -> pool_inv (fst (add_to_pool top_guid txg config pe)).
Proof.
  unfold add_to_pool, pool_inv. intros [Hnd Hall].
  destruct (List.find (is_vdev top_guid) (pe_vdevs pe)) as [ve |] eqn:E.
  - pose proof (add_to_vdev_guid txg config ve) as Hg.
    pose proof (add_to_vdev_inv txg config ve) as Hi.
    destruct (add_to_vdev txg config ve) as [ve' freed]. simpl in *.
    destruct (find_hit_key ve_guid top_guid _ _ E) as [Hk Hin].
    split.
    + erewrite (replace_first_keys ve_guid top_guid);
        [ exact Hnd | exact E | congruence ].
    + apply (replace_first_Forall ve_guid top_guid); [ exact Hall | ].
      apply Hi. rewrite List.Forall_forall in Hall. now apply Hall.
  - set (ve := {| ve_guid := top_guid; ve_configs := [] |}).
    pose proof (add_to_vdev_guid txg config ve) as Hg.
    pose proof (add_to_vdev_inv txg config ve) as Hi.
    assert (Hhit : is_vdev top_guid ve = true) by apply Z.eqb_refl.
    destruct (add_to_vdev txg config ve) as [ve' freed].
    cbn [fst pe_vdevs replace_first] in *. rewrite Hhit. split.
    + cbn [List.map]. rewrite Hg. constructor; [ | exact Hnd ].
      now apply (find_miss_key ve_guid top_guid).
    + constructor; [ | exact Hall ]. apply Hi. constructor.
Qed.

Lemma add_to_pool_keeps top_guid txg config pe ve ce :
  In ve (pe_vdevs pe) -> In ce (ve_configs ve) ->
  exists ve',
    In ve' (pe_vdevs (fst (add_to_pool top_guid txg config pe))) /\
    ve_guid ve' = ve_guid ve /\ In ce (ve_configs ve').
Proof.
  unfold add_to_pool. intros Hve Hce.
  destruct (List.find (is_vdev top_guid) (pe_vdevs pe)) as [v |] eqn:E.
  - pose proof (add_to_vdev_guid txg config v) as Hg.
    pose proof (add_to_vdev_keeps txg config v ce) as Hk.
    destruct (add_to_vdev txg config v) as [v' freed]. simpl in *.
    destruct (replace_first_In ve_guid top_guid _ v' ve Hve)
      as [H | [H1 H2]].
    + exists ve. auto.
    + assert (v = ve) by (unfold is_vdev in E; cbv zeta in H1; congruence).
      subst v. exists v'. auto.
  - set (v := {| ve_guid := top_guid; ve_configs := [] |}).
    assert (Hhit : is_vdev top_guid v = true) by apply Z.eqb_refl.
    destruct (add_to_vdev txg config v) as [v' freed].
    cbn [fst pe_vdevs replace_first]. rewrite Hhit.
    exists ve. split; [ now right | auto ].
Qed.

Lemma add_to_pools_inv pool_guid top_guid txg config ps :
  List.NoDup (List.map pe_guid ps) -> Forall pool_inv ps ->
  let ps' := fst (add_to_pools pool_guid top_guid txg config ps) in
  List.NoDup (List.map pe_guid ps') /\ Forall pool_inv ps'.
Proof.
  unfold add_to_pools. intros Hnd Hall.
  destruct (List.find (is_pool pool_guid) ps) as [pe |] eqn:E.
  - pose proof (add_to_pool_guid top_guid txg config pe) as Hg.
    pose proof (add_to_pool_inv top_guid txg config pe) as Hi.
    destruct (add_to_pool top_guid txg config pe) as [pe' freed].
    simpl in *.
    destruct (find_hit_key pe_guid pool_guid _ _ E) as [Hk Hin].
    split.
    + erewrite (replace_first_keys pe_guid pool_guid);
        [ exact Hnd | exact E | congruence ].
    + apply (replace_first_Forall pe_guid pool_guid); [ exact Hall | ].
      apply Hi. rewrite List.Forall_forall in Hall. now apply Hall.
  - set (pe := {| pe_guid := pool_guid; pe_vdevs := [] |}).
    pose proof (add_to_pool_guid top_guid txg config pe) as Hg.
    pose proof (add_to_pool_inv top_guid txg config pe) as Hi.
    assert (Hhit : is_pool pool_guid pe = true) by apply Z.eqb_refl.
    destruct (add_to_pool top_guid txg config pe) as [pe' freed].
    cbn [fst replace_first] in *. rewrite Hhit. split.
    + cbn [List.map]. rewrite Hg. constructor; [ | exact Hnd ].
      now apply (find_miss_key pe_guid pool_guid).
    + constructor; [ | exact Hall ]. apply Hi.
      split; constructor.
Qed.

Lemma add_to_pools_keeps pool_guid top_guid txg config ps pe ve ce :
  In pe ps -> In ve (pe_vdevs pe) -> In ce (ve_configs ve) ->
  exists pe' ve',
    In pe' (fst (add_to_pools pool_guid top_guid txg config ps)) /\
    pe_guid pe' = pe_guid pe /\
    In ve' (pe_vdevs pe') /\ ve_guid ve' = ve_guid ve /\
    In ce (ve_configs ve').
Proof.
  unfold add_to_pools. intros Hpe Hve Hce.
  destruct (List.find (is_pool pool_guid) ps) as [p |] eqn:E.
  - pose proof (add_to_pool_guid top_guid txg config p) as Hg.
    pose proof (add_to_pool_keeps top_guid txg config p ve ce) as Hk.
    destruct (add_to_pool top_guid txg config p) as [p' freed].
    simpl in *.
    destruct (replace_first_In pe_guid pool_guid _ p' pe Hpe)
      as [H | [H1 H2]].
    + exists pe, ve. auto.
    + assert (p = pe) by (unfold is_pool in E; cbv zeta in H1; congruence).
      subst p.
      destruct (Hk Hve Hce) as (ve' & H3 & H4 & H5).
      exists p', ve'. auto.
  - set (p := {| pe_guid := pool_guid; pe_vdevs := [] |}).
    assert (Hhit : is_pool pool_guid p = true) by apply Z.eqb_refl.
    destruct (add_to_pool top_guid txg config p) as [p' freed].
    cbn [fst replace_first]. rewrite Hhit.
    exists pe, ve. split; [ now right | auto ].
Qed.

Lemma add_config_inv pl path order num_labels config :
  tree_inv pl ->
  tree_inv (ac_pl (zfs_boot_add_config pl path order num_labels config)).
Proof.
  unfold zfs_boot_add_config, tree_inv. intros [Hnd Hall].
  destruct (spare_or_l2cache_guid config); [ now split | ].
  destruct (label_identity config) as [[[[pg vg] tg] txg] |];
    [ | now split ].
  pose proof (add_to_pools_inv pg tg txg config (pools pl) Hnd Hall) as H.
  destruct (add_to_pools pg tg txg config (pools pl)). exact H.
Qed.

Lemma add_config_keeps pl path order num_labels config pg tg ce :
  has_config pl pg tg ce ->
  has_config (ac_pl (zfs_boot_add_config pl path order num_labels config))
    pg tg ce.
Proof.
  unfold zfs_boot_add_config, has_config.
  intros (pe & ve & Hpe & Hpg & Hve & Htg & Hce).
  destruct (spare_or_l2cache_guid config);
    [ exists pe, ve; simpl; auto | ].
  destruct (label_identity config) as [[[[pg' vg] tg'] txg] |];
    [ | exists pe, ve; auto ].
  destruct (add_to_pools_keeps pg' tg' txg config (pools pl) pe ve ce
              Hpe Hve Hce) as (pe' & ve' & H1 & H2 & H3 & H4 & H5).
  destruct (add_to_pools pg' tg' txg config (pools pl)). simpl in *.
  exists pe', ve'. repeat split; auto; congruence.
Qed.

Lemma add_all_inv calls : forall pl, tree_inv pl -> tree_inv (add_all pl calls).
Proof.
  induction calls as [| c calls IH]; intros pl H; simpl; [ exact H | ].
  apply IH. now apply add_config_inv.
Qed.

Lemma add_all_keeps calls pg tg ce : forall pl,
  has_config pl pg tg ce -> has_config (add_all pl calls) pg tg ce.
Proof.
  induction calls as [| c calls IH]; intros pl H; simpl; [ exact H | ].
  apply IH. now apply add_config_keeps.
Qed.

(** A config whose keys are in the tree already changes nothing but the
    name list. *)
Lemma add_config_duplicate pl path order num_labels config pg vg tg txg ce :
  tree_inv pl ->
  spare_or_l2cache_guid config = None ->
  label_identity config = Some (pg, vg, tg, txg) ->
  has_config pl pg tg ce -> ce_txg ce = txg ->
  zfs_boot_add_config pl path order num_labels config
  = {| ac_ret := 0;
       ac_pl := set_tree pl (pools pl)
                  (new_name_entry path vg order num_labels :: names pl);
       ac_freed := true |}.
Proof.
  intros [Hnd Hall] Hsp Hid (pe & ve & Hpe & Hpg & Hve & Htg & Hce) Htxg.
  unfold zfs_boot_add_config. rewrite Hsp, Hid.
  rewrite List.Forall_forall in Hall. destruct (Hall pe Hpe) as [Hnd' Hall'].
  rewrite List.Forall_forall in Hall'. pose proof (Hall' ve Hve) as Hnd''.
  pose proof (find_unique pe_guid pg _ pe Hnd Hpe Hpg) as Fpe.
  pose proof (find_unique ve_guid tg _ ve Hnd' Hve Htg) as Fve.
  pose proof (find_unique ce_txg txg _ ce Hnd'' Hce Htxg) as Fce.
  unfold add_to_pools. fold (is_pool pg) in Fpe. rewrite Fpe.
  unfold add_to_pool. fold (is_vdev tg) in Fve. rewrite Fve.
  unfold add_to_vdev. fold (is_txg txg) in Fce. rewrite Fce.
  unfold is_vdev. rewrite (replace_first_found ve_guid tg _ ve Fve).
  replace {| pe_guid := pe_guid pe; pe_vdevs := pe_vdevs pe |} with pe
    by now destruct pe.
  unfold is_pool. rewrite (replace_first_found pe_guid pg _ pe Fpe).
  reflexivity.
Qed.

(** C5.  A config that is not in state SPARE or L2CACHE and lacks one of
    pool_guid, guid, top_guid, pool_txg, or has pool_txg 0, is freed; the
    pool list comes back as it was (no pool, vdev, config or name entry is
    made) and the call returns 0. *)
Theorem add_config_drops_incomplete :
  forall (pl : pool_list) (path : string) (order num_labels : Z)
         (config : nvlist),
    (forall state,
        nvlist_lookup_uint64 config ZPOOL_CONFIG_POOL_STATE = Some state ->
        state <> POOL_STATE_SPARE /\ state <> POOL_STATE_L2CACHE) ->
    (nvlist_lookup_uint64 config ZPOOL_CONFIG_POOL_GUID = None \/
     nvlist_lookup_uint64 config ZPOOL_CONFIG_GUID = None \/
     nvlist_lookup_uint64 config ZPOOL_CONFIG_TOP_GUID = None \/
     nvlist_lookup_uint64 config ZPOOL_CONFIG_POOL_TXG = None \/
     nvlist_lookup_uint64 config ZPOOL_CONFIG_POOL_TXG = Some 0) ->
    zfs_boot_add_config pl path order num_labels config
    = {| ac_ret := 0; ac_pl := pl; ac_freed := true |}.
Proof.
  intros pl path order num_labels config Hstate Hmiss.
  unfold zfs_boot_add_config.
  assert (Hsp : spare_or_l2cache_guid config = None).
  { unfold spare_or_l2cache_guid.
    destruct (nvlist_lookup_uint64 config ZPOOL_CONFIG_POOL_STATE)
      as [state |]; [ | reflexivity ].
    destruct (Hstate state eq_refl) as [H1 H2].
    destruct (Z.eqb_spec state POOL_STATE_SPARE); [ contradiction | ].
    destruct (Z.eqb_spec state POOL_STATE_L2CACHE); [ contradiction | ].
    reflexivity. }
  assert (Hid : label_identity config = None).
  { unfold label_identity.
    destruct (nvlist_lookup_uint64 config ZPOOL_CONFIG_POOL_GUID);
      [ | reflexivity ].
    destruct (nvlist_lookup_uint64 config ZPOOL_CONFIG_GUID);
      [ | reflexivity ].
    destruct (nvlist_lookup_uint64 config ZPOOL_CONFIG_TOP_GUID);
      [ | reflexivity ].
    destruct (nvlist_lookup_uint64 config ZPOOL_CONFIG_POOL_TXG) as [t |];
      [ | reflexivity ].
    destruct Hmiss as [H | [H | [H | [H | H]]]]; try discriminate.
    injection H as ->. reflexivity. }
  now rewrite Hsp, Hid.
Qed.

Lemma add_config_drops_incomplete_witness :
  let pl := add_one (new_pool_list (Some "tank"%string) 0)
              {| call_path := "/dev/disk0"; call_order := 1;
                 call_num_labels := 4; call_config := s2_label 7 |} in
  zfs_boot_add_config pl "/dev/disk1" 1 4 half_initialised_label
  = {| ac_ret := 0; ac_pl := pl; ac_freed := true |}.
Proof.
  intros pl.
  apply add_config_drops_incomplete.
  - intros state H. vm_compute in H. injection H as <-.
    split; discriminate.
  - right. right. right. right. reflexivity.
Defined.

(** C4.  After any sequence of [zfs_boot_add_config] calls on a new pool
    list: no vdev entry holds two config entries of one txg; a config whose
    [(pool_guid, top_guid, txg)] has a config entry already leaves every
    pool, vdev and config entry as it was, is freed, and only gets its
    name entry linked in; and a config entry that is in the tree stays in
    it, under its keys and with its config, whatever calls come later. *)
Theorem add_config_first_txg_wins :
  forall (name : option string) (guid : Z) (calls : list add_call),
    let pl := add_all (new_pool_list name guid) calls in
    (forall pe ve,
        In pe (pools pl) -> In ve (pe_vdevs pe) ->
        List.NoDup (List.map ce_txg (ve_configs ve))) /\
    (forall path order num_labels config pg vg tg txg ce,
        spare_or_l2cache_guid config = None ->
        label_identity config = Some (pg, vg, tg, txg) ->
        has_config pl pg tg ce -> ce_txg ce = txg ->
        zfs_boot_add_config pl path order num_labels config
        = {| ac_ret := 0;
             ac_pl := set_tree pl (pools pl)
                        (new_name_entry path vg order num_labels
                         :: names pl);
             ac_freed := true |}) /\
    (forall pg tg ce later,
        has_config pl pg tg ce -> has_config (add_all pl later) pg tg ce).
Proof.
  intros name guid calls pl.
  assert (Hinv : tree_inv pl).
  { apply add_all_inv. split; constructor. }
  split; [ | split ].
  - intros pe ve Hpe Hve. destruct Hinv as [_ Hall].
    rewrite List.Forall_forall in Hall. destruct (Hall pe Hpe) as [_ Hv].
    rewrite List.Forall_forall in Hv. now apply Hv.
  - intros. now apply add_config_duplicate with (tg := tg) (txg := txg)
                                               (pg := pg) (ce := ce).
  - intros. now apply add_all_keeps.
Qed.

Lemma add_config_first_txg_wins_witness :
  let pl := add_all (new_pool_list (Some "tank"%string) 0)
              [ {| call_path := "/dev/disk0"; call_order := 1;
                   call_num_labels := 4; call_config := mirror_label 51 |} ]
  in
  has_config pl 1001 50 {| ce_txg := 12; ce_config := mirror_label 51 |} /\
  zfs_boot_add_config pl "/dev/disk1" 1 4 (mirror_label 52)
  = {| ac_ret := 0;
       ac_pl := set_tree pl (pools pl)
                  (new_name_entry "/dev/disk1" 52 1 4 :: names pl);
       ac_freed := true |}.
Proof.
  intros pl.
  assert (Hhas : has_config pl 1001 50
                   {| ce_txg := 12; ce_config := mirror_label 51 |}).
  { exists {| pe_guid := 1001;
              pe_vdevs := [ {| ve_guid := 50;
                               ve_configs := [ {| ce_txg := 12;
                                                  ce_config := mirror_label 51
                                               |} ] |} ] |},
           {| ve_guid := 50;
              ve_configs := [ {| ce_txg := 12;
                                 ce_config := mirror_label 51 |} ] |}.
    repeat split; try reflexivity; left; reflexivity. }
  split; [ exact Hhas | ].
  destruct (add_config_first_txg_wins (Some "tank"%string) 0
              [ {| call_path := "/dev/disk0"; call_order := 1;
                   call_num_labels := 4;
                   call_config := mirror_label 51 |} ])
    as (_ & Hdup & _).
  apply Hdup with (pg := 1001) (tg := 50) (txg := 12)
                  (ce := {| ce_txg := 12; ce_config := mirror_label 51 |});
    [ reflexivity | reflexivity | exact Hhas | reflexivity ].
Defined.

(** ** Path fixup *)

Section NameChoice.

Variable path : string.
Variable guid : Z.

Lemma names_walk_candidates names : forall best,
  names_walk (Some path) guid names best
  = names_walk (Some path) guid (candidates guid names) best.
Proof using Type.
  induction names as [| ne rest IH]; intros best; [ reflexivity | ].
  cbn [names_walk candidates List.filter].
  destruct (ne_guid ne =? guid) eqn:E; [ | apply IH ].
  cbn [names_walk]. rewrite E.
  destruct (same_string path (ne_name ne)); [ reflexivity | ].
  destruct best as [b |]; [ | apply IH ].
  destruct (ne_num_labels ne >? ne_num_labels b); [ apply IH | ].
  destruct ((ne_num_labels ne =? ne_num_labels b)
            && (ne_order ne <? ne_order b)); apply IH.
Qed.

Lemma candidates_guid names x :
  In x (candidates guid names) -> ne_guid x = guid.
Proof using Type.
  unfold candidates. rewrite filter_In. intros [_ H]. lia.
Qed.

(** Either some candidate has exactly the path, and there is a first one,
    or none has. *)
Lemma first_exact (cs : list name_entry) :
  (exists pre e post,
      cs = pre ++ e :: post /\ ne_name e = path /\
      forall x, In x pre -> ne_name x <> path) \/
  (forall x, In x cs -> ne_name x <> path).
Proof using Type.
  induction cs as [| c cs IH]; [ right; intros x [] | ].
  destruct (String.string_dec (ne_name c) path) as [E | E].
  - left. exists [], c, cs. repeat split; [ exact E | intros x [] ].
  - destruct IH as [(pre & e & post & -> & He & Hpre) | Hnone].
    + left. exists (c :: pre), e, post. repeat split; [ exact He | ].
      intros x [<- | Hx]; auto.
    + right. intros x [<- | Hx]; auto.
Qed.

Lemma names_walk_exact pre e post : forall best,
  (forall x, In x (pre ++ e :: post) -> ne_guid x = guid) ->
  (forall x, In x pre -> ne_name x <> path) -> ne_name e = path ->
  names_walk (Some path) guid (pre ++ e :: post) best = Some e.
Proof using Type.
  induction pre as [| c pre IH]; intros best Hg Hpre He; cbn [app names_walk].
  - rewrite (Hg e) by now left. rewrite Z.eqb_refl.
    replace (same_string path (ne_name e)) with true
      by (symmetry; now apply same_string_spec).
    reflexivity.
  - rewrite (Hg c) by now left. rewrite Z.eqb_refl.
    replace (same_string path (ne_name c)) with false.
    2:{ symmetry. apply same_string_false. intros E.
        apply (Hpre c); [ now left | now symmetry ]. }
    assert (Hg' : forall x, In x (pre ++ e :: post) -> ne_guid x = guid)
      by (intros x Hx; apply Hg; now right).
    assert (Hpre' : forall x, In x pre -> ne_name x <> path)
      by (intros x Hx; apply Hpre; now right).
    destruct best as [b |]; [ | now apply IH ].
    destruct (ne_num_labels c >? ne_num_labels b); [ now apply IH | ].
    destruct ((ne_num_labels c =? ne_num_labels b)
              && (ne_order c <? ne_order b)); now apply IH.
Qed.

(** With no exact match around, the walk ends on [b] itself or on the
    first later candidate nothing beats. *)
Lemma names_walk_best cs : forall b,
  (forall x, In x cs -> ne_guid x = guid) ->
  (forall x, In x cs -> ne_name x <> path) ->
  exists r,
    names_walk (Some path) guid cs (Some b) = Some r /\
    ((r = b /\ forall x, In x cs -> ~ better x b) \/
     (exists pre post,
         cs = pre ++ r :: post /\ better r b /\
         (forall x, In x pre -> better r x) /\
         (forall x, In x post -> ~ better x r))).
Proof using Type.
  induction cs as [| c cs IH]; intros b Hg Hne.
  - exists b. split; [ reflexivity | left; split; [ reflexivity | ] ].
    intros x [].
  - cbn [names_walk]. rewrite (Hg c) by now left. rewrite Z.eqb_refl.
    replace (same_string path (ne_name c)) with false.
    2:{ symmetry. apply same_string_false. intros E.
        apply (Hne c); [ now left | now symmetry ]. }
    assert (Hg' : forall x, In x cs -> ne_guid x = guid)
      by (intros x Hx; apply Hg; now right).
    assert (Hne' : forall x, In x cs -> ne_name x <> path)
      by (intros x Hx; apply Hne; now right).
    assert (Hstep :
      (better c b /\
       names_walk (Some path) guid cs
         (if ne_num_labels c >? ne_num_labels b then Some c
          else if (ne_num_labels c =? ne_num_labels b)
                  && (ne_order c <? ne_order b)
               then Some c else Some b)
       = names_walk (Some path) guid cs (Some c)) \/
      (~ better c b /\
       names_walk (Some path) guid cs
         (if ne_num_labels c >? ne_num_labels b then Some c
          else if (ne_num_labels c =? ne_num_labels b)
                  && (ne_order c <? ne_order b)
               then Some c else Some b)
       = names_walk (Some path) guid cs (Some b))).
    { unfold better.
      destruct (Z.gtb_spec (ne_num_labels c) (ne_num_labels b));
        [ left; split; [ lia | reflexivity ] | ].
      destruct (Z.eqb_spec (ne_num_labels c) (ne_num_labels b));
        destruct (Z.ltb_spec (ne_order c) (ne_order b)); cbn [andb];
        first [ left; split; [ lia | reflexivity ]
              | right; split; [ lia | reflexivity ] ]. }
    assert (Hshape :
      (if ne_num_labels c >? ne_num_labels b
       then names_walk (Some path) guid cs (Some c)
       else if (ne_num_labels c =? ne_num_labels b)
               && (ne_order c <? ne_order b)
            then names_walk (Some path) guid cs (Some c)
            else names_walk (Some path) guid cs (Some b))
      = names_walk (Some path) guid cs
          (if ne_num_labels c >? ne_num_labels b then Some c
           else if (ne_num_labels c =? ne_num_labels b)
                   && (ne_order c <? ne_order b)
                then Some c else Some b)).
    { destruct (ne_num_labels c >? ne_num_labels b); [ reflexivity | ].
      destruct ((ne_num_labels c =? ne_num_labels b)
                && (ne_order c <? ne_order b)); reflexivity. }
    rewrite Hshape.
    destruct Hstep as [[Hcb ->] | [Hcb ->]].
    + destruct (IH c Hg' Hne') as (r & Hr & Hcase). exists r.
      split; [ exact Hr | right ].
      destruct Hcase as [[-> Hall] | (pre & post & -> & Hrc & Hpre & Hpost)].
      * exists [], cs. repeat split; [ exact Hcb | intros x [] | exact Hall ].
      * exists (c :: pre), post. repeat split; [ | | exact Hpost ].
        -- unfold better in *. lia.
        -- intros x [<- | Hx]; [ exact Hrc | now apply Hpre ].
    + destruct (IH b Hg' Hne') as (r & Hr & Hcase). exists r.
      split; [ exact Hr | ].
      destruct Hcase as [[-> Hall] | (pre & post & -> & Hrb & Hpre & Hpost)].
      * left. split; [ reflexivity | ].
        intros x [<- | Hx]; [ exact Hcb | now apply Hall ].
      * right. exists (c :: pre), post. repeat split;
          [ exact Hrb | | exact Hpost ].
        intros x [<- | Hx]; [ | now apply Hpre ].
        unfold better in *. lia.
Qed.

(** From an empty [best]: the first candidate nothing beats. *)
Lemma names_walk_first_best cs :
  cs <> [] ->
  (forall x, In x cs -> ne_guid x = guid) ->
  (forall x, In x cs -> ne_name x <> path) ->
  exists pre r post,
    cs = pre ++ r :: post /\
    names_walk (Some path) guid cs None = Some r /\
    (forall x, In x pre -> better r x) /\
    (forall x, In x post -> ~ better x r).
Proof using Type.
  destruct cs as [| c cs]; [ congruence | ]. intros _ Hg Hne.
  cbn [names_walk]. rewrite (Hg c) by now left. rewrite Z.eqb_refl.
  replace (same_string path (ne_name c)) with false.
  2:{ symmetry. apply same_string_false. intros E.
      apply (Hne c); [ now left | now symmetry ]. }
  destruct (names_walk_best cs c) as (r & Hr & Hcase).
  { intros x Hx. apply Hg. now right. }
  { intros x Hx. apply Hne. now right. }
  destruct Hcase as [[-> Hall] | (pre & post & -> & Hrc & Hpre & Hpost)].
  - exists [], c, cs. repeat split; [ exact Hr | intros x [] | exact Hall ].
  - exists (c :: pre), r, post. repeat split; [ exact Hr | | exact Hpost ].
    intros x [<- | Hx]; [ exact Hrc | now apply Hpre ].
Qed.

Lemma names_walk_none names :
  candidates guid names = [] ->
  names_walk (Some path) guid names None = None.
Proof using Type. intros H. now rewrite names_walk_candidates, H. Qed.

End NameChoice.

(** On a vdev without child array [zfs_boot_fix_paths] is its leaf part. *)
Lemma fix_paths_on_leaf names nv :
  nvlist_lookup_nvlist_array nv ZPOOL_CONFIG_CHILDREN = None ->
  zfs_boot_fix_paths names nv =
  match nvlist_lookup_uint64 nv ZPOOL_CONFIG_GUID with
  | None => None
  | Some guid => Some (fix_leaf nv guid names)
  end.
Proof.
  destruct nv as [ps]. unfold nvlist_lookup_nvlist_array. cbn [pairs_of].
  intros Hleaf. cbn [zfs_boot_fix_paths].
  match goal with
  | |- match ?f ps with _ => _ end = _ =>
      assert (Hnone : forall qs,
                 lookup_with
                   (fun v => match v with
                             | V_nvlist_array a => Some a
                             | _ => None
                             end) qs ZPOOL_CONFIG_CHILDREN = None ->
                 f qs = None)
  end.
  { induction qs as [| [n v] r IH]; [ reflexivity | ].
    cbn [lookup_with]. intros H.
    destruct v; try (destruct (String.eqb n ZPOOL_CONFIG_CHILDREN);
                     rewrite (IH H); reflexivity).
    destruct (String.eqb n ZPOOL_CONFIG_CHILDREN); [ discriminate | ].
    rewrite (IH H). reflexivity. }
  rewrite (Hnone ps Hleaf). reflexivity.
Qed.

(** C6.  Path fixup on a leaf vdev that has a guid and a path.  With no
    name entry of that guid the vdev stays as it is.  Otherwise one of the
    entries of that guid is chosen: where some entry's name is exactly the
    current path, the first such entry; where none is, the first entry that
    no other beats on more labels, then lower order.  The name of the
    chosen entry becomes the vdev's path and the vdev is left without
    devid. *)
Theorem fix_paths_leaf_choice :
  forall (names : list name_entry) (nv : nvlist) (guid : Z) (path : string),
    nvlist_lookup_nvlist_array nv ZPOOL_CONFIG_CHILDREN = None ->
    nvlist_lookup_uint64 nv ZPOOL_CONFIG_GUID = Some guid ->
    nvlist_lookup_string nv ZPOOL_CONFIG_PATH = Some path ->
    let cands := candidates guid names in
    (cands = [] -> zfs_boot_fix_paths names nv = Some nv) /\
    (cands <> [] ->
     exists pre chosen post nv',
       cands = pre ++ chosen :: post /\
       zfs_boot_fix_paths names nv = Some nv' /\
       nv' = nvlist_remove_all
               (nvlist_add_string nv ZPOOL_CONFIG_PATH (ne_name chosen))
               ZPOOL_CONFIG_DEVID /\
       nvlist_lookup_string nv' ZPOOL_CONFIG_PATH = Some (ne_name chosen) /\
       nvlist_lookup_string nv' ZPOOL_CONFIG_DEVID = None /\
       ((exists x, In x cands /\ ne_name x = path) ->
        ne_name chosen = path /\
        forall x, In x pre -> ne_name x <> path) /\
       ((forall x, In x cands -> ne_name x <> path) ->
        (forall x, In x pre -> better chosen x) /\
        (forall x, In x post -> ~ better x chosen))).
Proof.
  intros names nv guid path Hleaf Hguid Hpath cands.
  rewrite (fix_paths_on_leaf names nv Hleaf), Hguid.
  unfold fix_leaf. rewrite Hpath, names_walk_candidates. fold cands.
  assert (Hg : forall x, In x cands -> ne_guid x = guid)
    by (intros x; apply candidates_guid).
  split.
  - intros ->. reflexivity.
  - intros Hne.
    assert (Hfacts : forall chosen,
      let nv' := nvlist_remove_all
                   (nvlist_add_string nv ZPOOL_CONFIG_PATH (ne_name chosen))
                   ZPOOL_CONFIG_DEVID in
      nvlist_lookup_string nv' ZPOOL_CONFIG_PATH = Some (ne_name chosen) /\
      nvlist_lookup_string nv' ZPOOL_CONFIG_DEVID = None).
    { intros chosen nv'. split.
      - unfold nv', nvlist_lookup_string.
        rewrite lookup_remove_all_ne by discriminate.
        apply lookup_add_string_eq.
      - apply lookup_remove_all_eq. }
    destruct (first_exact path cands)
      as [(pre & e & post & Hsplit & He & Hpre) | Hnone].
    + exists pre, e, post. eexists. split; [ exact Hsplit | ].
      rewrite Hsplit at 1.
      rewrite names_walk_exact;
        [ | rewrite <- Hsplit; exact Hg | exact Hpre | exact He ].
      cbn [zfs_boot_get_devid]. split; [ reflexivity | ].
      split; [ reflexivity | ].
      destruct (Hfacts e) as [H1 H2].
      split; [ exact H1 | ]. split; [ exact H2 | ].
      split; [ intros _; split; assumption | ].
      intros Hno. exfalso. apply (Hno e); [ | exact He ].
      rewrite Hsplit. apply in_or_app. right. now left.
    + destruct (names_walk_first_best path guid cands Hne Hg Hnone)
        as (pre & r & post & Hsplit & Hwalk & Hpre & Hpost).
      exists pre, r, post. eexists. split; [ exact Hsplit | ].
      rewrite Hwalk. cbn [zfs_boot_get_devid].
      split; [ reflexivity | ]. split; [ reflexivity | ].
      destruct (Hfacts r) as [H1 H2].
      split; [ exact H1 | ]. split; [ exact H2 | ].
      split; [ | intros _; split; assumption ].
      intros (x & Hx & Hxp). exfalso. now apply (Hnone x).
Qed.

Lemma fix_paths_leaf_choice_witness :
  exists nv',
    zfs_boot_fix_paths leaf_names leaf_vdev = Some nv' /\
    nvlist_lookup_string nv' ZPOOL_CONFIG_PATH = Some "/dev/disk3s1"%string /\
    nvlist_lookup_string nv' ZPOOL_CONFIG_DEVID = None.
Proof.
  destruct (fix_paths_leaf_choice leaf_names leaf_vdev 51 "/dev/disk9s1"
              eq_refl eq_refl eq_refl) as [_ H].
  destruct H as (pre & chosen & post & nv' & _ & Hfix & _ & _ & Hdev & _);
    [ discriminate | ].
  exists nv'. split; [ exact Hfix | ]. split; [ | exact Hdev ].
  assert (E : zfs_boot_fix_paths leaf_names leaf_vdev
              = Some (NVL [ (ZPOOL_CONFIG_TYPE, V_string "disk");
                            (ZPOOL_CONFIG_ID, V_uint64 0);
                            (ZPOOL_CONFIG_GUID, V_uint64 51);
                            (ZPOOL_CONFIG_PATH, V_string "/dev/disk3s1") ]))
    by (vm_compute; reflexivity).
  rewrite E in Hfix. injection Hfix as <-. reflexivity.
Defined.

(** ** Boot device *)

(** C7.  What the published boot device reports: block size 512, vendor
    string ZFS, revision 1.0 and the dataset name as product string, as
    claimed; but a block count of 2^30, a maximum valid block of 2^30 - 1
    and a capacity of 512 GiB, where the comment on the constant ("count is
    512 M blocks") and the claim have 2^29 blocks. *)
Theorem boot_device_reports :
  forall (max_len : Z) (dsname : string),
    strlen "invalid" <= max_len -> strlen dsname <= max_len ->
    exists dev,
      publish_bootdev max_len dsname = Some dev /\
      vendorString dev = Some "ZFS"%string /\
      revisionString dev = Some "1.0"%string /\
      productString dev = Some dsname /\
      reportBlockSize dev = 512 /\
      ZFS_BOOT_DEV_BCOUNT = 2 ^ 30 /\
      ZFS_BOOT_DEV_BCOUNT <> 2 ^ 29 /\
      reportMaxValidBlock dev = 2 ^ 30 - 1 /\
      reportMaxValidBlock dev <> 2 ^ 29 - 1 /\
      doGetFormatCapacities dev = 512 * 2 ^ 30.
Proof.
  intros max_len dsname Hinv Hds.
  unfold publish_bootdev, ZFSBootDevice_init, setDatasetName, strnlen.
  cbn [ZFSBootDevice_copy_string].
  replace (Z.min (strlen "invalid") (max_len + 1) >? max_len) with false
    by (symmetry; lia).
  cbn [vendorString productString revisionString additionalString].
  replace (Z.min (strlen dsname) (max_len + 1) >? max_len) with false
    by (symmetry; lia).
  eexists. split; [ reflexivity | ].
  cbn [vendorString productString revisionString additionalString].
  repeat split; try reflexivity; vm_compute; discriminate.
Qed.

Lemma boot_device_reports_witness :
  exists dev,
    publish_bootdev 256 "tank/ROOT" = Some dev /\
    productString dev = Some "tank/ROOT"%string /\
    reportMaxValidBlock dev = 1073741823.
Proof.
  destruct (boot_device_reports 256 "tank/ROOT")
    as (dev & H1 & _ & _ & H2 & _ & _ & _ & H3 & _);
    [ vm_compute; discriminate | vm_compute; discriminate | ].
  exists dev. repeat split; assumption.
Defined.

(** ** Boot arguments and start-up *)

(** C9.  The uptime limit is 7 * 2^33 ns, between 60 s and 61 s.  With an
    uptime at or above it (so whenever the uptime exceeds it),
    [zfs_boot_check_mountroot] returns false and has asked for no boot
    argument, and [zfs_boot_init] leaves no pool list, has registered no
    notifier and dispatched no worker. *)
Theorem late_start_does_nothing :
  forall (env : boot_env) (zfs_hl : bool) (name0 : option string) (guid0 : Z),
    ZFS_BOOT_UPTIME_LIMIT <= env_uptime env ->
    60 * 10 ^ 9 <= ZFS_BOOT_UPTIME_LIMIT < 61 * 10 ^ 9 /\
    zfs_boot_check_mountroot env name0 guid0 = (false, name0, guid0, []) /\
    snd (fst (zfs_boot_init zfs_hl env)) = None /\
    snd (zfs_boot_init zfs_hl env) = [].
Proof.
  intros env zfs_hl name0 guid0 Hup.
  split; [ vm_compute; split; [ discriminate | reflexivity ] | ].
  assert (Hcheck : forall n g,
             zfs_boot_check_mountroot env n g = (false, n, g, [])).
  { intros n g. unfold zfs_boot_check_mountroot.
    replace (env_uptime env >=? ZFS_BOOT_UPTIME_LIMIT) with true
      by (symmetry; lia).
    reflexivity. }
  split; [ apply Hcheck | ].
  unfold zfs_boot_init. rewrite Hcheck.
  destruct zfs_hl; split; reflexivity.
Qed.

Lemma late_start_does_nothing_witness :
  zfs_boot_check_mountroot late_env None 0 = (false, None, 0, []) /\
  zfs_boot_init true late_env = (true, None, []).
Proof.
  assert (Hup : ZFS_BOOT_UPTIME_LIMIT <= env_uptime late_env)
    by (vm_compute; discriminate).
  destruct (late_start_does_nothing late_env true None 0 Hup)
    as (_ & Hcheck & _ & _).
  split; [ exact Hcheck | ].
  unfold zfs_boot_init. rewrite Hcheck. reflexivity.
Defined.

(** ** Device watcher and per-device probe *)

Lemma probe_matched_code pl config :
  probe_matched pl config = true <-> code_matched pl config.
Proof.
  unfold probe_matched, code_matched.
  assert (Hguid :
    (if negb (pool_guid pl =? 0)
     then match nvlist_lookup_uint64 config ZPOOL_CONFIG_POOL_GUID with
          | Some this_guid => pool_guid pl =? this_guid
          | None => false
          end
     else false) = true <->
    pool_guid pl <> 0 /\
    nvlist_lookup_uint64 config ZPOOL_CONFIG_POOL_GUID
    = Some (pool_guid pl)).
  { destruct (Z.eqb_spec (pool_guid pl) 0) as [E | E]; cbn [negb].
    - split; [ discriminate | intros [H _]; contradiction ].
    - destruct (nvlist_lookup_uint64 config ZPOOL_CONFIG_POOL_GUID)
        as [g |].
      + rewrite Z.eqb_eq. split.
        * intros <-. now split.
        * intros [_ [= ->]]. reflexivity.
      + split; [ discriminate | intros [_ H]; discriminate ]. }
  destruct (pool_name pl) as [name |]; [ | exact Hguid ].
  destruct (nvlist_lookup_string config ZPOOL_CONFIG_POOL_NAME)
    as [pname |]; [ | exact Hguid ].
  rewrite same_string_spec. split; congruence.
Qed.

(** C1 (as the source has it).  For a device that is probed while the pool
    list is active and names a pool, and whose labels give a config with a
    label count: the config is matched when it has a pool name and that
    name is the one asked for; the pool guid is compared only when the
    config has no pool name, and then matches when the guid asked for is
    nonzero and equal.  A matched config goes to [zfs_boot_add_config]
    with order 1 and the label count of the device; any other config is
    freed and the pool list stays as it is. *)
Theorem probe_disk_match :
  forall (labelsize : Z) (pl : pool_list) (media : IOMedia) (path : string)
         (config : nvlist) (num_labels : Z),
    terminating pl = ZFS_BOOT_ACTIVE ->
    no_pool_name pl = false ->
    probe_path media = Some path ->
    zfs_boot_read_label labelsize (Some media)
    = (0, Some config, Some num_labels) ->
    num_labels <> 0 ->
    (code_matched pl config ->
     zfs_boot_probe_disk labelsize (Some pl) media
     = {| pd_ret := true;
          pd_pl := Some (ac_pl (zfs_boot_add_config pl path 1 num_labels
                                  config));
          pd_trace := [PeReadLabel (media_id media);
                       PeAddConfig path 1 num_labels config] |}) /\
    (~ code_matched pl config ->
     zfs_boot_probe_disk labelsize (Some pl) media
     = {| pd_ret := true;
          pd_pl := Some pl;
          pd_trace := [PeReadLabel (media_id media);
                       PeFreeConfig config] |}).
Proof.
  intros labelsize pl media path config n Hact Hname Hpath Hread Hn.
  unfold zfs_boot_probe_disk.
  rewrite Hact, Z.eqb_refl, Hname, Hpath, Hread. cbn [negb].
  replace (n =? 0) with false by (symmetry; lia).
  pose proof (probe_matched_code pl config) as Hm.
  destruct (probe_matched pl config); cbn [negb]; split; intros H.
  - reflexivity.
  - exfalso. apply H, Hm. reflexivity.
  - apply Hm in H. discriminate.
  - reflexivity.
Qed.

Lemma probe_disk_match_witness :
  zfs_boot_probe_disk sizeof_vdev_label_t (Some tank_1001)
    (named_media "tank")
  = {| pd_ret := true;
       pd_pl := Some (ac_pl (zfs_boot_add_config tank_1001 "/dev/disk0" 1 4
                               (named_label "tank")));
       pd_trace := [PeReadLabel 1;
                    PeAddConfig "/dev/disk0" 1 4 (named_label "tank")] |}.
Proof.
  assert (Hn : 4 <> 0) by discriminate.
  destruct (probe_disk_match sizeof_vdev_label_t tank_1001
              (named_media "tank") "/dev/disk0" (named_label "tank") 4
              eq_refl eq_refl eq_refl eq_refl Hn) as [H _].
  apply H. reflexivity.
Defined.

(** C1, counterexample.  The pool asked for is "tank" with guid 1001; the
    disk belongs to a pool "pond" with guid 1001.  By the rule of the spec
    the config is matched through its guid; the probe frees it and adds
    nothing. *)
Lemma probe_disk_guid_after_name_mismatch :
  spec_matched tank_1001 (named_label "pond") /\
  nvlist_lookup_string (named_label "pond") ZPOOL_CONFIG_POOL_NAME
  <> pool_name tank_1001 /\
  zfs_boot_read_label sizeof_vdev_label_t (Some (named_media "pond"))
  = (0, Some (named_label "pond"), Some 4) /\
  zfs_boot_probe_disk sizeof_vdev_label_t (Some tank_1001)
    (named_media "pond")
  = {| pd_ret := true;
       pd_pl := Some tank_1001;
       pd_trace := [PeReadLabel 1; PeFreeConfig (named_label "pond")] |}.
Proof.
  split; [ right; split; [ discriminate | reflexivity ] | ].
  split; [ discriminate | ].
  split; vm_compute; reflexivity.
Qed.

(** C10.  With no pool name in the pool list, or an empty one, and whatever
    the pool guid: the arrival callback returns without touching the disk
    set, the probe returns without reading a label, and whatever devices
    arrive and however often the worker takes a turn, no label is read,
    no config is freed or added, and the pools and names stay as they
    were. *)
Theorem no_pool_name_no_probe :
  forall (labelsize mindevsize : Z) (pl : pool_list),
    no_pool_name pl = true ->
    (forall svc,
        zfs_boot_probe_media mindevsize (Some pl) svc
        = {| pm_ret := false; pm_pl := Some pl; pm_signal := false |}) /\
    (forall media,
        zfs_boot_probe_disk labelsize (Some pl) media
        = {| pd_ret := false; pd_pl := Some pl; pd_trace := [] |}) /\
    (forall actions,
        let r := boot_run labelsize mindevsize pl actions in
        snd r = [] /\
        pools (fst r) = pools pl /\ names (fst r) = names pl /\
        (disks pl = [] -> fst r = pl)).
Proof.
  intros labelsize mindevsize pl Hno.
  assert (Hmedia : forall p svc,
    no_pool_name p = true ->
    zfs_boot_probe_media mindevsize (Some p) svc
    = {| pm_ret := false; pm_pl := Some p; pm_signal := false |}).
  { intros p svc Hp. unfold zfs_boot_probe_media. rewrite Hp.
    destruct svc; [ | reflexivity ].
    destruct (negb (terminating p =? ZFS_BOOT_ACTIVE)); reflexivity. }
  assert (Hdisk : forall p media,
    no_pool_name p = true ->
    zfs_boot_probe_disk labelsize (Some p) media
    = {| pd_ret := false; pd_pl := Some p; pd_trace := [] |}).
  { intros p media Hp. unfold zfs_boot_probe_disk. rewrite Hp.
    destruct (negb (terminating p =? ZFS_BOOT_ACTIVE)); reflexivity. }
  split; [ intros svc; now apply Hmedia | ].
  split; [ intros media; now apply Hdisk | ].
  (* a turn of the worker empties the disk set and does nothing else *)
  assert (Hturn : forall p,
    no_pool_name p = true ->
    snd (probe_pending labelsize p) = [] /\
    (fst (probe_pending labelsize p) = p \/
     fst (probe_pending labelsize p) = set_disks p [])).
  { intros p Hp. unfold probe_pending.
    destruct (negb (terminating p =? ZFS_BOOT_ACTIVE));
      [ split; [ reflexivity | now left ] | ].
    destruct (disks p) as [| d ds] eqn:Ed;
      [ split; [ reflexivity | now left ] | ].
    assert (Hfold : forall pending,
      fold_left
        (fun acc media =>
           match pd_pl (zfs_boot_probe_disk labelsize (Some (fst acc))
                          media) with
           | Some pl' =>
               (pl', snd acc
                     ++ pd_trace (zfs_boot_probe_disk labelsize
                                    (Some (fst acc)) media))
           | None => acc
           end) pending (set_disks p [], [])
      = (set_disks p [], [])).
    { induction pending as [| m ms IH]; [ reflexivity | ].
      cbn [fold_left fst snd]. rewrite Hdisk by exact Hp.
      cbn [pd_pl pd_trace app]. exact IH. }
    rewrite Hfold. split; [ reflexivity | now right ]. }
  assert (Hrun : forall actions p,
    no_pool_name p = true ->
    let r := fold_left (boot_step labelsize mindevsize) actions (p, []) in
    snd r = [] /\ pools (fst r) = pools p /\ names (fst r) = names p /\
    (disks p = [] -> fst r = p)).
  { induction actions as [| a actions IH]; intros p Hp.
    - cbn. auto.
    - cbn [fold_left]. destruct a as [svc |].
      + cbn [boot_step fst snd]. rewrite Hmedia by exact Hp.
        cbn [pm_pl]. now apply IH.
      + cbn [boot_step fst snd].
        destruct (Hturn p Hp) as [Htr Hst].
        destruct (probe_pending labelsize p) as [p' tr].
        cbn [fst snd] in *. subst tr. cbn [app].
        destruct Hst as [-> | ->]; [ now apply IH | ].
        destruct (IH (set_disks p []) Hp) as (H1 & H2 & H3 & H4).
        cbv zeta. split; [ exact H1 | ]. split; [ exact H2 | ].
        split; [ exact H3 | ].
        intros Hd. rewrite H4 by reflexivity.
        destruct p; cbn in *. now subst. }
  intros actions. apply Hrun, Hno.
Qed.

Lemma no_pool_name_no_probe_witness :
  let pl := new_pool_list None 1001 in
  boot_run sizeof_vdev_label_t (64 * 2 ^ 20) pl
    [ Arrival (Some {| svc_provider := Some (named_media "tank") |});
      WorkerTurn ]
  = (pl, []).
Proof.
  intros pl.
  destruct (no_pool_name_no_probe sizeof_vdev_label_t (64 * 2 ^ 20) pl
              eq_refl) as (_ & _ & Hrun).
  specialize (Hrun [ Arrival (Some {| svc_provider :=
                                        Some (named_media "tank") |});
                     WorkerTurn ]).
  destruct Hrun as (Htrace & _ & _ & Hsame).
  apply injective_projections; cbn [fst snd];
    [ apply Hsame; reflexivity | exact Htrace ].
Defined.

(** ** Assembling the top-level vdevs of a pool *)

(** *** The best config of a vdev entry *)

Lemma pick_best_fold configs : forall acc t0,
  fold_left pick_best configs (fst acc, or_else (snd acc) t0)
  = (fst (fold_left pick_best configs acc),
     or_else (snd (fold_left pick_best configs acc)) t0).
Proof.
  induction configs as [| ce configs IH]; intros acc t0; [ reflexivity | ].
  cbn [fold_left].
  assert (E : pick_best (fst acc, or_else (snd acc) t0) ce
              = (fst (pick_best acc ce), or_else (snd (pick_best acc ce)) t0)).
  { unfold pick_best. cbn [fst].
    destruct (ce_txg ce >? fst acc); reflexivity. }
  rewrite E. apply IH.
Qed.

(** What [tmp] held before does not matter once a config is found. *)
Lemma best_config_found tmp0 ve txg cfg :
  vdev_best ve = (txg, Some cfg) ->
  best_config tmp0 (ve_configs ve) = (txg, Some cfg).
Proof.
  unfold vdev_best, best_config. intros H.
  pose proof (pick_best_fold (ve_configs ve) (0, None) tmp0) as E.
  cbn [fst snd or_else] in E. rewrite E, H. reflexivity.
Qed.

(** *** The metadata and the pool header *)

Lemma top_metadata_fields st txg cfg :
  child (top_metadata st txg cfg) = child st /\
  children (top_metadata st txg cfg) = children st /\
  config_seen (top_metadata st txg cfg) = config_seen st /\
  max_txg (top_metadata st txg cfg)
  = (if txg >? max_txg st then txg else max_txg st) /\
  hole_array (top_metadata st txg cfg)
  = (if txg >? max_txg st then config_holes cfg else hole_array st) /\
  max_id (top_metadata st txg cfg)
  = (if txg >? max_txg st
     then match nvlist_lookup_uint64 cfg ZPOOL_CONFIG_VDEV_CHILDREN with
          | Some m => m
          | None => 0
          end
     else max_id st) /\
  valid_top_config (top_metadata st txg cfg)
  = (if txg >? max_txg st
     then match nvlist_lookup_uint64 cfg ZPOOL_CONFIG_VDEV_CHILDREN with
          | Some _ => true
          | None => false
          end
     else valid_top_config st).
Proof.
  unfold top_metadata, config_holes.
  destruct (txg >? max_txg st); [ | now repeat split ].
  destruct (nvlist_lookup_uint64 cfg ZPOOL_CONFIG_VDEV_CHILDREN);
    destruct (nvlist_lookup_uint64_array cfg ZPOOL_CONFIG_HOLE_ARRAY);
    now repeat split.
Qed.

Lemma lookup_remove_typed_ne {A} (sel : nvvalue -> option A) is_type
    name other ps :
  name <> other ->
  lookup_with sel (remove_typed is_type other ps) name
  = lookup_with sel ps name.
Proof.
  intros Hne. induction ps as [| [n v] r IH]; [ reflexivity | ].
  cbn [remove_typed lookup_with].
  destruct (String.eqb_spec n other) as [-> | Hn]; cbn [andb].
  - destruct (String.eqb_spec other name) as [E | _]; [ congruence | ].
    destruct (is_type v); [ reflexivity | ].
    cbn [lookup_with].
    destruct (String.eqb_spec other name) as [E | _]; [ congruence | ].
    exact IH.
  - cbn [lookup_with]. destruct (String.eqb n name); [ | exact IH ].
    destruct (sel v); [ reflexivity | exact IH ].
Qed.

Lemma lookup_uint64_add_other nvl name v key :
  key <> name ->
  nvlist_lookup_uint64 (nvlist_add nvl name v) key
  = nvlist_lookup_uint64 nvl key.
Proof. intros H. now apply lookup_add_other. Qed.

Lemma lookup_add_uint64_eq nvl name z :
  nvlist_lookup_uint64 (nvlist_add_uint64 nvl name z) name = Some z.
Proof.
  unfold nvlist_lookup_uint64, nvlist_add_uint64, nvlist_add. simpl.
  rewrite lookup_with_app, lookup_with_other. simpl.
  now rewrite String.eqb_refl.
Qed.

(** The metadata leaves the pool guid of the config alone. *)
Lemma top_metadata_guid st txg cfg :
  nvlist_lookup_uint64 (config (top_metadata st txg cfg))
    ZPOOL_CONFIG_POOL_GUID
  = nvlist_lookup_uint64 (config st) ZPOOL_CONFIG_POOL_GUID.
Proof.
  unfold top_metadata. destruct (txg >? max_txg st); [ | reflexivity ].
  assert (H0 : forall c,
    nvlist_lookup_uint64
      (nvlist_remove
         (nvlist_remove c ZPOOL_CONFIG_VDEV_CHILDREN DATA_TYPE_UINT64)
         ZPOOL_CONFIG_HOLE_ARRAY DATA_TYPE_UINT64_ARRAY)
      ZPOOL_CONFIG_POOL_GUID
    = nvlist_lookup_uint64 c ZPOOL_CONFIG_POOL_GUID).
  { intros c. unfold nvlist_lookup_uint64, nvlist_remove. cbn [pairs_of].
    rewrite !lookup_remove_typed_ne by discriminate. reflexivity. }
  destruct (nvlist_lookup_uint64 cfg ZPOOL_CONFIG_VDEV_CHILDREN);
    destruct (nvlist_lookup_uint64_array cfg ZPOOL_CONFIG_HOLE_ARRAY);
    cbn [config];
    unfold nvlist_add_uint64_array, nvlist_add_uint64;
    rewrite ?lookup_uint64_add_other by discriminate; apply H0.
Qed.

(** A config with the header fields seeds the header, and the header
    then has the pool guid. *)
Lemma header_seed_ok config0 cfg :
  header_ok cfg ->
  exists c,
    header_seed config0 cfg = Some c /\
    is_Some (nvlist_lookup_uint64 c ZPOOL_CONFIG_POOL_GUID).
Proof.
  intros ([version Hv] & [guid Hg] & [name Hn] & [state Hs] & Hhost).
  unfold header_seed. rewrite Hv, Hg, Hn, Hs.
  assert (Hguid : forall c,
    nvlist_lookup_uint64 c ZPOOL_CONFIG_POOL_GUID = Some guid ->
    (forall nm v,
        nm <> ZPOOL_CONFIG_POOL_GUID ->
        nvlist_lookup_uint64 (nvlist_add c nm v) ZPOOL_CONFIG_POOL_GUID
        = Some guid)).
  { intros c Hc nm v Hnm. rewrite lookup_uint64_add_other by congruence.
    exact Hc. }
  set (c2 := nvlist_add_uint64
               (nvlist_add_uint64 config0 ZPOOL_CONFIG_VERSION version)
               ZPOOL_CONFIG_POOL_GUID guid).
  assert (H2 : nvlist_lookup_uint64 c2 ZPOOL_CONFIG_POOL_GUID = Some guid)
    by apply lookup_add_uint64_eq.
  set (c3 := nvlist_add_string c2 ZPOOL_CONFIG_POOL_NAME name).
  assert (H3 : nvlist_lookup_uint64 c3 ZPOOL_CONFIG_POOL_GUID = Some guid)
    by (apply Hguid; [ exact H2 | discriminate ]).
  set (c4 := match nvlist_lookup_uint64 cfg ZPOOL_CONFIG_POOL_TXG with
             | Some pool_txg =>
                 nvlist_add_uint64 c3 ZPOOL_CONFIG_POOL_TXG pool_txg
             | None => c3
             end).
  assert (H4 : nvlist_lookup_uint64 c4 ZPOOL_CONFIG_POOL_GUID = Some guid).
  { subst c4. destruct (nvlist_lookup_uint64 cfg ZPOOL_CONFIG_POOL_TXG);
      [ apply Hguid; [ exact H3 | discriminate ] | exact H3 ]. }
  set (c5 := match nvlist_lookup_string cfg ZPOOL_CONFIG_COMMENT with
             | Some comment =>
                 nvlist_add_string c4 ZPOOL_CONFIG_COMMENT comment
             | None => c4
             end).
  assert (H5 : nvlist_lookup_uint64 c5 ZPOOL_CONFIG_POOL_GUID = Some guid).
  { subst c5. destruct (nvlist_lookup_string cfg ZPOOL_CONFIG_COMMENT);
      [ apply Hguid; [ exact H4 | discriminate ] | exact H4 ]. }
  set (c6 := nvlist_add_uint64 c5 ZPOOL_CONFIG_POOL_STATE state).
  assert (H6 : nvlist_lookup_uint64 c6 ZPOOL_CONFIG_POOL_GUID = Some guid)
    by (apply Hguid; [ exact H5 | discriminate ]).
  destruct (nvlist_lookup_uint64 cfg ZPOOL_CONFIG_HOSTID) as [hostid |].
  - destruct Hhost as [hostname Hh]; [ eauto | ]. rewrite Hh.
    eexists. split; [ reflexivity | ]. exists guid.
    apply Hguid; [ | discriminate ]. apply Hguid; [ exact H6 | discriminate ].
  - exists c6. split; [ reflexivity | now exists guid ].
Qed.

(** *** The memory of a new array *)

Lemma kmem_alloc_slots_length heap n :
  length (kmem_alloc_slots heap n) = Z.to_nat n.
Proof. unfold kmem_alloc_slots. now rewrite length_fmap, length_seq. Qed.

Lemma kmem_alloc_slots_lookup heap n (i : nat) :
  (i < Z.to_nat n)%nat -> kmem_alloc_slots heap n !! i = Some (heap n i).
Proof.
  intros Hi. unfold kmem_alloc_slots.
  rewrite list_lookup_fmap, lookup_seq_lt by exact Hi. reflexivity.
Qed.

Lemma grow_lookup heap slots n (i : nat) :
  (slots ++ drop (length slots) (kmem_alloc_slots heap n)) !! i =
  if decide (i < length slots)%nat then slots !! i
  else if decide (i < Z.to_nat n)%nat then Some (heap n i) else None.
Proof.
  destruct (decide (i < length slots)%nat) as [Hlt | Hge].
  - now rewrite lookup_app_l.
  - rewrite lookup_app_r by lia. rewrite lookup_drop.
    replace (length slots + (i - length slots))%nat with i by lia.
    destruct (decide (i < Z.to_nat n)%nat) as [Hin | Hout].
    + now apply kmem_alloc_slots_lookup.
    + apply lookup_ge_None. rewrite kmem_alloc_slots_length. lia.
Qed.

Lemma grow_length heap slots n :
  length (slots ++ drop (length slots) (kmem_alloc_slots heap n))
  = Nat.max (length slots) (Z.to_nat n).
Proof.
  rewrite length_app, length_drop, kmem_alloc_slots_length. lia.
Qed.

(** *** One turn of the loop *)

Lemma place_length heap slots id nvtop :
  0 <= id ->
  length (place heap slots id nvtop)
  = Nat.max (length slots) (Z.to_nat (id + 1)).
Proof.
  intros Hid. unfold place. rewrite length_insert. apply grow_length.
Qed.

Lemma place_lookup_eq heap slots id nvtop :
  0 <= id -> place heap slots id nvtop !! Z.to_nat id = Some (Some nvtop).
Proof.
  intros Hid. unfold place. apply list_lookup_insert_eq.
  rewrite grow_length. lia.
Qed.

Lemma place_lookup_ne heap slots id nvtop (i : nat) :
  0 <= id -> i <> Z.to_nat id ->
  place heap slots id nvtop !! i =
  if decide (i < length slots)%nat then slots !! i
  else if decide (i < Z.to_nat (id + 1))%nat
       then Some (heap (id + 1) i) else None.
Proof.
  intros Hid Hne. unfold place.
  rewrite list_lookup_insert_ne by congruence. apply grow_lookup.
Qed.

Lemma top_level_step_ok heap st ve txg cfg nvtop id :
  slots_ok st ->
  seeded st \/ (config_seen st = false /\ header_ok cfg) ->
  vdev_best ve = (txg, Some cfg) ->
  nvlist_lookup_nvlist cfg ZPOOL_CONFIG_VDEV_TREE = Some nvtop ->
  nvlist_lookup_uint64 nvtop ZPOOL_CONFIG_ID = Some id ->
  0 <= id < 2 ^ 32 - 1 ->
  exists st',
    top_level_step heap st ve = Some st' /\
    slots_ok st' /\ seeded st' /\
    child st' = place heap (child st) id nvtop /\
    max_txg st' = max_txg (top_metadata st txg cfg) /\
    hole_array st' = hole_array (top_metadata st txg cfg) /\
    max_id st' = max_id (top_metadata st txg cfg) /\
    valid_top_config st' = valid_top_config (top_metadata st txg cfg).
Proof.
  intros [Hlen Hfit] Hhdr Hbest Htree Hid Hrange.
  unfold top_level_step. rewrite (best_config_found _ _ _ _ Hbest).
  destruct (top_metadata_fields st txg cfg) as (Hch2 & Hch1 & Hseen & _).
  pose proof (top_metadata_guid st txg cfg) as Hguid.
  set (st1 := top_metadata st txg cfg) in *.
  assert (Hcfg : exists config1,
    (if config_seen st1 then Some (config st1)
     else header_seed (config st1) cfg) = Some config1 /\
    is_Some (nvlist_lookup_uint64 config1 ZPOOL_CONFIG_POOL_GUID)).
  { rewrite Hseen. destruct Hhdr as [[Hs Hg] | [Hs Hok]]; rewrite Hs.
    - exists (config st1). split; [ reflexivity | now rewrite Hguid ].
    - now apply header_seed_ok. }
  destruct Hcfg as (config1 & -> & Hg1).
  rewrite Htree, Hid.
  assert (Hw : wrap32 (wrap64 (id + 1)) = id + 1).
  { rewrite (wrap64_small (id + 1)) by (unfold is_u64; lia).
    apply wrap32_small. lia. }
  set (grown := child st
                ++ drop (length (child st))
                     (kmem_alloc_slots heap (id + 1))).
  assert (Hgl : length grown
                = Nat.max (length (child st)) (Z.to_nat (id + 1)))
    by apply grow_length.
  assert (Hplace :
    (if id >=? children st1
     then (grow_child heap st1 (wrap64 (id + 1)), wrap32 (wrap64 (id + 1)))
     else (child st1, children st1))
    = (grown, Z.of_nat (length grown))).
  { destruct (Z.geb_spec id (children st1)) as [Hge | Hlt].
    - rewrite Hw. unfold grow_child.
      rewrite Hch1, Hch2, Hlen, Nat2Z.id, firstn_all.
      rewrite (wrap64_small (id + 1)) by (unfold is_u64; lia).
      fold grown. f_equal. lia.
    - rewrite Hch1, Hch2. unfold grown.
      rewrite drop_ge by (rewrite kmem_alloc_slots_length; lia).
      rewrite app_nil_r. f_equal. lia. }
  rewrite Hplace.
  assert (Hin : (id <? Z.of_nat (length grown)) = true)
    by (apply Z.ltb_lt; lia).
  rewrite Hin. eexists. split; [ reflexivity | ].
  cbn [child children max_txg hole_array max_id valid_top_config
         config config_seen].
  unfold slots_ok, seeded.
  cbn [child children config config_seen].
  rewrite length_insert.
  repeat split; try reflexivity; try assumption; lia.
Qed.

(** *** The loop over the vdev entries *)

Lemma vdev_top_inv ve id nvtop :
  vdev_top ve = Some (id, nvtop) ->
  exists txg cfg,
    vdev_best ve = (txg, Some cfg) /\
    nvlist_lookup_nvlist cfg ZPOOL_CONFIG_VDEV_TREE = Some nvtop /\
    nvlist_lookup_uint64 nvtop ZPOOL_CONFIG_ID = Some id.
Proof.
  unfold vdev_top. destruct (vdev_best ve) as [txg [cfg |]] eqn:E;
    cbn [snd]; [ | discriminate ].
  destruct (nvlist_lookup_nvlist cfg ZPOOL_CONFIG_VDEV_TREE) as [t |] eqn:Et;
    [ | discriminate ].
  destruct (nvlist_lookup_uint64 t ZPOOL_CONFIG_ID) as [i |] eqn:Ei;
    [ | discriminate ].
  intros [= <- <-]. now exists txg, cfg.
Qed.

Lemma child_inv_place heap slots done ve id nvtop :
  child_inv heap slots done ->
  vdev_top ve = Some (id, nvtop) -> 0 <= id ->
  child_inv heap (place heap slots id nvtop) (done ++ [ve]).
Proof.
  intros [Hin Hslot] Htop Hid. split.
  - intros v i t Hv Hvt. rewrite place_length by exact Hid.
    apply in_app_or in Hv as [Hv | [<- | []]].
    + pose proof (Hin v i t Hv Hvt). lia.
    + assert (i = id) by congruence. subst i. lia.
  - intros i slot Hi.
    destruct (decide (i = Z.to_nat id)) as [-> | Hne].
    + rewrite place_lookup_eq in Hi by exact Hid. injection Hi as <-.
      left. exists ve, nvtop.
      split; [ apply in_or_app; right; now left | ].
      split; [ now rewrite Z2Nat.id | reflexivity ].
    + rewrite place_lookup_ne in Hi by assumption.
      assert (Hnew : forall t, vdev_top ve <> Some (Z.of_nat i, t)).
      { intros t Hvt. assert (Z.of_nat i = id) by congruence. lia. }
      destruct (decide (i < length slots)%nat) as [Hlt | Hge].
      * destruct (Hslot i slot Hi)
          as [(v & t & Hv & Hvt & Hs) | [Hnone Hleft]].
        -- left. exists v, t.
           split; [ apply in_or_app; now left | now split ].
        -- right. split; [ | exact Hleft ].
           intros v t Hv Hvt.
           apply in_app_or in Hv as [Hv | [<- | []]];
             [ now apply (Hnone v t) | now apply (Hnew t) ].
      * destruct (decide (i < Z.to_nat (id + 1))%nat); [ | discriminate ].
        injection Hi as <-. right. split; [ | now exists (id + 1) ].
        intros v t Hv Hvt.
        apply in_app_or in Hv as [Hv | [<- | []]].
        -- pose proof (Hin v _ t Hv Hvt). lia.
        -- now apply (Hnew t).
Qed.

Lemma top_metadata_same a b txg cfg :
  same_meta a b -> same_meta (top_metadata a txg cfg) (top_metadata b txg cfg).
Proof.
  unfold same_meta. intros (H1 & H2 & H3 & H4).
  destruct (top_metadata_fields a txg cfg) as (_ & _ & _ & A1 & A2 & A3 & A4).
  destruct (top_metadata_fields b txg cfg) as (_ & _ & _ & B1 & B2 & B3 & B4).
  rewrite A1, A2, A3, A4, B1, B2, B3, B4, H1, H2, H3, H4. now repeat split.
Qed.

Lemma meta_step_same a b ve :
  same_meta a b -> same_meta (meta_step a ve) (meta_step b ve).
Proof.
  unfold meta_step. destruct (vdev_best ve) as [txg [cfg |]]; [ | auto ].
  apply top_metadata_same.
Qed.

Lemma fold_meta_step_same vs : forall a b,
  same_meta a b ->
  same_meta (fold_left meta_step vs a) (fold_left meta_step vs b).
Proof.
  induction vs as [| v vs IH]; intros a b H; [ exact H | ].
  cbn [fold_left]. now apply IH, meta_step_same.
Qed.

(** The loop runs through, keeps array and count together, seeds the
    header at the first entry, places every tree at its id, and moves
    the metadata as [meta_step] says. *)
Lemma top_level_loop_runs heap vs : forall st done,
  slots_ok st -> child_inv heap (child st) done -> Forall top_ok vs ->
  seeded st \/ (config_seen st = false /\ first_header_ok vs) ->
  exists st',
    top_level_loop heap st vs = Some st' /\
    slots_ok st' /\
    (seeded st \/ vs <> [] -> seeded st') /\
    child_inv heap (child st') (done ++ vs) /\
    same_meta st' (fold_left meta_step vs st).
Proof.
  induction vs as [| ve vs IH]; intros st done Hok Hinv Hall Hhdr.
  - exists st. rewrite app_nil_r.
    split; [ reflexivity | ]. split; [ exact Hok | ].
    split; [ intros [H | H]; [ exact H | contradiction ] | ].
    split; [ exact Hinv | now repeat split ].
  - inversion Hall as [| ? ? (id & nvtop & Htop & Hid) Hall']; subst.
    destruct (vdev_top_inv ve id nvtop Htop) as (txg & cfg & Hb & Ht & Hi).
    assert (Hhdr1 : seeded st \/ (config_seen st = false /\ header_ok cfg)).
    { destruct Hhdr as [H | [Hs (cfg' & Hc & Hh)]]; [ now left | ].
      right. split; [ exact Hs | ]. rewrite Hb in Hc. cbn [snd] in Hc.
      now injection Hc as ->. }
    destruct (top_level_step_ok heap st ve txg cfg nvtop id Hok Hhdr1 Hb Ht
                Hi Hid)
      as (st1 & Hstep & Hok1 & Hseed1 & Hchild & Hm1 & Hm2 & Hm3 & Hm4).
    assert (Hinv1 : child_inv heap (child st1) (done ++ [ve])).
    { rewrite Hchild. apply child_inv_place; [ exact Hinv | exact Htop | lia ]. }
    destruct (IH st1 (done ++ [ve]) Hok1 Hinv1 Hall' (or_introl Hseed1))
      as (st' & Hloop & Hok' & Hseed' & Hinv' & Hmeta').
    exists st'. cbn [top_level_loop fold_left]. rewrite Hstep.
    split; [ exact Hloop | ]. split; [ exact Hok' | ].
    split; [ intros _; apply Hseed'; now left | ].
    split; [ now rewrite <- app_assoc in Hinv' | ].
    assert (Hs : same_meta st1 (meta_step st ve)).
    { unfold meta_step. rewrite Hb. repeat split; assumption. }
    pose proof (fold_meta_step_same vs _ _ Hs) as Hf.
    unfold same_meta in *. intuition congruence.
Qed.

(** *** Which config the metadata comes from *)

Lemma top_metadata_max st txg cfg :
  max_txg (top_metadata st txg cfg) = Z.max (max_txg st) txg.
Proof.
  destruct (top_metadata_fields st txg cfg) as (_ & _ & _ & -> & _).
  destruct (Z.gtb_spec txg (max_txg st)); lia.
Qed.

Lemma meta_step_max st ve :
  max_txg (meta_step st ve) <= Z.max (max_txg st) (fst (vdev_best ve)).
Proof.
  unfold meta_step. destruct (vdev_best ve) as [txg [cfg |]]; cbn [fst];
    [ rewrite top_metadata_max | ]; lia.
Qed.

Lemma meta_below vs t : forall st,
  (forall v, In v vs -> fst (vdev_best v) < t) ->
  max_txg st < t ->
  max_txg (fold_left meta_step vs st) < t.
Proof.
  induction vs as [| v vs IH]; intros st Hvs Hst; [ exact Hst | ].
  cbn [fold_left]. apply IH.
  - intros w Hw. apply Hvs. now right.
  - pose proof (meta_step_max st v).
    pose proof (Hvs v (or_introl eq_refl)). lia.
Qed.

Lemma meta_kept vs : forall st,
  (forall v, In v vs -> fst (vdev_best v) <= max_txg st) ->
  same_meta (fold_left meta_step vs st) st.
Proof.
  induction vs as [| v vs IH]; intros st Hvs; [ now repeat split | ].
  cbn [fold_left].
  assert (E : meta_step st v = st).
  { unfold meta_step. pose proof (Hvs v (or_introl eq_refl)) as Hle.
    destruct (vdev_best v) as [txg [cfg |]]; [ | reflexivity ].
    cbn [fst] in Hle. unfold top_metadata.
    now replace (txg >? max_txg st) with false by (symmetry; lia). }
  rewrite E. apply IH. intros w Hw. apply Hvs. now right.
Qed.

Lemma meta_of_top before vtop after st txg cfg :
  vdev_best vtop = (txg, Some cfg) ->
  (forall v, In v before -> fst (vdev_best v) < txg) ->
  (forall v, In v after -> fst (vdev_best v) <= txg) ->
  max_txg st < txg ->
  let st' := fold_left meta_step (before ++ vtop :: after) st in
  hole_array st' = config_holes cfg /\
  match nvlist_lookup_uint64 cfg ZPOOL_CONFIG_VDEV_CHILDREN with
  | Some n => valid_top_config st' = true /\ max_id st' = n
  | None => valid_top_config st' = false
  end.
Proof.
  intros Hb Hbefore Hafter Hst st'. subst st'.
  rewrite fold_left_app. cbn [fold_left].
  set (s1 := fold_left meta_step before st).
  assert (H1 : max_txg s1 < txg) by now apply meta_below.
  assert (H2 : meta_step s1 vtop = top_metadata s1 txg cfg)
    by (unfold meta_step; now rewrite Hb).
  rewrite H2.
  assert (H3 : max_txg (top_metadata s1 txg cfg) = txg)
    by (rewrite top_metadata_max; lia).
  destruct (meta_kept after (top_metadata s1 txg cfg)) as (_ & K2 & K3 & K4).
  { intros v Hv. rewrite H3. now apply Hafter. }
  rewrite K2, K3, K4.
  destruct (top_metadata_fields s1 txg cfg)
    as (_ & _ & _ & _ & -> & -> & ->).
  replace (txg >? max_txg s1) with true by (symmetry; lia).
  destruct (nvlist_lookup_uint64 cfg ZPOOL_CONFIG_VDEV_CHILDREN);
    cbn; auto.
Qed.

Lemma pick_best_positive configs : forall acc,
  0 <= fst acc -> (is_Some (snd acc) -> 0 < fst acc) ->
  is_Some (snd (fold_left pick_best configs acc)) ->
  0 < fst (fold_left pick_best configs acc).
Proof.
  induction configs as [| ce configs IH]; intros acc H0 H1 H2;
    [ now apply H1 | ].
  cbn [fold_left] in *. apply IH; [ | | exact H2 ];
    unfold pick_best; destruct (Z.gtb_spec (ce_txg ce) (fst acc));
    cbn [fst snd]; try lia; auto.
Qed.

Lemma vdev_best_positive ve txg cfg :
  vdev_best ve = (txg, Some cfg) -> 0 < txg.
Proof.
  intros H.
  pose proof (pick_best_positive (ve_configs ve) (0, None)) as P.
  unfold vdev_best, best_config in H. rewrite H in P. cbn [fst snd] in P.
  apply P; [ lia | intros [? [=]] | now eexists ].
Qed.

(** *** Cutting, extending and filling the array *)

(** The array cut down or extended to [n] slots: the slots it had stay,
    the new ones are as the allocator left them. *)
Lemma normalize_slots heap st n :
  slots_ok st -> valid_top_config st = true -> max_id st = n ->
  0 <= n < 2 ^ 32 ->
  exists arr,
    normalize_children heap st = (arr, n) /\
    length arr = Z.to_nat n /\
    forall i : nat,
      (i < Z.to_nat n)%nat ->
      arr !! i = if decide (i < length (child st))%nat
                 then child st !! i else Some (heap n i).
Proof.
  intros [Hlen Hfit] Hvalid Hmax Hn. unfold normalize_children.
  rewrite Hvalid, Hmax, (wrap32_small n) by exact Hn.
  destruct (Z.ltb_spec n (children st)) as [Hlt | Hge].
  - exists (take (Z.to_nat n) (child st)). split; [ reflexivity | ].
    split; [ rewrite length_take; lia | ].
    intros i Hi. rewrite lookup_take_lt by exact Hi.
    destruct (decide (i < length (child st))%nat); [ reflexivity | lia ].
  - destruct (Z.gtb_spec n (children st)) as [Hgt | Hle].
    + exists (child st
              ++ drop (length (child st)) (kmem_alloc_slots heap n)).
      split.
      { unfold grow_child. rewrite Hlen, Nat2Z.id, firstn_all.
        reflexivity. }
      split; [ rewrite grow_length; lia | ].
      intros i Hi. rewrite grow_lookup.
      destruct (decide (i < length (child st))%nat); [ reflexivity | ].
      destruct (decide (i < Z.to_nat n)%nat); [ reflexivity | lia ].
    + assert (Hsame : n = children st) by lia.
      exists (child st). split; [ now rewrite Hsame | ].
      split; [ lia | ].
      intros i Hi.
      destruct (decide (i < length (child st))%nat); [ reflexivity | lia ].
Qed.

Lemma for_slots_lookup f n slots (i : nat) slot :
  slots !! i = Some slot -> Z.of_nat i < n ->
  for_slots f n slots !! i = Some (f (Z.of_nat i) slot).
Proof.
  intros Hi Hn. unfold for_slots. rewrite list_lookup_imap, Hi. cbn.
  now replace (Z.of_nat i <? n) with true by (symmetry; lia).
Qed.

Lemma for_slots_length f n slots :
  length (for_slots f n slots) = length slots.
Proof. unfold for_slots. apply length_imap. Qed.

Lemma filled_lookup holes n slots (i : nat) slot :
  slots !! i = Some slot -> Z.of_nat i < n ->
  fill_missing n (fill_holes holes n slots) !! i =
  Some (Some match slot with
             | Some nv => nv
             | None =>
                 if zfs_boot_vdev_is_hole holes (Z.of_nat i)
                 then hole_vdev (Z.of_nat i)
                 else missing_vdev (Z.of_nat i)
             end).
Proof.
  intros Hi Hn. unfold fill_missing, fill_holes.
  destruct (Z.gtb_spec (Z.of_nat (length holes)) 0) as [Hh | Hh].
  - erewrite for_slots_lookup;
      [ | apply for_slots_lookup; eassumption | exact Hn ].
    destruct slot as [nv |]; [ reflexivity | ].
    destruct (zfs_boot_vdev_is_hole holes (Z.of_nat i)); reflexivity.
  - erewrite for_slots_lookup; [ | exact Hi | exact Hn ].
    destruct slot as [nv |]; [ reflexivity | ].
    destruct holes; [ reflexivity | cbn [length] in Hh; lia ].
Qed.

Lemma filled_length holes n slots :
  length (fill_missing n (fill_holes holes n slots)) = length slots.
Proof.
  unfold fill_missing, fill_holes. rewrite for_slots_length.
  destruct (Z.of_nat (length holes) >? 0); [ apply for_slots_length | ].
  reflexivity.
Qed.

Lemma is_hole_In holes c :
  zfs_boot_vdev_is_hole holes c = true <-> In c holes.
Proof.
  unfold zfs_boot_vdev_is_hole. rewrite existsb_exists. split.
  - intros (h & Hin & Heq). apply Z.eqb_eq in Heq. now subst.
  - intros Hin. exists c. split; [ exact Hin | apply Z.eqb_refl ].
Qed.

(** C3 (as the source has it).  For a pool whose vdev entries can all be
    placed, whose first entry can seed the pool header, and whose newest
    best config (the first, in list order, among the best configs of the
    highest txg) carries [vdev_children = n] within the [uint_t] range:
    the child array put into the root vdev has exactly [n] slots, and a
    slot [c] for which some vdev entry has a top-level tree of id [c]
    holds such a tree.  Any other slot is read as the allocator left it,
    because the array is not cleared when it is made or extended: where
    that memory reads as empty, the slot gets the synthetic hole vdev
    [{type: hole, id: c, guid: 0}] when [c] is in the hole array of that
    config and the synthetic missing vdev [{type: missing, id: c,
    guid: 0}] when it is not; where it does not, the slot keeps what the
    memory held and gets neither.  On memory that reads as empty
    throughout, the layout is the one with holes and missing vdevs
    only. *)
Theorem get_configs_children_layout :
  forall (heap : Z -> nat -> option nvlist)
         (prev : top_levels) (pe : pool_entry)
         (before : list vdev_entry) (vtop : vdev_entry)
         (after : list vdev_entry) (txg : Z) (cfg : nvlist) (n : Z),
    pe_vdevs pe = before ++ vtop :: after ->
    Forall top_ok (pe_vdevs pe) ->
    first_header_ok (pe_vdevs pe) ->
    vdev_best vtop = (txg, Some cfg) ->
    (forall v, In v before -> fst (vdev_best v) < txg) ->
    (forall v, In v after -> fst (vdev_best v) <= txg) ->
    nvlist_lookup_uint64 cfg ZPOOL_CONFIG_VDEV_CHILDREN = Some n ->
    0 <= n < 2 ^ 32 ->
    exists arr : list (option nvlist),
      zfs_boot_get_configs_children heap prev pe = Some arr /\
      length arr = Z.to_nat n /\
      (forall c, 0 <= c < n ->
         (exists ve nvtop,
             In ve (pe_vdevs pe) /\ vdev_top ve = Some (c, nvtop) /\
             arr !! Z.to_nat c = Some (Some nvtop)) \/
         ((forall ve nvtop,
              In ve (pe_vdevs pe) -> vdev_top ve <> Some (c, nvtop)) /\
          exists m,
            match heap m (Z.to_nat c) with
            | Some stale => arr !! Z.to_nat c = Some (Some stale)
            | None =>
                (In c (config_holes cfg) /\
                 arr !! Z.to_nat c = Some (Some (hole_vdev c))) \/
                (~ In c (config_holes cfg) /\
                 arr !! Z.to_nat c = Some (Some (missing_vdev c)))
            end)) /\
      ((forall m i, heap m i = None) ->
       forall c, 0 <= c < n ->
         (exists ve nvtop,
             In ve (pe_vdevs pe) /\ vdev_top ve = Some (c, nvtop) /\
             arr !! Z.to_nat c = Some (Some nvtop)) \/
         ((forall ve nvtop,
              In ve (pe_vdevs pe) -> vdev_top ve <> Some (c, nvtop)) /\
          ((In c (config_holes cfg) /\
            arr !! Z.to_nat c = Some (Some (hole_vdev c))) \/
           (~ In c (config_holes cfg) /\
            arr !! Z.to_nat c = Some (Some (missing_vdev c)))))) /\
      (forall c,
         hole_vdev c = NVL [ (ZPOOL_CONFIG_TYPE, V_string VDEV_TYPE_HOLE);
                             (ZPOOL_CONFIG_ID, V_uint64 c);
                             (ZPOOL_CONFIG_GUID, V_uint64 0) ] /\
         missing_vdev c
         = NVL [ (ZPOOL_CONFIG_TYPE, V_string VDEV_TYPE_MISSING);
                 (ZPOOL_CONFIG_ID, V_uint64 c);
                 (ZPOOL_CONFIG_GUID, V_uint64 0) ]).
Proof.
  intros heap prev pe before vtop after txg cfg n Hsplit Hall Hfirst Hbest
    Hbefore Hafter Hn Hrange.
  unfold zfs_boot_get_configs_children.
  set (st0 := {| tmp := tmp prev; max_txg := 0;
                 hole_array := hole_array prev; max_id := max_id prev;
                 valid_top_config := valid_top_config prev;
                 config := nvlist_alloc; config_seen := false;
                 child := []; children := 0 |}).
  assert (Hok0 : slots_ok st0) by (split; cbn; lia).
  assert (Hinv0 : child_inv heap (child st0) []).
  { split; [ intros ve id nvtop [] | ].
    intros i slot Hi. cbn in Hi. discriminate. }
  assert (Hhdr0 : seeded st0 \/ (config_seen st0 = false /\
                                 first_header_ok (pe_vdevs pe)))
    by (right; now split).
  destruct (top_level_loop_runs heap (pe_vdevs pe) st0 [] Hok0 Hinv0 Hall
              Hhdr0)
    as (st & Hloop & Hok & Hseed & Hinv & Hmeta).
  rewrite Hloop. cbn [app] in Hinv.
  assert (Hne : pe_vdevs pe <> []) by (rewrite Hsplit; now destruct before).
  destruct (Hseed (or_intror Hne)) as [_ [guid Hguid]].
  pose proof (vdev_best_positive vtop txg cfg Hbest) as Hpos.
  destruct (meta_of_top before vtop after st0 txg cfg Hbest Hbefore Hafter
              Hpos) as [Hholes Hvalid].
  rewrite Hn, <- Hsplit in *. destruct Hvalid as [Hvalid Hmax].
  destruct Hmeta as (_ & M2 & M3 & M4).
  rewrite <- M2 in Hholes. rewrite <- M3 in Hmax. rewrite <- M4 in Hvalid.
  destruct (normalize_slots heap st n Hok Hvalid Hmax Hrange)
    as (slots & Hnorm & Hlen & Hslots0).
  rewrite Hnorm, Hguid, Hholes.
  exists (take (Z.to_nat n)
            (fill_missing n (fill_holes (config_holes cfg) n slots))).
  split; [ reflexivity | ].
  split; [ rewrite length_take, filled_length; lia | ].
  assert (Hgen : forall c, 0 <= c < n ->
    (exists ve nvtop,
        In ve (pe_vdevs pe) /\ vdev_top ve = Some (c, nvtop) /\
        take (Z.to_nat n)
          (fill_missing n (fill_holes (config_holes cfg) n slots))
        !! Z.to_nat c = Some (Some nvtop)) \/
    ((forall ve nvtop,
         In ve (pe_vdevs pe) -> vdev_top ve <> Some (c, nvtop)) /\
     exists m,
       match heap m (Z.to_nat c) with
       | Some stale =>
           take (Z.to_nat n)
             (fill_missing n (fill_holes (config_holes cfg) n slots))
           !! Z.to_nat c = Some (Some stale)
       | None =>
           (In c (config_holes cfg) /\
            take (Z.to_nat n)
              (fill_missing n (fill_holes (config_holes cfg) n slots))
            !! Z.to_nat c = Some (Some (hole_vdev c))) \/
           (~ In c (config_holes cfg) /\
            take (Z.to_nat n)
              (fill_missing n (fill_holes (config_holes cfg) n slots))
            !! Z.to_nat c = Some (Some (missing_vdev c)))
       end)).
  { intros c Hc.
    assert (Hi : (Z.to_nat c < Z.to_nat n)%nat) by lia.
    destruct (lookup_lt_is_Some_2 slots (Z.to_nat c)) as [slot Hslot];
      [ lia | ].
    rewrite lookup_take_lt by exact Hi.
    rewrite (filled_lookup _ _ _ _ _ Hslot) by lia.
    rewrite Z2Nat.id by lia.
    assert (Hfill : forall m,
      slot = heap m (Z.to_nat c) ->
      match heap m (Z.to_nat c) with
      | Some stale =>
          Some (Some match slot with
                     | Some nv => nv
                     | None =>
                         if zfs_boot_vdev_is_hole (config_holes cfg) c
                         then hole_vdev c else missing_vdev c
                     end) = Some (Some stale)
      | None =>
          (In c (config_holes cfg) /\
           Some (Some match slot with
                      | Some nv => nv
                      | None =>
                          if zfs_boot_vdev_is_hole (config_holes cfg) c
                          then hole_vdev c else missing_vdev c
                      end) = Some (Some (hole_vdev c))) \/
          (~ In c (config_holes cfg) /\
           Some (Some match slot with
                      | Some nv => nv
                      | None =>
                          if zfs_boot_vdev_is_hole (config_holes cfg) c
                          then hole_vdev c else missing_vdev c
                      end) = Some (Some (missing_vdev c)))
      end).
    { intros m ->. destruct (heap m (Z.to_nat c)) as [stale |];
        [ reflexivity | ].
      destruct (zfs_boot_vdev_is_hole (config_holes cfg) c) eqn:E.
      - left. split; [ now apply is_hole_In | reflexivity ].
      - right. split; [ | reflexivity ].
        rewrite <- is_hole_In. congruence. }
    destruct Hinv as [Hids Hslots].
    rewrite (Hslots0 _ Hi) in Hslot.
    destruct (decide (Z.to_nat c < length (child st))%nat) as [Hold | Hnew].
    - destruct (Hslots _ _ Hslot)
        as [(ve & nvtop & Hve & Htop & ->) | [Hnone [m Hm]]].
      + left. exists ve, nvtop. rewrite Z2Nat.id in Htop by lia.
        now repeat split.
      + right. rewrite Z2Nat.id in Hnone by lia.
        split; [ exact Hnone | ]. exists m. now apply Hfill.
    - injection Hslot as Hslot. right. split.
      + intros ve nvtop Hve Htop. pose proof (Hids _ _ _ Hve Htop). lia.
      + exists n. now apply Hfill. }
  split; [ exact Hgen | ].
  split; [ | intros c; split; reflexivity ].
  intros Hzero c Hc.
  destruct (Hgen c Hc) as [H | [Hnone [m Hm]]]; [ now left | ].
  right. split; [ exact Hnone | ].
  now rewrite (Hzero m (Z.to_nat c)) in Hm.
Qed.

(** The pool entry is the one two [zfs_boot_add_config] calls build. *)
Example s5_pool_added :
  pools (add_all (new_pool_list (Some "tank"%string) 0)
           [ {| call_path := "/dev/disk0"; call_order := 1;
                call_num_labels := 4; call_config := s5_label 0 70 |};
             {| call_path := "/dev/disk2"; call_order := 1;
                call_num_labels := 4; call_config := s5_label 2 72 |} ])
  = [ s5_pool ].
Proof. vm_compute. reflexivity. Qed.

Lemma get_configs_children_layout_witness :
  zfs_boot_get_configs_children zeroed_heap top_levels_init s5_pool
  = Some [ Some (s5_tree 0 70); Some (hole_vdev 1); Some (s5_tree 2 72) ].
Proof.
  assert (Hok : Forall top_ok (pe_vdevs s5_pool)).
  { repeat constructor.
    - exists 2, (s5_tree 2 72). split; [ reflexivity | lia ].
    - exists 0, (s5_tree 0 70). split; [ reflexivity | lia ]. }
  assert (Hfirst : first_header_ok (pe_vdevs s5_pool)).
  { exists (s5_label 2 72). split; [ reflexivity | ].
    unfold header_ok. repeat split; try (eexists; reflexivity).
    intros [x Hx]. discriminate Hx. }
  assert (Hbefore : forall v, In v [] -> fst (vdev_best v) < 12)
    by (intros v []).
  assert (Hafter : forall v, In v [s5_vdev 0 70] -> fst (vdev_best v) <= 12).
  { intros v [<- | []]. vm_compute. discriminate. }
  assert (Hrange : 0 <= 3 < 2 ^ 32) by lia.
  destruct (get_configs_children_layout zeroed_heap top_levels_init s5_pool
              [] (s5_vdev 2 72) [s5_vdev 0 70] 12 (s5_label 2 72) 3
              eq_refl Hok Hfirst eq_refl Hbefore Hafter eq_refl Hrange)
    as (arr & Hrun & _).
  rewrite Hrun. vm_compute in Hrun. injection Hrun as <-. reflexivity.
Defined.

(** Scenario S5 on memory in which slot 1 of the new array still holds a
    pointer: the slot is taken for a top-level vdev, and the hole of the
    hole array is not put in. *)
Lemma get_configs_children_stale_slot :
  zfs_boot_get_configs_children stale_heap top_levels_init s5_pool
  = Some [ Some (s5_tree 0 70); Some stale_vdev; Some (s5_tree 2 72) ] /\
  In 1 (config_holes (s5_label 2 72)) /\
  stale_vdev <> hole_vdev 1 /\ stale_vdev <> missing_vdev 1.
Proof.
  split; [ vm_compute; reflexivity | ].
  split; [ now left | ]. split; discriminate.
Qed.

(** ** More on the label codec *)

(** X1.  On a device that holds four labels, the four offsets
    [zfs_boot_read_label] reads at are 0, L, A - 2L and A - L (L the label
    size, A the aligned size); each label lies inside the device and ends
    where the next begins or before. *)
Theorem label_regions_in_bounds :
  forall k size : Z,
    0 <= k < 64 -> is_u64 size -> 4 * 2 ^ k <= size ->
    let labelsize := 2 ^ k in
    let off := zfs_boot_label_offset labelsize (P2ALIGN size labelsize) in
    off 0 = 0 /\ off 1 = labelsize /\
    off 0 + labelsize <= off 1 /\
    off 1 + labelsize <= off 2 /\
    off 2 + labelsize = off 3 /\
    off 3 + labelsize <= size /\
    size - (off 3 + labelsize) < labelsize.
Proof.
  intros k size Hk Hsize Hfit labelsize off.
  pose proof (labelsize_pos k Hk) as Hpos. fold labelsize in Hpos.
  pose proof (aligned_round_down k Hk size Hsize) as Ha.
  fold labelsize in Ha.
  pose proof (aligned_u64 k Hk size Hsize) as Hu. fold labelsize in Hu.
  pose proof (Z.mod_pos_bound size labelsize Hpos) as Hm.
  assert (Hal : 4 * labelsize <= P2ALIGN size labelsize).
  { rewrite Ha. pose proof (Z.div_mod size labelsize) as Hd.
    assert (4 <= size / labelsize)
      by (apply Z.div_le_lower_bound; lia).
    nia. }
  assert (H0 : off 0 = 0)
    by (unfold off, labelsize; rewrite label_offset_front; lia).
  assert (H1 : off 1 = labelsize)
    by (unfold off, labelsize; rewrite label_offset_front; lia).
  assert (H2 : off 2 = P2ALIGN size labelsize - 2 * labelsize).
  { unfold off, labelsize. rewrite label_offset_back by lia.
    fold labelsize. rewrite wrap64_small; unfold is_u64 in *; lia. }
  assert (H3 : off 3 = P2ALIGN size labelsize - labelsize).
  { unfold off, labelsize. rewrite label_offset_back by lia.
    fold labelsize. rewrite wrap64_small; unfold is_u64 in *; lia. }
  rewrite H0, H1, H2, H3. repeat split; lia.
Qed.

Lemma label_regions_in_bounds_witness :
  let off := zfs_boot_label_offset (2 ^ 18)
               (P2ALIGN (64 * 2 ^ 20 + 5) (2 ^ 18)) in
  off 2 + 2 ^ 18 = off 3 /\ off 3 + 2 ^ 18 <= 64 * 2 ^ 20 + 5.
Proof.
  intros off.
  assert (Hk : 0 <= 18 < 64) by lia.
  assert (Hs : is_u64 (64 * 2 ^ 20 + 5)) by (unfold is_u64; lia).
  assert (Hf : 4 * 2 ^ 18 <= 64 * 2 ^ 20 + 5) by lia.
  destruct (label_regions_in_bounds 18 (64 * 2 ^ 20 + 5) Hk Hs Hf)
    as (_ & _ & _ & _ & H2 & H3 & _).
  split; [ exact H2 | exact H3 ].
Defined.

Lemma accepted_among_length labelsize media ls :
  (length (accepted_among labelsize media ls) <= length ls)%nat.
Proof.
  induction ls as [| l ls IH]; cbn [accepted_among length]; [ lia | ].
  destruct (accepted_copy labelsize media l); cbn [length]; lia.
Qed.

Lemma accepted_among_In labelsize media ls guid config :
  In (guid, config) (accepted_among labelsize media ls) ->
  exists l, In l ls /\ accepted_copy labelsize media l = Some (guid, config).
Proof.
  induction ls as [| l ls IH]; cbn [accepted_among]; [ intros [] | ].
  destruct (accepted_copy labelsize media l) as [p |] eqn:E.
  - intros [-> | H].
    + exists l. split; [ now left | exact E ].
    + destruct (IH H) as (l' & Hl & Ha). exists l'. split; [ now right | exact Ha ].
  - intros H. destruct (IH H) as (l' & Hl & Ha).
    exists l'. split; [ now right | exact Ha ].
Qed.

(** X2.  Whatever the device: when [zfs_boot_read_label] fails it gives no
    config and leaves the label count unwritten; when it succeeds the
    count is between 0 and 4, it is 0 exactly when there is no config, and
    a config it gives is that of one of the four copies, accepted. *)
Theorem read_label_count_bounds :
  forall (labelsize : Z) (m : IOMedia),
    match zfs_boot_read_label labelsize (Some m) with
    | (ret, config, None) => ret = -1 /\ config = None
    | (ret, config, Some n) =>
        ret = 0 /\ 0 <= n <= 4 /\ (config = None <-> n = 0) /\
        forall c, config = Some c ->
          exists l guid,
            In l label_indices /\
            accepted_copy labelsize m l = Some (guid, c) /\ guid <> 0
    end.
Proof.
  intros labelsize m. unfold zfs_boot_read_label.
  destruct (media_size m =? 0); [ now split | ].
  destruct (media_open m); cbn [negb]; [ | now split ].
  cbv zeta. rewrite label_loop_consensus by reflexivity.
  pose proof (accepted_among_length labelsize m label_indices) as Hlen.
  pose proof (accepted_among_In labelsize m label_indices) as Hin.
  destruct (accepted_among labelsize m label_indices) as [| [g c] rest].
  - cbn. repeat split; try lia; try reflexivity. intros c [=].
  - cbn [expected_config count label_loop_init List.filter].
    assert (Hg : same_guid g (g, c) = true) by apply Z.eqb_refl.
    rewrite Hg.
    pose proof (filter_length_le (same_guid g) rest) as Hf.
    cbn [length] in *. change (length label_indices) with 4%nat in Hlen.
    split; [ reflexivity | ]. split; [ lia | ].
    split; [ split; [ discriminate | lia ] | ].
    intros c' [= <-]. destruct (Hin g c (or_introl eq_refl)) as (l & Hl & Ha).
    exists l, g. repeat split; try assumption.
    eapply accepted_copy_guid; eassumption.
Qed.

(** X3.  [zfs_boot_read_label] looks at the size of the device, at whether
    it opens, and at what the four label offsets read; two devices that
    agree on these give the same result. *)
Theorem read_label_reads_four_offsets :
  forall (labelsize : Z) (m m' : IOMedia),
    media_size m = media_size m' ->
    media_open m = media_open m' ->
    (forall l, In l label_indices ->
       media_read m (zfs_boot_label_offset labelsize
                       (P2ALIGN (media_size m) labelsize) l)
       = media_read m' (zfs_boot_label_offset labelsize
                          (P2ALIGN (media_size m) labelsize) l)) ->
    zfs_boot_read_label labelsize (Some m)
    = zfs_boot_read_label labelsize (Some m').
Proof.
  intros labelsize m m' Hsize Hopen Hread. unfold zfs_boot_read_label.
  rewrite <- Hsize, <- Hopen.
  destruct (media_size m =? 0); [ reflexivity | ].
  destruct (media_open m); cbn [negb]; [ | reflexivity ].
  cbv zeta.
  assert (Hfold : forall ls st,
    (forall l, In l ls -> In l label_indices) ->
    fold_left (read_label_step labelsize
                 (P2ALIGN (media_size m) labelsize) m) ls st
    = fold_left (read_label_step labelsize
                   (P2ALIGN (media_size m) labelsize) m') ls st).
  { induction ls as [| l ls IH]; intros st Hsub; [ reflexivity | ].
    cbn [fold_left].
    assert (Hstep : read_label_step labelsize
                      (P2ALIGN (media_size m) labelsize) m st l
                    = read_label_step labelsize
                        (P2ALIGN (media_size m) labelsize) m' st l).
    { unfold read_label_step. rewrite Hread by (apply Hsub; now left).
      reflexivity. }
    rewrite Hstep. apply IH. intros l' Hl'. apply Hsub. now right. }
  rewrite Hfold by auto. reflexivity.
Qed.

Lemma read_label_reads_four_offsets_witness :
  zfs_boot_read_label sizeof_vdev_label_t (Some s2_media)
  = zfs_boot_read_label sizeof_vdev_label_t (Some s2_media_noise).
Proof.
  apply read_label_reads_four_offsets; [ reflexivity | reflexivity | ].
  intros l [<- | [<- | [<- | [<- | []]]]]; vm_compute; reflexivity.
Defined.

(** ** Runs of [zfs_boot_add_config] *)

Section KeyedMore.

Context {A : Type}.
Variable key : A -> Z.
Variable k : Z.

Lemma replace_first_new l x y :
  List.find (has_key key k) l = Some x ->
  In y (replace_first (has_key key k) y l).
Proof using Type.
  induction l as [| z r IH]; cbn [List.find replace_first];
    [ discriminate | ].
  destruct (has_key key k z); [ intros _; now left | ].
  intros H. right. now apply IH.
Qed.

Lemma replace_first_from l y z :
  In z (replace_first (has_key key k) y l) -> z = y \/ In z l.
Proof using Type.
  induction l as [| x r IH]; cbn [replace_first]; [ intros [] | ].
  destruct (has_key key k x).
  - intros [<- | H]; [ now left | right; now right ].
  - intros [<- | H]; [ right; now left | ].
    destruct (IH H); [ now left | right; now right ].
Qed.

Lemma replace_first_nonempty l x y :
  List.find (has_key key k) l = Some x ->
  replace_first (has_key key k) y l <> [].
Proof using Type.
  intros H E. pose proof (replace_first_new l x y H) as Hin.
  rewrite E in Hin. destruct Hin.
Qed.

End KeyedMore.

Lemma add_to_vdev_from txg config ve ce :
  In ce (ve_configs (fst (add_to_vdev txg config ve))) ->
  ce = {| ce_txg := txg; ce_config := config |} \/ In ce (ve_configs ve).
Proof.
  unfold add_to_vdev.
  destruct (List.find (is_txg txg) (ve_configs ve)); cbn [fst ve_configs].
  - now right.
  - intros [<- | H]; [ now left | now right ].
Qed.

Lemma add_to_vdev_fresh txg config ve :
  List.find (is_txg txg) (ve_configs ve) = None ->
  add_to_vdev txg config ve
  = ({| ve_guid := ve_guid ve;
        ve_configs := {| ce_txg := txg; ce_config := config |}
                      :: ve_configs ve |}, false).
Proof. unfold add_to_vdev. now intros ->. Qed.

Lemma add_to_vdev_filled txg config ve :
  vdev_filled (fst (add_to_vdev txg config ve)).
Proof.
  unfold add_to_vdev, vdev_filled.
  destruct (List.find (is_txg txg) (ve_configs ve)) as [ce |] eqn:E;
    cbn [fst ve_configs]; [ | discriminate ].
  apply List.find_some in E as [Hin _]. intros H. rewrite H in Hin.
  destruct Hin.
Qed.

Lemma add_to_pool_from top_guid txg config pe ve' ce :
  In ve' (pe_vdevs (fst (add_to_pool top_guid txg config pe))) ->
  In ce (ve_configs ve') ->
  (exists ve, In ve (pe_vdevs pe) /\ ve_guid ve = ve_guid ve' /\
              In ce (ve_configs ve)) \/
  (ce = {| ce_txg := txg; ce_config := config |} /\ ve_guid ve' = top_guid).
Proof.
  unfold add_to_pool. intros Hve Hce.
  destruct (List.find (is_vdev top_guid) (pe_vdevs pe)) as [v |] eqn:E.
  - pose proof (add_to_vdev_guid txg config v) as Hg.
    pose proof (add_to_vdev_from txg config v ce) as Hf.
    destruct (add_to_vdev txg config v) as [v' freed].
    cbn [fst pe_vdevs] in *.
    destruct (find_hit_key ve_guid top_guid _ _ E) as [Hk Hin].
    apply (replace_first_from ve_guid top_guid) in Hve as [-> | Hve].
    + destruct (Hf Hce) as [-> | Hold].
      * right. split; [ reflexivity | congruence ].
      * left. exists v. repeat split; [ exact Hin | congruence | exact Hold ].
    + left. now exists ve'.
  - set (v := {| ve_guid := top_guid; ve_configs := [] |}) in *.
    pose proof (add_to_vdev_guid txg config v) as Hg.
    pose proof (add_to_vdev_from txg config v ce) as Hf.
    assert (Hhit : is_vdev top_guid v = true) by apply Z.eqb_refl.
    destruct (add_to_vdev txg config v) as [v' freed].
    cbn [fst pe_vdevs replace_first] in *. rewrite Hhit in Hve.
    destruct Hve as [<- | Hve].
    + destruct (Hf Hce) as [-> | []]. right. now split.
    + left. now exists ve'.
Qed.

Lemma add_to_pool_filled top_guid txg config pe :
  Forall vdev_filled (pe_vdevs pe) ->
  pool_filled (fst (add_to_pool top_guid txg config pe)).
Proof.
  unfold add_to_pool, pool_filled. intros Hall.
  destruct (List.find (is_vdev top_guid) (pe_vdevs pe)) as [v |] eqn:E.
  - pose proof (add_to_vdev_filled txg config v) as Hf.
    destruct (add_to_vdev txg config v) as [v' freed].
    cbn [fst pe_vdevs] in *. split.
    + apply (replace_first_nonempty ve_guid top_guid _ v). exact E.
    + apply (replace_first_Forall ve_guid top_guid); assumption.
  - set (v := {| ve_guid := top_guid; ve_configs := [] |}) in *.
    pose proof (add_to_vdev_filled txg config v) as Hf.
    assert (Hhit : is_vdev top_guid v = true) by apply Z.eqb_refl.
    destruct (add_to_vdev txg config v) as [v' freed].
    cbn [fst pe_vdevs replace_first] in *. rewrite Hhit.
    split; [ discriminate | now constructor ].
Qed.

Lemma add_to_pools_from pool_guid top_guid txg config ps pe' ve' ce :
  In pe' (fst (add_to_pools pool_guid top_guid txg config ps)) ->
  In ve' (pe_vdevs pe') -> In ce (ve_configs ve') ->
  (exists pe ve,
      In pe ps /\ pe_guid pe = pe_guid pe' /\
      In ve (pe_vdevs pe) /\ ve_guid ve = ve_guid ve' /\
      In ce (ve_configs ve)) \/
  (ce = {| ce_txg := txg; ce_config := config |} /\
   pe_guid pe' = pool_guid /\ ve_guid ve' = top_guid).
Proof.
  unfold add_to_pools. intros Hpe Hve Hce.
  destruct (List.find (is_pool pool_guid) ps) as [p |] eqn:E.
  - pose proof (add_to_pool_guid top_guid txg config p) as Hg.
    pose proof (add_to_pool_from top_guid txg config p ve' ce) as Hf.
    destruct (add_to_pool top_guid txg config p) as [p' freed].
    cbn [fst] in *.
    destruct (find_hit_key pe_guid pool_guid _ _ E) as [Hk Hin].
    apply (replace_first_from pe_guid pool_guid) in Hpe as [-> | Hpe].
    + destruct (Hf Hve Hce) as [(ve & H1 & H2 & H3) | [-> Htg]].
      * left. exists p, ve. repeat split; auto.
      * right. repeat split; [ congruence | exact Htg ].
    + left. exists pe', ve'. repeat split; auto.
  - set (p := {| pe_guid := pool_guid; pe_vdevs := [] |}) in *.
    pose proof (add_to_pool_guid top_guid txg config p) as Hg.
    pose proof (add_to_pool_from top_guid txg config p ve' ce) as Hf.
    assert (Hhit : is_pool pool_guid p = true) by apply Z.eqb_refl.
    destruct (add_to_pool top_guid txg config p) as [p' freed].
    cbn [fst replace_first] in *. rewrite Hhit in Hpe.
    destruct Hpe as [<- | Hpe].
    + destruct (Hf Hve Hce) as [(ve & [] & _) | [-> Htg]].
      right. repeat split; [ exact Hg | exact Htg ].
    + left. exists pe', ve'. repeat split; auto.
Qed.

Lemma add_to_pools_filled pool_guid top_guid txg config ps :
  Forall pool_filled ps ->
  Forall pool_filled (fst (add_to_pools pool_guid top_guid txg config ps)).
Proof.
  unfold add_to_pools. intros Hall.
  destruct (List.find (is_pool pool_guid) ps) as [p |] eqn:E.
  - pose proof (add_to_pool_filled top_guid txg config p) as Hf.
    destruct (add_to_pool top_guid txg config p) as [p' freed].
    cbn [fst] in *.
    destruct (find_hit_key pe_guid pool_guid _ _ E) as [_ Hin].
    apply (replace_first_Forall pe_guid pool_guid); [ exact Hall | ].
    apply Hf. rewrite List.Forall_forall in Hall. now apply Hall.
  - set (p := {| pe_guid := pool_guid; pe_vdevs := [] |}) in *.
    pose proof (add_to_pool_filled top_guid txg config p) as Hf.
    assert (Hhit : is_pool pool_guid p = true) by apply Z.eqb_refl.
    destruct (add_to_pool top_guid txg config p) as [p' freed].
    cbn [fst replace_first] in *. rewrite Hhit.
    constructor; [ apply Hf; constructor | exact Hall ].
Qed.

(** What one call does to the pools and to the names. *)
Lemma add_one_pools pl c :
  pools (add_one pl c) =
  if reaches_tree c then
    match label_identity (call_config c) with
    | Some (pg, _, tg, txg) =>
        fst (add_to_pools pg tg txg (call_config c) (pools pl))
    | None => pools pl
    end
  else pools pl.
Proof.
  unfold add_one, zfs_boot_add_config, reaches_tree.
  destruct (spare_or_l2cache_guid (call_config c)); [ reflexivity | ].
  destruct (label_identity (call_config c)) as [[[[pg vg] tg] txg] |];
    [ | reflexivity ].
  destruct (add_to_pools pg tg txg (call_config c) (pools pl)).
  reflexivity.
Qed.

Lemma add_one_names pl c :
  names (add_one pl c) =
  match name_of_call c with
  | Some ne => ne :: names pl
  | None => names pl
  end.
Proof.
  unfold add_one, zfs_boot_add_config, name_of_call.
  destruct (spare_or_l2cache_guid (call_config c)); [ reflexivity | ].
  destruct (label_identity (call_config c)) as [[[[pg vg] tg] txg] |];
    [ | reflexivity ].
  destruct (add_to_pools pg tg txg (call_config c) (pools pl)).
  reflexivity.
Qed.

Lemma add_all_pools_ext calls : forall pl pl',
  pools pl = pools pl' ->
  pools (add_all pl calls) = pools (add_all pl' calls).
Proof.
  induction calls as [| c calls IH]; intros pl pl' H; [ exact H | ].
  cbn [add_all fold_left]. apply IH.
  rewrite !add_one_pools, H. reflexivity.
Qed.

Lemma add_one_from pl c pg tg ce :
  has_config (add_one pl c) pg tg ce ->
  has_config pl pg tg ce \/
  (reaches_tree c = true /\ ce_config ce = call_config c /\
   exists vg,
     label_identity (call_config c) = Some (pg, vg, tg, ce_txg ce)).
Proof.
  unfold has_config. intros (pe & ve & Hpe & Hpg & Hve & Htg & Hce).
  rewrite add_one_pools in Hpe.
  destruct (reaches_tree c) eqn:Hr; [ | left; now exists pe, ve ].
  destruct (label_identity (call_config c)) as [[[[pg' vg] tg'] txg] |]
    eqn:Hid; [ | left; now exists pe, ve ].
  destruct (add_to_pools_from pg' tg' txg (call_config c) (pools pl)
              pe ve ce Hpe Hve Hce)
    as [(pe0 & ve0 & H1 & H2 & H3 & H4 & H5) | (-> & H1 & H2)].
  - left. exists pe0, ve0. repeat split; auto; congruence.
  - right. split; [ reflexivity | ]. split; [ reflexivity | ].
    exists vg. cbn [ce_txg]. congruence.
Qed.

Lemma add_all_from calls : forall pl pg tg ce,
  has_config (add_all pl calls) pg tg ce ->
  has_config pl pg tg ce \/
  exists c vg,
    In c calls /\ reaches_tree c = true /\
    ce_config ce = call_config c /\
    label_identity (call_config c) = Some (pg, vg, tg, ce_txg ce).
Proof.
  induction calls as [| c calls IH]; intros pl pg tg ce H; [ now left | ].
  cbn [add_all fold_left] in H. apply IH in H as [H | (c' & vg & H1 & H2)].
  - apply add_one_from in H as [H | (Hr & Hc & vg & Hid)]; [ now left | ].
    right. exists c, vg. repeat split; auto. now left.
  - right. exists c', vg. split; [ now right | exact H2 ].
Qed.

Lemma add_one_filled pl c :
  Forall pool_filled (pools pl) -> Forall pool_filled (pools (add_one pl c)).
Proof.
  intros H. rewrite add_one_pools. destruct (reaches_tree c); [ | exact H ].
  destruct (label_identity (call_config c)) as [[[[pg vg] tg] txg] |];
    [ | exact H ].
  now apply add_to_pools_filled.
Qed.

Lemma add_all_filled calls : forall pl,
  Forall pool_filled (pools pl) ->
  Forall pool_filled (pools (add_all pl calls)).
Proof.
  induction calls as [| c calls IH]; intros pl H; [ exact H | ].
  cbn [add_all fold_left]. apply IH. now apply add_one_filled.
Qed.

(** X4.  After any run of [zfs_boot_add_config] calls on a new pool list:
    no two pool entries have the same pool guid, no two vdev entries of a
    pool the same top guid, no pool entry is without vdev entry and no
    vdev entry without config entry. *)
Theorem add_config_tree_shape :
  forall (name : option string) (guid : Z) (calls : list add_call),
    let pl := add_all (new_pool_list name guid) calls in
    List.NoDup (List.map pe_guid (pools pl)) /\
    forall pe, In pe (pools pl) ->
      List.NoDup (List.map ve_guid (pe_vdevs pe)) /\
      pe_vdevs pe <> [] /\
      forall ve, In ve (pe_vdevs pe) -> ve_configs ve <> [].
Proof.
  intros name guid calls pl.
  assert (Hinv : tree_inv pl) by (apply add_all_inv; split; constructor).
  assert (Hfill : Forall pool_filled (pools pl))
    by (apply add_all_filled; constructor).
  destruct Hinv as [Hnd Hall]. split; [ exact Hnd | ].
  intros pe Hpe. rewrite List.Forall_forall in Hall, Hfill.
  destruct (Hall pe Hpe) as [Hnd' _]. destruct (Hfill pe Hpe) as [Hne Hv].
  split; [ exact Hnd' | ]. split; [ exact Hne | ].
  intros ve Hve. rewrite List.Forall_forall in Hv. now apply Hv.
Qed.

(** X5.  After any run of calls on a new pool list, every config entry in
    the tree holds the config of one of the calls, a config that is no
    spare or cache label and whose pool guid, top guid and txg are the
    keys it is filed under; its txg is not 0. *)
Theorem add_config_entries_from_calls :
  forall (name : option string) (guid : Z) (calls : list add_call)
         (pg tg : Z) (ce : config_entry),
    has_config (add_all (new_pool_list name guid) calls) pg tg ce ->
    ce_txg ce <> 0 /\
    exists c vg,
      In c calls /\ ce_config ce = call_config c /\
      spare_or_l2cache_guid (call_config c) = None /\
      label_identity (call_config c) = Some (pg, vg, tg, ce_txg ce).
Proof.
  intros name guid calls pg tg ce H.
  apply add_all_from in H as [(pe & ve & [] & _) | (c & vg & H1 & H2 & H3 & H4)].
  assert (Hsp : spare_or_l2cache_guid (call_config c) = None).
  { unfold reaches_tree in H2.
    destruct (spare_or_l2cache_guid (call_config c)); [ discriminate | ].
    reflexivity. }
  split; [ | exists c, vg; repeat split; assumption ].
  unfold label_identity in H4.
  destruct (nvlist_lookup_uint64 (call_config c) ZPOOL_CONFIG_POOL_GUID);
    [ | discriminate ].
  destruct (nvlist_lookup_uint64 (call_config c) ZPOOL_CONFIG_GUID);
    [ | discriminate ].
  destruct (nvlist_lookup_uint64 (call_config c) ZPOOL_CONFIG_TOP_GUID);
    [ | discriminate ].
  destruct (nvlist_lookup_uint64 (call_config c) ZPOOL_CONFIG_POOL_TXG)
    as [t |]; [ | discriminate ].
  destruct (Z.eqb_spec t 0); [ discriminate | ].
  injection H4 as _ _ _ <-. assumption.
Qed.

Lemma add_config_entries_from_calls_witness :
  let calls := [ {| call_path := "/dev/disk0"; call_order := 1;
                    call_num_labels := 4; call_config := mirror_label 51 |} ]
  in
  exists c vg,
    In c calls /\
    label_identity (call_config c) = Some (1001, vg, 50, 12).
Proof.
  intros calls.
  assert (H : has_config (add_all (new_pool_list None 0) calls) 1001 50
                {| ce_txg := 12; ce_config := mirror_label 51 |}).
  { exists {| pe_guid := 1001;
              pe_vdevs := [ {| ve_guid := 50;
                               ve_configs := [ {| ce_txg := 12;
                                                  ce_config := mirror_label 51
                                               |} ] |} ] |},
           {| ve_guid := 50;
              ve_configs := [ {| ce_txg := 12;
                                 ce_config := mirror_label 51 |} ] |}.
    repeat split; try reflexivity; left; reflexivity. }
  destruct (add_config_entries_from_calls None 0 calls 1001 50 _ H)
    as (_ & c & vg & Hc & _ & _ & Hid).
  exists c, vg. split; [ exact Hc | exact Hid ].
Defined.

Lemma add_to_pools_fresh pool_guid top_guid txg config ps :
  (forall pe ve ce,
      In pe ps -> pe_guid pe = pool_guid ->
      In ve (pe_vdevs pe) -> ve_guid ve = top_guid ->
      In ce (ve_configs ve) -> ce_txg ce <> txg) ->
  snd (add_to_pools pool_guid top_guid txg config ps) = false /\
  exists pe ve,
    In pe (fst (add_to_pools pool_guid top_guid txg config ps)) /\
    pe_guid pe = pool_guid /\
    In ve (pe_vdevs pe) /\ ve_guid ve = top_guid /\
    In {| ce_txg := txg; ce_config := config |} (ve_configs ve).
Proof.
  intros Hfresh. unfold add_to_pools, add_to_pool.
  assert (Hvdev : forall v,
    (forall ce, In ce (ve_configs v) -> ce_txg ce <> txg) ->
    add_to_vdev txg config v
    = ({| ve_guid := ve_guid v;
          ve_configs := {| ce_txg := txg; ce_config := config |}
                        :: ve_configs v |}, false)).
  { intros v Hv. apply add_to_vdev_fresh.
    destruct (List.find (is_txg txg) (ve_configs v)) as [ce |] eqn:E;
      [ | reflexivity ].
    destruct (find_hit_key ce_txg txg _ _ E) as [Hk Hin].
    now destruct (Hv ce Hin). }
  destruct (List.find (is_pool pool_guid) ps) as [p |] eqn:Ep.
  - destruct (find_hit_key pe_guid pool_guid _ _ Ep) as [Hpk Hpin].
    destruct (List.find (is_vdev top_guid) (pe_vdevs p)) as [v |] eqn:Ev.
    + destruct (find_hit_key ve_guid top_guid _ _ Ev) as [Hvk Hvin].
      rewrite Hvdev by (intros ce Hce; now apply (Hfresh p v ce)).
      cbn [fst snd]. split; [ reflexivity | ].
      eexists _, _. split.
      { apply (replace_first_new pe_guid pool_guid _ p). exact Ep. }
      cbn [pe_guid pe_vdevs]. split; [ exact Hpk | ]. split.
      { apply (replace_first_new ve_guid top_guid _ v). exact Ev. }
      cbn [ve_guid ve_configs]. split; [ exact Hvk | now left ].
    + rewrite Hvdev by (intros ce []).
      cbn [fst snd ve_guid ve_configs]. split; [ reflexivity | ].
      eexists _, _. split.
      { apply (replace_first_new pe_guid pool_guid _ p). exact Ep. }
      cbn [pe_guid pe_vdevs replace_first].
      assert (Hhit : is_vdev top_guid
                       {| ve_guid := top_guid; ve_configs := [] |} = true)
        by apply Z.eqb_refl.
      rewrite Hhit. split; [ exact Hpk | ]. split; [ now left | ].
      cbn [ve_guid ve_configs]. split; [ reflexivity | now left ].
  - cbn [pe_vdevs List.find]. rewrite Hvdev by (intros ce []).
    cbn [fst snd ve_guid ve_configs pe_guid replace_first].
    assert (Hhit : is_vdev top_guid
                     {| ve_guid := top_guid; ve_configs := [] |} = true)
      by apply Z.eqb_refl.
    rewrite Hhit.
    assert (Hhit' : is_pool pool_guid
                      {| pe_guid := pool_guid; pe_vdevs := [] |} = true)
      by apply Z.eqb_refl.
    rewrite Hhit'. split; [ reflexivity | ].
    eexists _, _. split; [ now left | ].
    cbn [pe_guid pe_vdevs]. split; [ reflexivity | ].
    split; [ now left | ]. cbn [ve_guid ve_configs].
    split; [ reflexivity | now left ].
Qed.

(** X6.  A config that is no spare or cache label, has its four fields,
    and whose [(pool_guid, top_guid, txg)] has no config entry yet, is
    stored: the call returns 0 without freeing it, afterwards the tree
    holds a config entry with that txg and that very config under its
    keys, and its name entry heads the name list. *)
Theorem add_config_stores_new :
  forall (pl : pool_list) (path : string) (order num_labels : Z)
         (config : nvlist) (pg vg tg txg : Z),
    spare_or_l2cache_guid config = None ->
    label_identity config = Some (pg, vg, tg, txg) ->
    (forall ce, has_config pl pg tg ce -> ce_txg ce <> txg) ->
    let r := zfs_boot_add_config pl path order num_labels config in
    ac_ret r = 0 /\ ac_freed r = false /\
    has_config (ac_pl r) pg tg {| ce_txg := txg; ce_config := config |} /\
    names (ac_pl r) = new_name_entry path vg order num_labels :: names pl.
Proof.
  intros pl path order n config pg vg tg txg Hsp Hid Hfresh r. subst r.
  unfold zfs_boot_add_config. rewrite Hsp, Hid.
  destruct (add_to_pools_fresh pg tg txg config (pools pl))
    as (Hfreed & pe & ve & H1 & H2 & H3 & H4 & H5).
  { intros pe ve ce H1 H2 H3 H4 H5. apply Hfresh. now exists pe, ve. }
  destruct (add_to_pools pg tg txg config (pools pl)) as [ps freed].
  cbn [fst snd] in *. cbn [ac_ret ac_freed ac_pl names]. subst freed.
  repeat split. now exists pe, ve.
Qed.

Lemma add_config_stores_new_witness :
  let pl := new_pool_list (Some "tank"%string) 0 in
  has_config (ac_pl (zfs_boot_add_config pl "/dev/disk0" 1 4
                       (mirror_label 51)))
    1001 50 {| ce_txg := 12; ce_config := mirror_label 51 |}.
Proof.
  intros pl.
  assert (Hfresh : forall ce, has_config pl 1001 50 ce -> ce_txg ce <> 12).
  { intros ce (pe & ve & [] & _). }
  destruct (add_config_stores_new pl "/dev/disk0" 1 4 (mirror_label 51)
              1001 51 50 12 eq_refl eq_refl Hfresh) as (_ & _ & H & _).
  exact H.
Defined.

(** X7.  The pools of the tree do not depend on the calls that stop
    before the search for the pool (spare and cache labels, half
    initialised labels): a run of calls builds the same pools as the run
    without them. *)
Theorem add_config_pools_of_tree_calls :
  forall (calls : list add_call) (pl : pool_list),
    pools (add_all pl calls)
    = pools (add_all pl (List.filter reaches_tree calls)).
Proof.
  induction calls as [| c calls IH]; intros pl; [ reflexivity | ].
  cbn [List.filter]. destruct (reaches_tree c) eqn:Hr.
  - cbn [add_all fold_left]. apply IH.
  - cbn [add_all fold_left]. fold (add_all (add_one pl c) calls).
    rewrite IH. apply add_all_pools_ext.
    rewrite add_one_pools, Hr. reflexivity.
Qed.

Lemma add_all_names calls : forall pl,
  names (add_all pl calls)
  = List.rev (omap name_of_call calls) ++ names pl.
Proof.
  induction calls as [| c calls IH]; intros pl; [ reflexivity | ].
  cbn [add_all fold_left]. fold (add_all (add_one pl c) calls).
  rewrite IH, add_one_names.
  change (omap name_of_call (c :: calls))
    with (match name_of_call c with
          | Some ne => ne :: omap name_of_call calls
          | None => omap name_of_call calls
          end).
  destruct (name_of_call c) as [ne |]; [ | reflexivity ].
  cbn [List.rev]. now rewrite <- app_assoc.
Qed.

(** X8.  The name list after a run of calls on a new pool list is, newest
    first, one entry for every call that was not dropped: the path, order
    and label count of the call with the vdev guid of its config. *)
Theorem add_config_names_of_calls :
  forall (name : option string) (guid : Z) (calls : list add_call),
    names (add_all (new_pool_list name guid) calls)
    = List.rev (omap name_of_call calls).
Proof.
  intros name guid calls. rewrite add_all_names. cbn [names new_pool_list].
  apply app_nil_r.
Qed.

Lemma pick_best_max configs : forall acc,
  let r := fold_left pick_best configs acc in
  fst acc <= fst r /\
  (forall ce, In ce configs -> ce_txg ce <= fst r) /\
  (r = acc \/
   In {| ce_txg := fst r; ce_config := default (NVL []) (snd r) |} configs /\
   is_Some (snd r) /\ fst acc < fst r).
Proof.
  induction configs as [| ce configs IH]; intros acc r; subst r.
  - cbn. split; [ lia | ]. split; [ intros ce [] | now left ].
  - cbn [fold_left].
    destruct (IH (pick_best acc ce)) as (H1 & H2 & H3).
    assert (Hp : pick_best acc ce = acc /\ ce_txg ce <= fst acc \/
                 pick_best acc ce = (ce_txg ce, Some (ce_config ce)) /\
                 fst acc < ce_txg ce).
    { unfold pick_best. destruct (Z.gtb_spec (ce_txg ce) (fst acc));
        [ right | left ]; split; auto; lia. }
    destruct Hp as [[Hp Hle] | [Hp Hlt]]; rewrite Hp in *.
    + split; [ exact H1 | ]. split.
      * intros c [<- | Hc]; [ lia | now apply H2 ].
      * destruct H3 as [H3 | (H3 & H4 & H5)]; [ now left | right ].
        split; [ now right | now split ].
    + cbn [fst] in *. split; [ lia | ]. split.
      * intros c [<- | Hc]; [ lia | now apply H2 ].
      * right. destruct H3 as [-> | (H3 & H4 & H5)].
        -- cbn [fst snd default]. split; [ left; now destruct ce | ].
           split; [ now eexists | lia ].
        -- split; [ now right | ]. split; [ exact H4 | lia ].
Qed.

(** X9.  The inner loop of [zfs_boot_get_configs] picks a config of the
    highest txg: either no config entry of the vdev entry has a txg above
    0 and it picks none, or the txg it ends with is above 0, is that of
    the config it picked, and no config entry has a higher one. *)
Theorem vdev_best_is_newest :
  forall ve : vdev_entry,
    match vdev_best ve with
    | (txg, None) =>
        txg = 0 /\ forall ce, In ce (ve_configs ve) -> ce_txg ce <= 0
    | (txg, Some cfg) =>
        0 < txg /\
        In {| ce_txg := txg; ce_config := cfg |} (ve_configs ve) /\
        forall ce, In ce (ve_configs ve) -> ce_txg ce <= txg
    end.
Proof.
  intros ve. unfold vdev_best, best_config.
  destruct (pick_best_max (ve_configs ve) (0, None)) as (H1 & H2 & H3).
  destruct (fold_left pick_best (ve_configs ve) (0, None)) as [txg [cfg |]];
    cbn [fst snd default] in *.
  - destruct H3 as [[=] | (H3 & _ & H5)]. repeat split; auto.
  - destruct H3 as [[= ->] | (_ & [? [=]] & _)]. split; [ reflexivity | auto ].
Qed.

(** ** More on path fixup *)

Lemma names_walk_no_path guid names : forall best,
  names_walk None guid names best =
  match candidates guid names with
  | c :: _ => Some c
  | [] => best
  end.
Proof.
  induction names as [| ne rest IH]; intros best; [ reflexivity | ].
  cbn [names_walk candidates List.filter].
  destruct (ne_guid ne =? guid); [ reflexivity | apply IH ].
Qed.

(** The leaf part touches the pairs named path and devid and no other. *)
Lemma fix_leaf_other_keys {A} (sel : nvvalue -> option A) nv guid names key :
  key <> ZPOOL_CONFIG_PATH -> key <> ZPOOL_CONFIG_DEVID ->
  lookup_with sel (pairs_of (fix_leaf nv guid names)) key
  = lookup_with sel (pairs_of nv) key.
Proof.
  intros Hp Hd. unfold fix_leaf.
  destruct (names_walk (nvlist_lookup_string nv ZPOOL_CONFIG_PATH) guid
              names None) as [best |]; [ | reflexivity ].
  cbn [zfs_boot_get_devid].
  rewrite lookup_remove_all_ne by exact Hd.
  now apply lookup_add_other.
Qed.

Lemma fix_paths_leaf_other_pairs_aux {A} (sel : nvvalue -> option A)
    names nv nv' key :
  nvlist_lookup_nvlist_array nv ZPOOL_CONFIG_CHILDREN = None ->
  zfs_boot_fix_paths names nv = Some nv' ->
  key <> ZPOOL_CONFIG_PATH -> key <> ZPOOL_CONFIG_DEVID ->
  lookup_with sel (pairs_of nv') key = lookup_with sel (pairs_of nv) key.
Proof.
  intros Hleaf Hfix Hp Hd.
  rewrite (fix_paths_on_leaf names nv Hleaf) in Hfix.
  destruct (nvlist_lookup_uint64 nv ZPOOL_CONFIG_GUID) as [guid |];
    [ | discriminate ].
  injection Hfix as <-. now apply fix_leaf_other_keys.
Qed.

(** X10.  Path fixup on a leaf vdev that has a guid but no path: the
    first name entry of that guid, in list order, gives the path, whatever
    its label count and order, and the devid goes; with no name entry of
    that guid the vdev stays as it is. *)
Theorem fix_paths_leaf_without_path :
  forall (names : list name_entry) (nv : nvlist) (guid : Z),
    nvlist_lookup_nvlist_array nv ZPOOL_CONFIG_CHILDREN = None ->
    nvlist_lookup_uint64 nv ZPOOL_CONFIG_GUID = Some guid ->
    nvlist_lookup_string nv ZPOOL_CONFIG_PATH = None ->
    zfs_boot_fix_paths names nv =
    match candidates guid names with
    | [] => Some nv
    | first :: _ =>
        Some (nvlist_remove_all
                (nvlist_add_string nv ZPOOL_CONFIG_PATH (ne_name first))
                ZPOOL_CONFIG_DEVID)
    end.
Proof.
  intros names nv guid Hleaf Hguid Hpath.
  rewrite (fix_paths_on_leaf names nv Hleaf), Hguid.
  unfold fix_leaf. rewrite Hpath, names_walk_no_path.
  destruct (candidates guid names); reflexivity.
Qed.

Lemma fix_paths_leaf_without_path_witness :
  zfs_boot_fix_paths leaf_names leaf_vdev_no_path
  = Some (NVL [ (ZPOOL_CONFIG_TYPE, V_string "disk");
                (ZPOOL_CONFIG_GUID, V_uint64 51);
                (ZPOOL_CONFIG_PATH, V_string "/dev/disk2s1") ]).
Proof.
  rewrite (fix_paths_leaf_without_path leaf_names leaf_vdev_no_path 51
             eq_refl eq_refl eq_refl).
  reflexivity.
Defined.

(** X11.  Path fixup on a leaf vdev changes the pairs named path and devid
    and nothing else: a lookup of any other name, of whatever type, gives
    after the fixup what it gave before. *)
Theorem fix_paths_leaf_keeps_other_pairs :
  forall (A : Type) (sel : nvvalue -> option A) (names : list name_entry)
         (nv nv' : nvlist) (key : string),
    nvlist_lookup_nvlist_array nv ZPOOL_CONFIG_CHILDREN = None ->
    zfs_boot_fix_paths names nv = Some nv' ->
    key <> ZPOOL_CONFIG_PATH -> key <> ZPOOL_CONFIG_DEVID ->
    lookup_with sel (pairs_of nv') key = lookup_with sel (pairs_of nv) key.
Proof.
  intros A sel names nv nv' key Hleaf Hfix Hp Hd.
  now apply (fix_paths_leaf_other_pairs_aux sel names nv nv').
Qed.

Lemma fix_paths_leaf_keeps_other_pairs_witness :
  zfs_boot_fix_paths leaf_names leaf_vdev = Some leaf_vdev_fixed /\
  nvlist_lookup_uint64 leaf_vdev_fixed ZPOOL_CONFIG_ID
  = nvlist_lookup_uint64 leaf_vdev ZPOOL_CONFIG_ID.
Proof.
  assert (H : zfs_boot_fix_paths leaf_names leaf_vdev = Some leaf_vdev_fixed)
    by (vm_compute; reflexivity).
  split; [ exact H | ].
  apply (fix_paths_leaf_keeps_other_pairs _ _ leaf_names leaf_vdev
           leaf_vdev_fixed ZPOOL_CONFIG_ID eq_refl H);
    discriminate.
Defined.

Lemma filter_other_twice name other (ps : list (string * nvvalue)) :
  List.filter (other_name name)
    (List.filter (other_name other) (List.filter (other_name name) ps))
  = List.filter (other_name other) (List.filter (other_name name) ps).
Proof.
  induction ps as [| p ps IH]; [ reflexivity | ].
  cbn [List.filter]. destruct (other_name name p) eqn:E1; [ | exact IH ].
  cbn [List.filter]. destruct (other_name other p) eqn:E2; [ | exact IH ].
  cbn [List.filter]. rewrite E1. now rewrite IH.
Qed.

Lemma filter_other_idem name (ps : list (string * nvvalue)) :
  List.filter (other_name name) (List.filter (other_name name) ps)
  = List.filter (other_name name) ps.
Proof.
  induction ps as [| p ps IH]; [ reflexivity | ].
  cbn [List.filter]. destruct (other_name name p) eqn:E1; [ | exact IH ].
  cbn [List.filter]. rewrite E1. now rewrite IH.
Qed.

(** Writing the same path again and removing the devid again changes
    nothing. *)
Lemma set_path_twice nv name :
  let nv' := nvlist_remove_all
               (nvlist_add_string nv ZPOOL_CONFIG_PATH name)
               ZPOOL_CONFIG_DEVID in
  nvlist_remove_all (nvlist_add_string nv' ZPOOL_CONFIG_PATH name)
    ZPOOL_CONFIG_DEVID = nv'.
Proof.
  destruct nv as [ps].
  unfold nvlist_remove_all, nvlist_add_string, nvlist_add. cbn [pairs_of].
  cbv zeta. f_equal.
  rewrite !List.filter_app. cbn [List.filter].
  assert (H1 : other_name ZPOOL_CONFIG_DEVID
                 (ZPOOL_CONFIG_PATH, V_string name) = true) by reflexivity.
  assert (H2 : other_name ZPOOL_CONFIG_PATH
                 (ZPOOL_CONFIG_PATH, V_string name) = false) by reflexivity.
  rewrite H1. cbv iota. cbn [List.filter]. rewrite H2. cbv iota.
  cbn [List.filter]. rewrite app_nil_r.
  rewrite (filter_other_twice ZPOOL_CONFIG_PATH ZPOOL_CONFIG_DEVID).
  rewrite filter_other_idem. reflexivity.
Qed.

Lemma names_walk_member path guid names b :
  names_walk path guid names None = Some b ->
  In b (candidates guid names).
Proof.
  destruct path as [p |].
  - rewrite names_walk_candidates. intros Hw.
    assert (Hg : forall x, In x (candidates guid names) -> ne_guid x = guid)
      by (intros x; apply candidates_guid).
    destruct (first_exact p (candidates guid names))
      as [(pre & e & post & Hsplit & He & Hpre) | Hnone].
    + rewrite Hsplit in Hw at 1.
      rewrite names_walk_exact in Hw;
        [ | rewrite <- Hsplit; exact Hg | exact Hpre | exact He ].
      injection Hw as <-. rewrite Hsplit. apply in_or_app. right. now left.
    + destruct (candidates guid names) as [| c cs] eqn:E;
        [ discriminate | ].
      destruct (names_walk_first_best p guid (c :: cs)) as
        (pre & r & post & Hsplit & Hwalk & _); [ discriminate | | | ].
      * exact Hg.
      * exact Hnone.
      * rewrite Hwalk in Hw. injection Hw as <-. rewrite Hsplit.
        apply in_or_app. right. now left.
  - rewrite names_walk_no_path.
    destruct (candidates guid names); [ discriminate | ].
    intros [= <-]. now left.
Qed.

(** Path fixup on a leaf vdev gives a vdev it leaves alone. *)
Lemma fix_leaf_idem (names : list name_entry) (nv nv' : nvlist) :
  nvlist_lookup_nvlist_array nv ZPOOL_CONFIG_CHILDREN = None ->
  zfs_boot_fix_paths names nv = Some nv' ->
  zfs_boot_fix_paths names nv' = Some nv'.
Proof.
  intros Hleaf Hfix.
  pose proof Hfix as Hfix0.
  rewrite (fix_paths_on_leaf names nv Hleaf) in Hfix.
  destruct (nvlist_lookup_uint64 nv ZPOOL_CONFIG_GUID) as [guid |] eqn:Hguid;
    [ | discriminate ].
  injection Hfix as Hnv'. unfold fix_leaf in Hnv'.
  destruct (names_walk (nvlist_lookup_string nv ZPOOL_CONFIG_PATH) guid
              names None) as [b |] eqn:Hwalk;
    [ | now subst nv' ].
  cbn [zfs_boot_get_devid] in Hnv'.
  assert (Hleaf' : nvlist_lookup_nvlist_array nv' ZPOOL_CONFIG_CHILDREN
                   = None).
  { unfold nvlist_lookup_nvlist_array.
    rewrite (fix_paths_leaf_other_pairs_aux _ names nv nv');
      [ assumption | assumption | assumption | discriminate | discriminate ]. }
  assert (Hguid' : nvlist_lookup_uint64 nv' ZPOOL_CONFIG_GUID = Some guid).
  { unfold nvlist_lookup_uint64.
    rewrite (fix_paths_leaf_other_pairs_aux _ names nv nv');
      [ assumption | assumption | assumption | discriminate | discriminate ]. }
  assert (Hpath' : nvlist_lookup_string nv' ZPOOL_CONFIG_PATH
                   = Some (ne_name b)).
  { subst nv'. unfold nvlist_lookup_string.
    rewrite lookup_remove_all_ne by discriminate.
    apply lookup_add_string_eq. }
  rewrite (fix_paths_on_leaf names nv' Hleaf'), Hguid'. f_equal.
  unfold fix_leaf. rewrite Hpath', names_walk_candidates.
  pose proof (names_walk_member _ _ _ _ Hwalk) as Hb.
  assert (Hg : forall x, In x (candidates guid names) -> ne_guid x = guid)
    by (intros x; apply candidates_guid).
  destruct (first_exact (ne_name b) (candidates guid names))
    as [(pre & e & post & Hsplit & He & Hpre) | Hnone];
    [ | now destruct (Hnone b Hb) ].
  rewrite Hsplit at 1.
  rewrite names_walk_exact;
    [ | rewrite <- Hsplit; exact Hg | exact Hpre | exact He ].
  cbn [zfs_boot_get_devid]. rewrite He. subst nv'. apply set_path_twice.
Qed.

(** ** More on the watcher and the probe *)

Lemma nonempty_Some s v : nonempty s = Some v -> s = Some v /\ v <> ""%string.
Proof.
  unfold nonempty. destruct s as [w |]; [ | discriminate ].
  destruct (Z.eqb_spec (strlen w) 0) as [E | E]; [ discriminate | ].
  intros [= ->]. split; [ reflexivity | ].
  intros ->. now apply E.
Qed.

Lemma setObject_keeps ds m d : In d ds -> In d (setObject ds m).
Proof.
  unfold setObject. intros H.
  destruct (existsb (fun d0 => media_id d0 =? media_id m) ds);
    [ exact H | apply in_or_app; now left ].
Qed.

Lemma setObject_from ds m d : In d (setObject ds m) -> In d ds \/ d = m.
Proof.
  unfold setObject.
  destruct (existsb (fun d0 => media_id d0 =? media_id m) ds);
    [ now left | ].
  intros H. apply in_app_or in H as [H | [<- | []]]; auto.
Qed.

Lemma NoDup_snoc (l : list Z) x :
  List.NoDup l -> ~ In x l -> List.NoDup (l ++ [x]).
Proof.
  induction 1 as [| y l Hy Hl IH]; intros Hx; cbn [app].
  - constructor; [ intros [] | constructor ].
  - constructor.
    + intros Hin. apply in_app_or in Hin as [Hin | [<- | []]];
        [ now apply Hy | apply Hx; now left ].
    + apply IH. intros Hin. apply Hx. now right.
Qed.

Lemma setObject_NoDup ds m :
  List.NoDup (List.map media_id ds) ->
  List.NoDup (List.map media_id (setObject ds m)).
Proof.
  unfold setObject. intros H.
  destruct (existsb (fun d0 => media_id d0 =? media_id m) ds) eqn:E;
    [ exact H | ].
  rewrite List.map_app. cbn [List.map]. apply NoDup_snoc; [ exact H | ].
  intros Hin. apply in_map_iff in Hin as (d & Hd & Hin).
  assert (existsb (fun d0 => media_id d0 =? media_id m) ds = true).
  { apply existsb_exists. exists d. split; [ exact Hin | ]. lia. }
  congruence.
Qed.

Lemma setObject_has ds m :
  exists d, In d (setObject ds m) /\ media_id d = media_id m.
Proof.
  unfold setObject.
  destruct (existsb (fun d0 => media_id d0 =? media_id m) ds) eqn:E.
  - apply existsb_exists in E as (d & Hd & Heq). exists d.
    split; [ exact Hd | lia ].
  - exists m. split; [ apply in_or_app; right; now left | reflexivity ].
Qed.

(** X13.  The arrival callback leaves the pools, the names, the pool name
    and guid and the flag as they are, and no device leaves the disk set.
    The only device that can enter it is the one arriving, and only when
    it has the [Leaf] property, a size of at least [SPA_MINDEVSIZE] and a
    BSD name, while the pool list is active and names a pool.  The value
    of the [Leaf] property is not looked at: every such device is in the
    disk set afterwards (itself, or the member of its identity that was
    there), a whole disk, whose [Leaf] is false, like any other.  A disk
    set without two devices of one identity stays so. *)
Theorem probe_media_disk_set :
  forall (mindevsize : Z) (pl : pool_list) (newService : option IOService),
    exists pl',
      pm_pl (zfs_boot_probe_media mindevsize (Some pl) newService)
      = Some pl' /\
      pools pl' = pools pl /\ names pl' = names pl /\
      pool_name pl' = pool_name pl /\ pool_guid pl' = pool_guid pl /\
      terminating pl' = terminating pl /\
      (forall d, In d (disks pl) -> In d (disks pl')) /\
      (forall d, In d (disks pl') -> ~ In d (disks pl) ->
         terminating pl = ZFS_BOOT_ACTIVE /\ no_pool_name pl = false /\
         eligible mindevsize d /\
         exists svc, newService = Some svc /\ svc_provider svc = Some d) /\
      (forall svc d,
         newService = Some svc -> svc_provider svc = Some d ->
         terminating pl = ZFS_BOOT_ACTIVE -> no_pool_name pl = false ->
         eligible mindevsize d ->
         exists d', In d' (disks pl') /\ media_id d' = media_id d) /\
      (List.NoDup (List.map media_id (disks pl)) ->
       List.NoDup (List.map media_id (disks pl'))).
Proof.
  intros mindevsize pl newService. unfold zfs_boot_probe_media.
  destruct newService as [svc |].
  2:{ exists pl. do 6 (split; [ reflexivity | ]). split; [ auto | ].
      split; [ intros d H1 H2; contradiction | ].
      split; [ intros svc d [=] | auto ]. }
  destruct (Z.eqb_spec (terminating pl) ZFS_BOOT_ACTIVE) as [Hact | Hact];
    cbn [negb].
  2:{ exists pl. do 6 (split; [ reflexivity | ]). split; [ auto | ].
      split; [ intros d H1 H2; contradiction | ].
      split; [ intros s d _ _ H; contradiction | auto ]. }
  destruct (no_pool_name pl) eqn:Hname.
  { exists pl. do 6 (split; [ reflexivity | ]). split; [ auto | ].
    split; [ intros d H1 H2; contradiction | ].
    split; [ intros s d _ _ _ H; discriminate | auto ]. }
  destruct (svc_provider svc) as [media |] eqn:Hprov.
  2:{ exists pl. do 6 (split; [ reflexivity | ]). split; [ auto | ].
      split; [ intros d H1 H2; contradiction | ].
      split; [ intros s d [= <-] H; congruence | auto ]. }
  assert (Hskip :
    ~ eligible mindevsize media ->
    exists pl',
      Some pl = Some pl' /\
      pools pl' = pools pl /\ names pl' = names pl /\
      pool_name pl' = pool_name pl /\ pool_guid pl' = pool_guid pl /\
      terminating pl' = terminating pl /\
      (forall d, In d (disks pl) -> In d (disks pl')) /\
      (forall d, In d (disks pl') -> ~ In d (disks pl) ->
         terminating pl = ZFS_BOOT_ACTIVE /\ false = false /\
         eligible mindevsize d /\
         exists svc0, Some svc = Some svc0 /\ svc_provider svc0 = Some d) /\
      (forall svc0 d,
         Some svc = Some svc0 -> svc_provider svc0 = Some d ->
         terminating pl = ZFS_BOOT_ACTIVE -> false = false ->
         eligible mindevsize d ->
         exists d', In d' (disks pl') /\ media_id d' = media_id d) /\
      (List.NoDup (List.map media_id (disks pl)) ->
       List.NoDup (List.map media_id (disks pl')))).
  { intros Hno. exists pl. do 6 (split; [ reflexivity | ]).
    split; [ auto | ]. split; [ intros d H1 H2; contradiction | ].
    split; [ | auto ].
    intros s d [= <-] Hd _ _ He. exfalso. apply Hno.
    rewrite Hprov in Hd. now injection Hd as ->. }
  destruct (media_leaf media) as [leaf |] eqn:Hleaf.
  2:{ apply Hskip. intros ([x Hx] & _). congruence. }
  destruct (Z.ltb_spec (media_size media) mindevsize) as [Hsz | Hsz].
  { apply Hskip. intros (_ & H & _). lia. }
  destruct (nonempty (media_bsd_name media)) as [bsd |] eqn:Hbsd.
  2:{ apply Hskip. intros (_ & _ & b & Hb & Hne). unfold nonempty in Hbsd.
      rewrite Hb in Hbsd. destruct b; [ now apply Hne | discriminate ]. }
  apply nonempty_Some in Hbsd as [Hbsd Hne].
  exists (set_disks pl (setObject (disks pl) media)).
  cbn [pm_pl set_disks pools names pool_name pool_guid terminating disks].
  do 6 (split; [ reflexivity | ]).
  split; [ intros d Hd; now apply setObject_keeps | ].
  split; [ | split; [ | apply setObject_NoDup ] ].
  - intros d Hd Hnew. apply setObject_from in Hd as [Hd | ->];
      [ contradiction | ].
    split; [ exact Hact | ]. split; [ reflexivity | ].
    split; [ | now exists svc ].
    split; [ now exists leaf | ]. split; [ exact Hsz | now exists bsd ].
  - intros s d [= <-] Hd _ _ _. rewrite Hprov in Hd. injection Hd as <-.
    apply setObject_has.
Qed.

Lemma probe_media_stopped mindevsize pl svc :
  terminating pl <> ZFS_BOOT_ACTIVE ->
  zfs_boot_probe_media mindevsize (Some pl) svc
  = {| pm_ret := false; pm_pl := Some pl; pm_signal := false |}.
Proof.
  intros H. unfold zfs_boot_probe_media. destruct svc; [ | reflexivity ].
  destruct (Z.eqb_spec (terminating pl) ZFS_BOOT_ACTIVE);
    [ contradiction | reflexivity ].
Qed.

Lemma probe_disk_stopped labelsize pl media :
  terminating pl <> ZFS_BOOT_ACTIVE ->
  zfs_boot_probe_disk labelsize (Some pl) media
  = {| pd_ret := false; pd_pl := Some pl; pd_trace := [] |}.
Proof.
  intros H. unfold zfs_boot_probe_disk.
  destruct (Z.eqb_spec (terminating pl) ZFS_BOOT_ACTIVE);
    [ contradiction | reflexivity ].
Qed.

(** X14.  [zfs_boot_fini] sets the flag of an active pool list to
    terminating and leaves a pool list that is not active as it is; the
    pools, the names, the disk set, the pool name and the pool guid are
    not touched, and a second [zfs_boot_fini] changes nothing more.
    After it the arrival callback returns false for every service without
    touching the disk set, the probe returns false for every disk
    without reading a label, and the worker, at its next turn, leaves its
    loop and calls [zfs_boot_free]: every config of the tree and every
    name is freed and no pool list is left. *)
Theorem fini_stops_watcher_and_probe :
  forall (labelsize mindevsize : Z) (pl : pool_list),
    exists pl',
      zfs_boot_fini (Some pl) = Some pl' /\
      (terminating pl = ZFS_BOOT_ACTIVE ->
       terminating pl' = ZFS_BOOT_TERMINATING) /\
      (terminating pl <> ZFS_BOOT_ACTIVE -> pl' = pl) /\
      terminating pl' <> ZFS_BOOT_ACTIVE /\
      pools pl' = pools pl /\ names pl' = names pl /\
      disks pl' = disks pl /\
      pool_name pl' = pool_name pl /\ pool_guid pl' = pool_guid pl /\
      zfs_boot_fini (Some pl') = Some pl' /\
      (forall svc,
          zfs_boot_probe_media mindevsize (Some pl') svc
          = {| pm_ret := false; pm_pl := Some pl'; pm_signal := false |}) /\
      (forall media,
          zfs_boot_probe_disk labelsize (Some pl') media
          = {| pd_ret := false; pd_pl := Some pl'; pd_trace := [] |}) /\
      import_thread_turn labelsize pl'
      = WorkerLeft None (tree_configs (pools pl))
          (List.map ne_name (names pl)).
Proof.
  intros labelsize mindevsize pl.
  assert (Hafter : forall pl',
    terminating pl' <> ZFS_BOOT_ACTIVE ->
    pools pl' = pools pl -> names pl' = names pl ->
    zfs_boot_fini (Some pl') = Some pl' /\
    (forall svc,
        zfs_boot_probe_media mindevsize (Some pl') svc
        = {| pm_ret := false; pm_pl := Some pl'; pm_signal := false |}) /\
    (forall media,
        zfs_boot_probe_disk labelsize (Some pl') media
        = {| pd_ret := false; pd_pl := Some pl'; pd_trace := [] |}) /\
    import_thread_turn labelsize pl'
    = WorkerLeft None (tree_configs (pools pl))
        (List.map ne_name (names pl))).
  { intros pl' Hterm Hpools Hnames.
    split.
    { unfold zfs_boot_fini.
      destruct (Z.eqb_spec (terminating pl') ZFS_BOOT_ACTIVE);
        [ contradiction | reflexivity ]. }
    split; [ intros svc; now apply probe_media_stopped | ].
    split; [ intros media; now apply probe_disk_stopped | ].
    unfold import_thread_turn.
    destruct (Z.eqb_spec (terminating pl') ZFS_BOOT_ACTIVE);
      [ contradiction | ].
    cbn [negb zfs_boot_free]. now rewrite Hpools, Hnames. }
  unfold zfs_boot_fini at 1.
  destruct (Z.eqb_spec (terminating pl) ZFS_BOOT_ACTIVE) as [Hact | Hact].
  - exists (set_terminating pl ZFS_BOOT_TERMINATING).
    split; [ reflexivity | ].
    split; [ intros _; reflexivity | ].
    split; [ intros H; contradiction | ].
    split; [ discriminate | ].
    do 5 (split; [ reflexivity | ]).
    apply Hafter; [ discriminate | reflexivity | reflexivity ].
  - exists pl. split; [ reflexivity | ].
    split; [ intros H; contradiction | ].
    split; [ reflexivity | ]. split; [ exact Hact | ].
    do 5 (split; [ reflexivity | ]).
    now apply Hafter.
Qed.

Lemma read_label_count_range labelsize m config n :
  zfs_boot_read_label labelsize (Some m) = (0, Some config, Some n) ->
  1 <= n <= 4.
Proof.
  unfold zfs_boot_read_label.
  destruct (media_size m =? 0); [ discriminate | ].
  destruct (media_open m); cbn [negb]; [ | discriminate ].
  cbv zeta. rewrite label_loop_consensus by reflexivity.
  pose proof (accepted_among_length labelsize m label_indices) as Hlen.
  destruct (accepted_among labelsize m label_indices) as [| [g c] rest];
    [ discriminate | ].
  cbn [expected_config count label_loop_init List.filter].
  assert (Hg : same_guid g (g, c) = true) by apply Z.eqb_refl.
  rewrite Hg. pose proof (filter_length_le (same_guid g) rest) as Hf.
  cbn [length] in *. change (length label_indices) with 4%nat in Hlen.
  intros [= _ <-]. lia.
Qed.

Lemma probe_path_shape media path :
  probe_path media = Some path ->
  exists s, s <> ""%string /\
    (path = (by_id_prefix ++ s)%string \/ path = ("/dev/" ++ s)%string).
Proof.
  unfold probe_path.
  destruct (nonempty (media_uuid media)) as [uuid |] eqn:Eu.
  - intros [= <-]. apply nonempty_Some in Eu as [_ Hne].
    exists uuid. split; [ exact Hne | now left ].
  - destruct (nonempty (media_bsd_name media)) as [bsd |] eqn:Eb;
      [ | discriminate ].
    intros [= <-]. apply nonempty_Some in Eb as [_ Hne].
    exists bsd. split; [ exact Hne | now right ].
Qed.

(** What a probe of one disk comes to: nothing, or one call of
    [zfs_boot_add_config] for a matched config. *)
Lemma probe_disk_cases labelsize pl media :
  pd_pl (zfs_boot_probe_disk labelsize (Some pl) media) = Some pl \/
  exists path config n,
    probe_path media = Some path /\ 1 <= n <= 4 /\
    probe_matched pl config = true /\
    pd_pl (zfs_boot_probe_disk labelsize (Some pl) media)
    = Some (add_one pl {| call_path := path; call_order := 1;
                          call_num_labels := n; call_config := config |}).
Proof.
  unfold zfs_boot_probe_disk.
  destruct (negb (terminating pl =? ZFS_BOOT_ACTIVE)); [ now left | ].
  destruct (no_pool_name pl); [ now left | ].
  destruct (probe_path media) as [path |] eqn:Hpath; [ | now left ].
  destruct (zfs_boot_read_label labelsize (Some media))
    as [[ret config] num] eqn:Hread.
  destruct ret as [| p | p]; try now left.
  destruct config as [config |]; [ | now left ].
  destruct num as [n |]; [ | now left ].
  destruct (Z.eqb_spec n 0); [ now left | ].
  destruct (probe_matched pl config) eqn:Hm; cbn [negb]; [ | now left ].
  right. exists path, config, n. split; [ reflexivity | ].
  split; [ eapply read_label_count_range; eassumption | ].
  split; [ exact Hm | reflexivity ].
Qed.

Lemma probe_matched_ext pl pl' config :
  pool_name pl = pool_name pl' -> pool_guid pl = pool_guid pl' ->
  probe_matched pl config = probe_matched pl' config.
Proof. unfold probe_matched. now intros -> ->. Qed.

Lemma add_one_frame pl c :
  pool_name (add_one pl c) = pool_name pl /\
  pool_guid (add_one pl c) = pool_guid pl /\
  disks (add_one pl c) = disks pl /\
  terminating (add_one pl c) = terminating pl.
Proof.
  unfold add_one, zfs_boot_add_config.
  destruct (spare_or_l2cache_guid (call_config c)); [ now repeat split | ].
  destruct (label_identity (call_config c)) as [[[[pg vg] tg] txg] |];
    [ | now repeat split ].
  destruct (add_to_pools pg tg txg (call_config c) (pools pl)).
  now repeat split.
Qed.

Lemma name_of_call_probe c ne :
  name_of_call c = Some ne ->
  call_order c = 1 -> 1 <= call_num_labels c <= 4 ->
  (exists s, s <> ""%string /\
     (call_path c = (by_id_prefix ++ s)%string \/
      call_path c = ("/dev/" ++ s)%string)) ->
  probe_name ne.
Proof.
  intros Hne Ho Hn Hp.
  assert (E : exists vg, ne = new_name_entry (call_path c) vg
                                (call_order c) (call_num_labels c)).
  { unfold name_of_call in Hne.
    destruct (spare_or_l2cache_guid (call_config c)) as [vg |].
    - injection Hne as <-. now exists vg.
    - destruct (label_identity (call_config c)) as [[[[pg vg] tg] txg] |];
        [ | discriminate ].
      injection Hne as <-. now exists vg. }
  destruct E as [vg ->]. unfold probe_name, new_name_entry.
  cbn [ne_order ne_num_labels ne_name]. rewrite Ho.
  rewrite (wrap64_small (call_num_labels c)) by (unfold is_u64; lia).
  split; [ reflexivity | ]. split; [ exact Hn | exact Hp ].
Qed.

Lemma probe_inv_add name guid pl c :
  probe_inv name guid pl ->
  call_order c = 1 -> 1 <= call_num_labels c <= 4 ->
  (exists s, s <> ""%string /\
     (call_path c = (by_id_prefix ++ s)%string \/
      call_path c = ("/dev/" ++ s)%string)) ->
  probe_matched pl (call_config c) = true ->
  probe_inv name guid (add_one pl c).
Proof.
  intros (Hn & Hg & Hnames & Htree & Hnd) Ho Hl Hp Hm.
  destruct (add_one_frame pl c) as (F1 & F2 & F3 & F4).
  unfold probe_inv. rewrite F1, F2, F3.
  split; [ exact Hn | ]. split; [ exact Hg | ]. split; [ | split ].
  - rewrite add_one_names.
    destruct (name_of_call c) as [ne |] eqn:E; [ | exact Hnames ].
    constructor; [ | exact Hnames ].
    now apply (name_of_call_probe c).
  - intros pg tg ce H.
    rewrite (probe_matched_ext (add_one pl c) pl) by assumption.
    apply add_one_from in H as [H | (_ & Hc & _)];
      [ now apply (Htree pg tg) | now rewrite Hc ].
  - exact Hnd.
Qed.

Lemma probe_inv_disks name guid pl ds :
  probe_inv name guid pl ->
  List.NoDup (List.map media_id ds) ->
  probe_inv name guid (set_disks pl ds).
Proof.
  intros (Hn & Hg & Hnames & Htree & _) Hnd.
  unfold probe_inv. cbn [set_disks pool_name pool_guid names disks].
  repeat split; assumption.
Qed.

Lemma probe_inv_disk labelsize name guid pl media pl' :
  probe_inv name guid pl ->
  pd_pl (zfs_boot_probe_disk labelsize (Some pl) media) = Some pl' ->
  probe_inv name guid pl'.
Proof.
  intros Hinv Hpd.
  destruct (probe_disk_cases labelsize pl media)
    as [H | (path & config & n & Hpath & Hn & Hm & H)];
    rewrite H in Hpd; injection Hpd as <-; [ exact Hinv | ].
  apply probe_inv_add; cbn [call_order call_num_labels call_path call_config];
    try assumption; try reflexivity.
  now apply (probe_path_shape media).
Qed.

Lemma probe_inv_pending labelsize name guid pl :
  probe_inv name guid pl ->
  probe_inv name guid (fst (probe_pending labelsize pl)).
Proof.
  intros Hinv. unfold probe_pending.
  destruct (negb (terminating pl =? ZFS_BOOT_ACTIVE)); [ exact Hinv | ].
  destruct (disks pl) as [| d ds] eqn:Ed; [ exact Hinv | ].
  assert (Hfold : forall pending acc,
    probe_inv name guid (fst acc) ->
    probe_inv name guid
      (fst (fold_left
              (fun acc media =>
                 match pd_pl (zfs_boot_probe_disk labelsize
                                (Some (fst acc)) media) with
                 | Some pl' =>
                     (pl', snd acc
                           ++ pd_trace (zfs_boot_probe_disk labelsize
                                          (Some (fst acc)) media))
                 | None => acc
                 end) pending acc))).
  { induction pending as [| m ms IH]; intros acc Hacc; [ exact Hacc | ].
    cbn [fold_left]. apply IH.
    destruct (pd_pl (zfs_boot_probe_disk labelsize (Some (fst acc)) m))
      as [pl' |] eqn:E; [ | exact Hacc ].
    cbn [fst]. now apply (probe_inv_disk labelsize name guid (fst acc) m). }
  apply Hfold. cbn [fst]. apply probe_inv_disks; [ exact Hinv | constructor ].
Qed.

Lemma probe_inv_media mindevsize name guid pl svc pl' :
  probe_inv name guid pl ->
  pm_pl (zfs_boot_probe_media mindevsize (Some pl) svc) = Some pl' ->
  probe_inv name guid pl'.
Proof.
  intros Hinv. unfold zfs_boot_probe_media.
  destruct svc as [s |]; [ | now intros [= <-] ].
  destruct (negb (terminating pl =? ZFS_BOOT_ACTIVE)); [ now intros [= <-] | ].
  destruct (no_pool_name pl); [ now intros [= <-] | ].
  destruct (svc_provider s) as [media |]; [ | now intros [= <-] ].
  destruct (media_leaf media) as [leaf |]; [ | now intros [= <-] ].
  destruct (media_size media <? mindevsize); [ now intros [= <-] | ].
  destruct (nonempty (media_bsd_name media)); [ | now intros [= <-] ].
  intros [= <-]. apply probe_inv_disks; [ exact Hinv | ].
  apply setObject_NoDup. apply Hinv.
Qed.

Lemma probe_inv_new name guid :
  probe_inv name guid (new_pool_list name guid).
Proof.
  unfold probe_inv. cbn. repeat split; try constructor.
  intros pg tg ce (pe & ve & [] & _).
Qed.

Lemma boot_run_probe_inv labelsize mindevsize name guid actions pl :
  probe_inv name guid pl ->
  probe_inv name guid (fst (boot_run labelsize mindevsize pl actions)).
Proof.
  intros Hpl.
  assert (Hrun : forall acts st,
    probe_inv name guid (fst st) ->
    probe_inv name guid
      (fst (fold_left (boot_step labelsize mindevsize) acts st))).
  { induction acts as [| a acts IH]; intros st Hst; [ exact Hst | ].
    cbn [fold_left]. apply IH. destruct a as [svc |]; cbn [boot_step].
    - destruct (pm_pl (zfs_boot_probe_media mindevsize (Some (fst st)) svc))
        as [pl' |] eqn:E; [ | exact Hst ].
      cbn [fst]. now apply (probe_inv_media mindevsize name guid (fst st) svc).
    - pose proof (probe_inv_pending labelsize name guid (fst st) Hst) as H.
      destruct (probe_pending labelsize (fst st)) as [pl' tr]. exact H. }
  apply (Hrun actions (pl, [])). exact Hpl.
Qed.

(** X15.  Whatever devices arrive and however often the worker takes a
    turn on a new pool list: the pool asked for stays the same; every
    name entry has order 1, a label count between 1 and 4, and a path
    that is the by-id prefix or [/dev/] followed by something; every
    config in the tree is one the probe matched against the pool asked
    for; and no device is in the disk set twice. *)
Theorem boot_run_invariants :
  forall (labelsize mindevsize : Z) (name : option string) (guid : Z)
         (actions : list boot_action),
    let pl := fst (boot_run labelsize mindevsize (new_pool_list name guid)
                     actions) in
    pool_name pl = name /\ pool_guid pl = guid /\
    (forall ne, In ne (names pl) -> probe_name ne) /\
    (forall pg tg ce,
        has_config pl pg tg ce ->
        code_matched (new_pool_list name guid) (ce_config ce)) /\
    List.NoDup (List.map media_id (disks pl)).
Proof.
  intros labelsize mindevsize name guid actions pl.
  destruct (boot_run_probe_inv labelsize mindevsize name guid actions
              (new_pool_list name guid) (probe_inv_new name guid))
    as (Hn & Hg & Hnames & Htree & Hnd).
  fold pl in Hn, Hg, Hnames, Htree, Hnd.
  split; [ exact Hn | ]. split; [ exact Hg | ].
  split; [ now apply List.Forall_forall | ].
  split; [ | exact Hnd ].
  intros pg tg ce H. apply probe_matched_code.
  rewrite <- (Htree pg tg ce H). apply probe_matched_ext; cbn; congruence.
Qed.

(** ** Boot arguments, further *)

Lemma uchar_diff c d : c <> d -> uchar c - uchar d <> 0.
Proof. intros Hne H. apply Hne, uchar_inj. lia. Qed.

Lemma strncmp_zfs s :
  strncmp s "zfs:" 4 = 0 <-> exists r, s = ("zfs:" ++ r)%string.
Proof.
  split.
  - destruct s as [| c1 [| c2 [| c3 [| c4 r]]]]; cbn [strncmp];
      try (destruct (Ascii.eqb_spec c1 "z") as [-> | N1];
           [ | intros H; now apply uchar_diff in H ]);
      try (destruct (Ascii.eqb_spec c2 "f") as [-> | N2];
           [ | intros H; now apply uchar_diff in H ]);
      try (destruct (Ascii.eqb_spec c3 "s") as [-> | N3];
           [ | intros H; now apply uchar_diff in H ]);
      try (destruct (Ascii.eqb_spec c4 ":") as [-> | N4];
           [ | intros H; now apply uchar_diff in H ]);
      try (vm_compute; discriminate).
    intros _. now exists r.
  - intros [r ->]. cbn. now destruct r.
Qed.

Lemma strlen_pos s : (strlen s >? 0) = true <-> s <> ""%string.
Proof.
  unfold strlen. destruct s as [| c r]; cbn [String.length].
  - split; [ discriminate | congruence ].
  - split; [ discriminate | intros _; apply Z.gtb_lt; lia ].
Qed.

Lemma arg_zfs_boot_Some v s :
  arg_zfs_boot v = Some s -> v = Some s /\ s <> ""%string.
Proof.
  unfold arg_zfs_boot. destruct v as [t |]; [ | discriminate ].
  destruct (strlen t >? 0) eqn:E; [ | discriminate ].
  intros [= ->]. split; [ reflexivity | now apply strlen_pos ].
Qed.

Lemma arg_zfs_boot_None v : arg_zfs_boot v = None -> empty_arg v.
Proof.
  unfold arg_zfs_boot, empty_arg. destruct v as [t |]; [ | now left ].
  destruct t as [| c r]; [ now right | ].
  replace (strlen (String c r) >? 0) with true; [ discriminate | ].
  symmetry. now apply strlen_pos.
Qed.

Lemma arg_rootdev_Some v s :
  arg_rootdev v = Some s ->
  v = Some s /\ s <> ""%string /\ ~ zfs_prefixed v.
Proof.
  unfold arg_rootdev. destruct v as [t |]; [ | discriminate ].
  destruct (strlen t >? 0) eqn:E; cbn [andb]; [ | discriminate ].
  destruct (Z.eqb_spec (strncmp t "zfs:" 4) 0) as [Z | Z]; cbn [negb];
    [ discriminate | ].
  intros [= ->]. split; [ reflexivity | ].
  split; [ now apply strlen_pos | ].
  intros [r [= ->]]. apply Z. now apply strncmp_zfs; exists r.
Qed.

Lemma arg_rootdev_None v :
  arg_rootdev v = None -> empty_arg v \/ zfs_prefixed v.
Proof.
  unfold arg_rootdev, empty_arg, zfs_prefixed.
  destruct v as [t |]; [ | left; now left ].
  destruct t as [| c r]; [ left; now right | ].
  replace (strlen (String c r) >? 0) with true
    by (symmetry; now apply strlen_pos).
  cbn [andb].
  destruct (Z.eqb_spec (strncmp (String c r) "zfs:" 4) 0) as [Z | Z];
    cbn [negb]; [ | discriminate ].
  intros _. right. apply strncmp_zfs in Z as [r' ->]. now exists r'.
Qed.

(** Cutting a string at the first occurrence of a character. *)
Lemma strchr_split s c i :
  strchr s c = Some i ->
  strchr (take_chars i s) c = None /\
  exists r, s = (take_chars i s ++ String c r)%string.
Proof.
  revert i. induction s as [| d s IH]; intros i; cbn [strchr];
    [ discriminate | ].
  destruct (Ascii.eqb d c) eqn:E.
  - intros [= <-]. cbn [take_chars strchr]. split; [ reflexivity | ].
    apply Ascii.eqb_eq in E as ->. now exists s.
  - destruct (strchr s c) as [j |]; [ | discriminate ].
    intros [= <-]. destruct (IH j eq_refl) as [H1 [r H2]].
    cbn [take_chars strchr]. rewrite E, H1. split; [ reflexivity | ].
    exists r. cbn [String.append]. now rewrite <- H2.
Qed.

Lemma take_chars_all s : take_chars (String.length s) s = s.
Proof.
  induction s as [| d s IH]; cbn [String.length take_chars];
    [ reflexivity | now rewrite IH ].
Qed.

Lemma string_app_empty s : (s ++ "")%string = s.
Proof.
  induction s as [| d s IH]; cbn [String.append];
    [ reflexivity | now rewrite IH ].
Qed.

(** The pool name cut out of a boot argument. *)
Lemma pool_name_cut s :
  let pool := take_chars (match strchr s "/" with
                          | Some i => i
                          | None => String.length s
                          end) s in
  strchr pool "/" = None /\
  exists rest, s = (pool ++ rest)%string /\
               (rest = ""%string \/ exists r, rest = String "/" r).
Proof.
  destruct (strchr s "/") as [i |] eqn:E; cbv zeta.
  - destruct (strchr_split s "/" i E) as [H1 [r H2]].
    split; [ exact H1 | ]. exists (String "/" r).
    split; [ exact H2 | right; now exists r ].
  - rewrite take_chars_all. split; [ exact E | ].
    exists ""%string. split; [ now rewrite string_app_empty | now left ].
Qed.

(** The three ways [zfs_boot_check_mountroot] ends before two seconds
    are up. *)
Lemma check_mountroot_early env n0 g0 :
  env_uptime env < ZFS_BOOT_UPTIME_LIMIT ->
  (exists arg s log,
      chosen_arg env arg log /\
      env_boot_arg env arg = Some s /\ s <> ""%string /\
      zfs_boot_check_mountroot env n0 g0
      = (true,
         Some (take_chars (match strchr s "/" with
                           | Some i => i
                           | None => String.length s
                           end) s), 0, log)) \/
  (empty_arg (env_boot_arg env "zfs_boot") /\
   (empty_arg (env_boot_arg env "rd") \/
    zfs_prefixed (env_boot_arg env "rd")) /\
   (empty_arg (env_boot_arg env "rootdev") \/
    zfs_prefixed (env_boot_arg env "rootdev")) /\
   zfs_boot_check_mountroot env n0 g0
   = (false, n0, 0,
      [EvBootArg "zfs_boot"; EvBootArg "rd"; EvBootArg "rootdev"])).
Proof.
  intros Hup. unfold zfs_boot_check_mountroot.
  replace (env_uptime env >=? ZFS_BOOT_UPTIME_LIMIT) with false
    by (symmetry; lia).
  destruct (arg_zfs_boot (env_boot_arg env "zfs_boot")) as [s |] eqn:E1.
  { apply arg_zfs_boot_Some in E1 as [H1 H2]. left.
    exists "zfs_boot"%string, s, [EvBootArg "zfs_boot"].
    split; [ left; now split | ]. now repeat split. }
  apply arg_zfs_boot_None in E1.
  destruct (arg_rootdev (env_boot_arg env "rd")) as [s |] eqn:E2.
  { apply arg_rootdev_Some in E2 as (H1 & H2 & H3). left.
    exists "rd"%string, s, [EvBootArg "zfs_boot"; EvBootArg "rd"].
    split; [ right; left; now repeat split | ]. now repeat split. }
  apply arg_rootdev_None in E2.
  destruct (arg_rootdev (env_boot_arg env "rootdev")) as [s |] eqn:E3.
  { apply arg_rootdev_Some in E3 as (H1 & H2 & H3). left.
    exists "rootdev"%string, s,
      [EvBootArg "zfs_boot"; EvBootArg "rd"; EvBootArg "rootdev"].
    split; [ right; right; now repeat split | ]. now repeat split. }
  apply arg_rootdev_None in E3. right. now repeat split.
Qed.

Lemma take_chars_fits n s :
  (String.length s <= n)%nat -> take_chars n s = s.
Proof.
  revert n. induction s as [| c s IH]; intros n H.
  - now destruct n.
  - destruct n as [| n]; cbn [String.length] in H; [ lia | ].
    cbn [take_chars]. rewrite IH by lia. reflexivity.
Qed.

(** X16.  When [zfs_boot_check_mountroot] returns true, the uptime is
    below the limit, the pool guid it hands back is 0, and the pool name
    is the part before the first slash of what was read of the boot
    argument it settled on, with no slash in it.  Of [zfs_boot] the
    first [ZFS_MAX_DATASET_NAME_LEN - 1] bytes are read, so the pool name
    of a longer argument comes from that cut; [rd] and [rootdev] are
    read whole where they are shorter than the buffer, and past its end
    where they are not, which is left out here.  What was read is not
    empty; the argument is [zfs_boot], or else [rd] when [zfs_boot] is
    missing or empty, or else [rootdev] when [rd] too is missing, empty
    or starts with ["zfs:"]; an [rd] or [rootdev] it settles on does not
    start with ["zfs:"]. *)
Theorem check_mountroot_pool_name :
  forall (name_len path_len : Z) (args : string -> option string)
         (env : boot_env) (n0 : option string) (g0 : Z)
         (name : option string) (guid : Z) (log : list host_event),
    name_len <= path_len ->
    (forall a, env_boot_arg env a = boot_args_read name_len path_len args a) ->
    (forall a s,
        a = "rd"%string \/ a = "rootdev"%string ->
        args a = Some s -> strlen s < name_len) ->
    zfs_boot_check_mountroot env n0 g0 = (true, name, guid, log) ->
    env_uptime env < ZFS_BOOT_UPTIME_LIMIT /\ guid = 0 /\
    exists arg raw pool rest,
      chosen_arg env arg log /\
      args arg = Some raw /\
      arg_as_read name_len arg raw <> ""%string /\
      name = Some pool /\
      arg_as_read name_len arg raw = (pool ++ rest)%string /\
      strchr pool "/" = None /\
      (rest = ""%string \/ exists r, rest = String "/" r).
Proof.
  intros name_len path_len args env n0 g0 name guid log Hlen Henv Hfit H.
  destruct (Z.ltb_spec (env_uptime env) ZFS_BOOT_UPTIME_LIMIT) as [Hup | Hup].
  - split; [ exact Hup | ].
    destruct (check_mountroot_early env n0 g0 Hup)
      as [(arg & s & log' & Hc & Ha & Hne & Heq) | (_ & _ & _ & Heq)];
      rewrite Heq in H; [ | discriminate ].
    injection H as <- <- <-. split; [ reflexivity | ].
    destruct (pool_name_cut s) as [Hno (rest & Hs & Hrest)].
    assert (Hraw : exists raw,
      args arg = Some raw /\ arg_as_read name_len arg raw = s).
    { rewrite Henv in Ha. unfold boot_args_read, PE_parse_boot_argn in Ha.
      unfold arg_as_read.
      destruct (String.eqb_spec arg "zfs_boot") as [-> | Hother].
      - destruct (args "zfs_boot"%string) as [raw |]; [ | discriminate ].
        injection Ha as Ha. now exists raw.
      - destruct (args arg) as [raw |] eqn:Eraw; [ | discriminate ].
        injection Ha as Ha. exists raw. split; [ reflexivity | ].
        rewrite <- Ha. symmetry. apply take_chars_fits.
        assert (Harg : arg = "rd"%string \/ arg = "rootdev"%string).
        { destruct Hc as [[-> _] | [[-> _] | [-> _]]]; auto.
          now contradiction Hother. }
        pose proof (Hfit arg raw Harg Eraw) as Hshort.
        unfold strlen in Hshort. lia. }
    destruct Hraw as (raw & Hargs & Hread).
    eexists arg, raw, _, rest. rewrite Hread.
    repeat split; eassumption || reflexivity.
  - exfalso. unfold zfs_boot_check_mountroot in H.
    replace (env_uptime env >=? ZFS_BOOT_UPTIME_LIMIT) with true in H
      by (symmetry; lia).
    discriminate.
Qed.

Lemma check_mountroot_pool_name_witness :
  env_uptime cut_env < ZFS_BOOT_UPTIME_LIMIT /\
  exists arg raw pool rest,
    chosen_arg cut_env arg [EvBootArg "zfs_boot"] /\
    tank_args arg = Some raw /\
    arg_as_read 4 arg raw <> ""%string /\
    Some "tan"%string = Some pool /\
    arg_as_read 4 arg raw = (pool ++ rest)%string /\
    strchr pool "/" = None /\
    (rest = ""%string \/ exists r, rest = String "/" r).
Proof.
  assert (H : zfs_boot_check_mountroot cut_env None 7
              = (true, Some "tan"%string, 0, [EvBootArg "zfs_boot"]))
    by (vm_compute; reflexivity).
  assert (Hlen : 4 <= 16) by lia.
  assert (Hfit : forall a s,
            a = "rd"%string \/ a = "rootdev"%string ->
            tank_args a = Some s -> strlen s < 4).
  { intros a s [-> | ->]; discriminate. }
  destruct (check_mountroot_pool_name 4 16 tank_args cut_env None 7 _ _ _
              Hlen (fun a => eq_refl) Hfit H)
    as (Hup & _ & Hex).
  split; [ exact Hup | exact Hex ].
Defined.

(** X17.  When [zfs_boot_check_mountroot] returns false, the place for
    the pool name holds what it held on entry.  Either the uptime is at
    or above the limit, and then the pool guid too is as it was and no
    boot argument was asked for; or all three boot arguments were asked
    for, the pool guid is 0, [zfs_boot] is missing or empty, and each of
    [rd] and [rootdev] is missing, empty, or starts with ["zfs:"]. *)
Theorem check_mountroot_refusal :
  forall (env : boot_env) (n0 : option string) (g0 : Z)
         (name : option string) (guid : Z) (log : list host_event),
    zfs_boot_check_mountroot env n0 g0 = (false, name, guid, log) ->
    name = n0 /\
    ((ZFS_BOOT_UPTIME_LIMIT <= env_uptime env /\ guid = g0 /\ log = []) \/
     (env_uptime env < ZFS_BOOT_UPTIME_LIMIT /\ guid = 0 /\
      log = [EvBootArg "zfs_boot"; EvBootArg "rd"; EvBootArg "rootdev"] /\
      empty_arg (env_boot_arg env "zfs_boot") /\
      (empty_arg (env_boot_arg env "rd") \/
       zfs_prefixed (env_boot_arg env "rd")) /\
      (empty_arg (env_boot_arg env "rootdev") \/
       zfs_prefixed (env_boot_arg env "rootdev")))).
Proof.
  intros env n0 g0 name guid log H.
  destruct (Z.ltb_spec (env_uptime env) ZFS_BOOT_UPTIME_LIMIT) as [Hup | Hup].
  - destruct (check_mountroot_early env n0 g0 Hup)
      as [(arg & s & log' & _ & _ & _ & Heq) | (H1 & H2 & H3 & Heq)];
      rewrite Heq in H; [ discriminate | ].
    injection H as <- <- <-. split; [ reflexivity | ].
    right. now repeat split.
  - unfold zfs_boot_check_mountroot in H.
    replace (env_uptime env >=? ZFS_BOOT_UPTIME_LIMIT) with true in H
      by (symmetry; lia).
    injection H as <- <- <-. split; [ reflexivity | ]. left. now repeat split.
Qed.

Lemma check_mountroot_refusal_witness :
  env_uptime zfs_rd_env < ZFS_BOOT_UPTIME_LIMIT /\
  zfs_prefixed (env_boot_arg zfs_rd_env "rd") /\
  zfs_boot_check_mountroot zfs_rd_env (Some "old"%string) 7
  = (false, Some "old"%string, 0,
     [EvBootArg "zfs_boot"; EvBootArg "rd"; EvBootArg "rootdev"]).
Proof.
  assert (H : zfs_boot_check_mountroot zfs_rd_env (Some "old"%string) 7
              = (false, Some "old"%string, 0,
                 [EvBootArg "zfs_boot"; EvBootArg "rd";
                  EvBootArg "rootdev"]))
    by (vm_compute; reflexivity).
  destruct (check_mountroot_refusal zfs_rd_env (Some "old"%string) 7 _ _ _ H)
    as (_ & [(Hlate & _) | (Hup & _ & _ & _ & [He | Hz] & _)]).
  - exfalso. revert Hlate. vm_compute. intros Hl. now apply Hl.
  - exfalso. destruct He as [He | He]; discriminate He.
  - split; [ exact Hup | ]. split; [ exact Hz | exact H ].
Defined.

Lemma check_mountroot_log env n0 g0 e :
  In e (snd (zfs_boot_check_mountroot env n0 g0)) ->
  exists a, e = EvBootArg a.
Proof.
  unfold zfs_boot_check_mountroot.
  destruct (env_uptime env >=? ZFS_BOOT_UPTIME_LIMIT); [ intros [] | ].
  destruct (arg_zfs_boot (env_boot_arg env "zfs_boot")) as [s |];
    [ | destruct (arg_rootdev (env_boot_arg env "rd")) as [s |];
        [ | destruct (arg_rootdev (env_boot_arg env "rootdev")) as [s |] ] ];
    cbn [snd In]; intros H;
    repeat (destruct H as [<- | H]; [ eauto | ]); destruct H.
Qed.

(** What [zfs_boot_init] comes to, by the way
    [zfs_boot_check_mountroot] ended. *)
Lemma init_cases env :
  let log := snd (zfs_boot_check_mountroot env None 0) in
  zfs_boot_init true env = (true, None, log) \/
  (exists pool,
      env_uptime env < ZFS_BOOT_UPTIME_LIMIT /\
      strchr pool "/" = None /\
      zfs_boot_init true env
      = if env_set_alloc env && env_notifier env
        then (true, Some (new_pool_list (Some pool) 0),
              log ++ [EvPoolListAlloc; EvNotifierAdd; EvWorkerDispatch])
        else (false, None, log ++ [EvPoolListAlloc; EvPoolListFree])).
Proof.
  cbv zeta. unfold zfs_boot_init. cbn [negb].
  destruct (Z.ltb_spec (env_uptime env) ZFS_BOOT_UPTIME_LIMIT) as [Hup | Hup].
  - destruct (check_mountroot_early env None 0 Hup)
      as [(arg & s & log & _ & _ & _ & Heq) | (_ & _ & _ & Heq)];
      rewrite Heq; cbn [negb orb fst snd]; [ | now left ].
    right. eexists. split; [ exact Hup | ].
    split; [ apply (pool_name_cut s) | ].
    match goal with
    | |- context [bool_decide (is_Some (Some ?p))] =>
        replace (bool_decide (is_Some (Some p))) with true
          by (symmetry; apply bool_decide_eq_true; eauto)
    end.
    cbn [negb andb].
    destruct (env_set_alloc env), (env_notifier env); reflexivity.
  - left. unfold zfs_boot_check_mountroot.
    replace (env_uptime env >=? ZFS_BOOT_UPTIME_LIMIT) with true
      by (symmetry; lia).
    reflexivity.
Qed.

(** X18.  What [zfs_boot_init] leaves behind.  The worker is dispatched
    exactly when a pool list is left in [zfs_boot_pool_list], and so is
    the notifier registered.  A pool list is left only with a service
    given and an uptime below the limit; it is then a new one, active and
    empty, with pool guid 0 and a pool name without a slash, the return
    value is true and the pool list was not freed.  The return value is
    false exactly when no service was given or the pool list was freed;
    a pool list that was allocated is freed or left in
    [zfs_boot_pool_list]. *)
Theorem init_outcomes :
  forall (zfs_hl : bool) (env : boot_env),
    let r := zfs_boot_init zfs_hl env in
    let ret := fst (fst r) in
    let global := snd (fst r) in
    let log := snd r in
    (In EvWorkerDispatch log <-> is_Some global) /\
    (In EvNotifierAdd log <-> is_Some global) /\
    (is_Some global ->
     ret = true /\ zfs_hl = true /\ ~ In EvPoolListFree log /\
     env_uptime env < ZFS_BOOT_UPTIME_LIMIT /\
     exists pool, global = Some (new_pool_list (Some pool) 0) /\
                  strchr pool "/" = None) /\
    (ret = false <-> zfs_hl = false \/ In EvPoolListFree log) /\
    (In EvPoolListAlloc log -> In EvPoolListFree log \/ is_Some global).
Proof.
  intros zfs_hl env.
  assert (HnoSome : ~ is_Some (@None pool_list))
    by (intros [x Hx]; discriminate).
  destruct zfs_hl.
  2:{ cbn. intuition discriminate. }
  pose proof (check_mountroot_log env None 0) as Hlog.
  set (log0 := snd (zfs_boot_check_mountroot env None 0)) in *.
  assert (HD : ~ In EvWorkerDispatch log0)
    by (intros H; destruct (Hlog _ H); discriminate).
  assert (HN : ~ In EvNotifierAdd log0)
    by (intros H; destruct (Hlog _ H); discriminate).
  assert (HF : ~ In EvPoolListFree log0)
    by (intros H; destruct (Hlog _ H); discriminate).
  assert (HA : ~ In EvPoolListAlloc log0)
    by (intros H; destruct (Hlog _ H); discriminate).
  destruct (init_cases env) as [Heq | (pool & Hup & Hpool & Heq)];
    fold log0 in Heq; cbv zeta; rewrite Heq.
  - cbn [fst snd]. intuition discriminate.
  - destruct (env_set_alloc env && env_notifier env); cbn [fst snd];
      rewrite !in_app_iff; cbn [In].
    + assert (HS : is_Some (Some (new_pool_list (Some pool) 0))) by eauto.
      repeat split; try solve [ intuition discriminate ].
      exists pool. now split.
    + intuition discriminate.
Qed.

(** X19.  In a run that [zfs_boot_init] started, whatever devices arrive
    and however often the worker takes a turn, every config in the tree
    carries the pool name that was asked for: the pool guid of such a
    pool list is 0, so no config gets in through its guid. *)
Theorem init_run_by_name :
  forall (labelsize mindevsize : Z) (zfs_hl : bool) (env : boot_env)
         (ret : bool) (pl0 : pool_list) (log : list host_event)
         (actions : list boot_action) (pg tg : Z) (ce : config_entry),
    zfs_boot_init zfs_hl env = (ret, Some pl0, log) ->
    has_config (fst (boot_run labelsize mindevsize pl0 actions)) pg tg ce ->
    exists pool,
      pool_name pl0 = Some pool /\ pool_guid pl0 = 0 /\
      nvlist_lookup_string (ce_config ce) ZPOOL_CONFIG_POOL_NAME
      = Some pool.
Proof.
  intros labelsize mindevsize zfs_hl env ret pl0 log actions pg tg ce Hinit H.
  destruct zfs_hl; [ | discriminate ].
  assert (Hpl : exists pool, pl0 = new_pool_list (Some pool) 0).
  { destruct (init_cases env) as [Heq | (pool & _ & _ & Heq)];
      rewrite Heq in Hinit; [ discriminate | ].
    destruct (env_set_alloc env && env_notifier env); [ | discriminate ].
    injection Hinit as _ <- _. now exists pool. }
  destruct Hpl as [pool ->].
  destruct (boot_run_probe_inv labelsize mindevsize (Some pool) 0 actions
              (new_pool_list (Some pool) 0) (probe_inv_new _ _))
    as (Hn & Hg & _ & Htree & _).
  exists pool. split; [ reflexivity | ]. split; [ reflexivity | ].
  specialize (Htree pg tg ce H). unfold probe_matched in Htree.
  rewrite Hn, Hg in Htree.
  destruct (nvlist_lookup_string (ce_config ce) ZPOOL_CONFIG_POOL_NAME)
    as [pname |]; [ | discriminate ].
  apply same_string_spec in Htree. now subst.
Qed.

Lemma init_run_by_name_witness :
  exists pool,
    pool_name (new_pool_list (Some "tank"%string) 0) = Some pool /\
    pool_guid (new_pool_list (Some "tank"%string) 0) = 0 /\
    nvlist_lookup_string (named_label "tank") ZPOOL_CONFIG_POOL_NAME
    = Some pool.
Proof.
  assert (Hinit : zfs_boot_init true tank_env
                  = (true, Some (new_pool_list (Some "tank"%string) 0),
                     [EvBootArg "zfs_boot"; EvPoolListAlloc; EvNotifierAdd;
                      EvWorkerDispatch]))
    by (vm_compute; reflexivity).
  assert (Hrun : fst (boot_run sizeof_vdev_label_t (64 * 2 ^ 20)
                        (new_pool_list (Some "tank"%string) 0) tank_arrival)
                 = tank_found)
    by (vm_compute; reflexivity).
  apply (init_run_by_name sizeof_vdev_label_t (64 * 2 ^ 20) true tank_env
           true (new_pool_list (Some "tank"%string) 0) _ tank_arrival
           1001 7 {| ce_txg := 12; ce_config := named_label "tank" |} Hinit).
  rewrite Hrun. unfold tank_found, has_config. cbn [pools].
  eexists _, _. split; [ left; reflexivity | ]. split; [ reflexivity | ].
  split; [ left; reflexivity | ]. split; [ reflexivity | ].
  left. reflexivity.
Defined.

(** A pool list without a pool name and with no disk pending stays as it
    is. *)
Lemma boot_run_unnamed labelsize mindevsize pl actions :
  no_pool_name pl = true -> disks pl = [] ->
  boot_run labelsize mindevsize pl actions = (pl, []).
Proof.
  intros Hno Hd. unfold boot_run.
  induction actions as [| a actions IH]; [ reflexivity | ].
  cbn [fold_left].
  replace (boot_step labelsize mindevsize (pl, []) a) with (pl, @nil probe_event);
    [ exact IH | ].
  destruct a as [svc |]; cbn [boot_step fst snd].
  - unfold zfs_boot_probe_media. rewrite Hno.
    destruct svc; [ | reflexivity ].
    destruct (negb (terminating pl =? ZFS_BOOT_ACTIVE)); reflexivity.
  - unfold probe_pending. rewrite Hd.
    destruct (negb (terminating pl =? ZFS_BOOT_ACTIVE)); reflexivity.
Qed.

(** X20.  A [zfs_boot] argument that begins with a slash gives the empty
    pool name.  [zfs_boot_init] then still sets up the pool list,
    registers the notifier and dispatches the worker, and nothing comes
    of it: whatever devices arrive and however often the worker takes a
    turn, no disk is taken in, no label is read, and the pool list stays
    as it was. *)
Theorem init_leading_slash_inert :
  forall (labelsize mindevsize : Z) (env : boot_env) (r : string)
         (actions : list boot_action),
    env_uptime env < ZFS_BOOT_UPTIME_LIMIT ->
    env_boot_arg env "zfs_boot" = Some (String "/" r) ->
    env_set_alloc env = true -> env_notifier env = true ->
    let pl0 := new_pool_list (Some ""%string) 0 in
    zfs_boot_init true env
    = (true, Some pl0,
       [EvBootArg "zfs_boot"; EvPoolListAlloc; EvNotifierAdd;
        EvWorkerDispatch]) /\
    boot_run labelsize mindevsize pl0 actions = (pl0, []).
Proof.
  intros labelsize mindevsize env r actions Hup Harg Hset Hnot pl0.
  split; [ | now apply boot_run_unnamed ].
  unfold zfs_boot_init, zfs_boot_check_mountroot.
  replace (env_uptime env >=? ZFS_BOOT_UPTIME_LIMIT) with false
    by (symmetry; lia).
  rewrite Harg, Hset, Hnot.
  replace (arg_zfs_boot (Some (String "/" r))) with (Some (String "/" r)).
  - reflexivity.
  - unfold arg_zfs_boot.
    replace (strlen (String "/" r) >? 0) with true; [ reflexivity | ].
    symmetry. now apply strlen_pos.
Qed.

Lemma init_leading_slash_inert_witness :
  let pl0 := new_pool_list (Some ""%string) 0 in
  zfs_boot_init true slash_env
  = (true, Some pl0,
     [EvBootArg "zfs_boot"; EvPoolListAlloc; EvNotifierAdd;
      EvWorkerDispatch]) /\
  boot_run sizeof_vdev_label_t (64 * 2 ^ 20) pl0 tank_arrival = (pl0, []).
Proof.
  apply (init_leading_slash_inert sizeof_vdev_label_t (64 * 2 ^ 20)
           slash_env "ROOT" tank_arrival);
    [ vm_compute; reflexivity | reflexivity | reflexivity | reflexivity ].
Defined.

(** ** Mount table lookups *)

Lemma str_length_app a b :
  String.length (a ++ b) = (String.length a + String.length b)%nat.
Proof.
  induction a as [| c a IH]; cbn [String.append String.length Nat.add];
    [ reflexivity | now rewrite IH ].
Qed.

Lemma str_app_assoc a b c : ((a ++ b) ++ c)%string = (a ++ (b ++ c))%string.
Proof.
  induction a as [| d a IH]; cbn [String.append];
    [ reflexivity | now rewrite IH ].
Qed.

Lemma uchar_zero c : uchar c = 0 -> c = Ascii.zero.
Proof. intros H. apply uchar_inj. rewrite H. reflexivity. Qed.

Lemma c_string_cons c r :
  c_string (String c r) <-> c <> Ascii.zero /\ c_string r.
Proof.
  unfold c_string. cbn [strchr].
  destruct (Ascii.eqb_spec c Ascii.zero) as [E | E].
  - split; [ discriminate | intros [H _]; contradiction ].
  - destruct (strchr r Ascii.zero); split;
      try discriminate; try (intros [_ H]; discriminate); auto.
Qed.

Lemma strcmp_refl a : strcmp a a = 0.
Proof.
  induction a as [| c a IH]; cbn [strcmp]; [ reflexivity | ].
  now rewrite Ascii.eqb_refl.
Qed.

Lemma strcmp_eq a : forall b,
  c_string a -> c_string b -> strcmp a b = 0 -> a = b.
Proof.
  induction a as [| c a IH]; intros [| d b] Ha Hb; cbn [strcmp].
  - reflexivity.
  - intros H. apply c_string_cons in Hb as [Hd _].
    exfalso. apply Hd, uchar_zero. lia.
  - intros H. apply c_string_cons in Ha as [Hc _].
    exfalso. now apply Hc, uchar_zero.
  - apply c_string_cons in Ha as [_ Ha]. apply c_string_cons in Hb as [_ Hb].
    destruct (Ascii.eqb_spec c d) as [-> | Hne].
    + intros H. now rewrite (IH b Ha Hb H).
    + intros H. now apply uchar_diff in H.
Qed.

Lemma strcmp_eqb a b :
  c_string a -> c_string b -> (strcmp a b =? 0) = String.eqb a b.
Proof.
  intros Ha Hb. destruct (String.eqb_spec a b) as [-> | Hne].
  - rewrite strcmp_refl. reflexivity.
  - apply Z.eqb_neq. intros H. now apply Hne, strcmp_eq.
Qed.

(** [opt] compared with a token over the length of [opt]. *)
Lemma strncmp_prefix opt : forall f,
  c_string opt ->
  strncmp opt f (String.length opt) = 0 <-> String.prefix opt f = true.
Proof.
  induction opt as [| c opt IH]; intros f Hc.
  - destruct f; cbn; now split.
  - apply c_string_cons in Hc as [Hz Hc]. destruct f as [| d f];
      cbn [String.length strncmp String.prefix].
    + split; [ | discriminate ]. intros H. exfalso. now apply Hz, uchar_zero.
    + destruct (Ascii.eqb_spec c d) as [-> | Hne];
        destruct (ascii_dec _ d) as [E | E]; try contradiction.
      * now apply IH.
      * split; [ | discriminate ]. intros H. now apply uchar_diff in H.
Qed.

Lemma prefix_app a : forall b,
  String.prefix a b = true <-> exists more, b = (a ++ more)%string.
Proof.
  induction a as [| c a IH]; intros [| d b];
    cbn [String.prefix String.append].
  - split; [ intros _; now exists ""%string | reflexivity ].
  - split; [ intros _; now exists (String d b) | reflexivity ].
  - split; [ discriminate | intros [m H]; discriminate ].
  - destruct (ascii_dec c d) as [-> | Hne].
    + rewrite IH. split; intros [m H]; exists m; congruence.
    + split; [ discriminate | intros [m H]; congruence ].
Qed.

(** *** [getmntany] *)

Lemma getmntany_find mounts mgetp mrefp fstype special :
  mnt_fstype mrefp = Some fstype -> mnt_special mrefp = Some special ->
  c_string fstype -> c_string special -> Forall c_statfs mounts ->
  getmntany mounts mgetp mrefp
  = Some match List.find (same_mount fstype special) mounts with
         | Some s => (0, mnttab_of s)
         | None => (-1, mgetp)
         end.
Proof.
  intros Hf Hs Cf Cs Hm.
  induction Hm as [| s rest [C1 C2] _ IH]; [ reflexivity | ].
  cbn [getmntany List.find]. rewrite Hf, Hs. unfold same_mount at 1.
  rewrite (strcmp_eqb fstype _ Cf C1), (strcmp_eqb special _ Cs C2).
  destruct (String.eqb fstype (f_fstypename s)); cbn [andb]; [ | exact IH ].
  destruct (String.eqb special (f_mntfromname s)); [ reflexivity | exact IH ].
Qed.

(** X21.  [getmntany] with a reference entry that gives a file system
    type and a device: the mounts are looked through in the order
    [getmntinfo] gives them; the first whose type and device are both
    those of the reference is copied, with empty options, and 0 is
    returned; the mount point and the options of the reference play no
    part.  With no such mount the return value is -1 and the entry to
    fill is left as it was. *)
Theorem getmntany_first_match :
  forall (mounts : list statfs) (mgetp mrefp : mnttab)
         (fstype special : string),
    mnt_fstype mrefp = Some fstype -> mnt_special mrefp = Some special ->
    c_string fstype -> c_string special -> Forall c_statfs mounts ->
    (forall s,
        In s mounts ->
        f_fstypename s <> fstype \/ f_mntfromname s <> special) /\
    getmntany mounts mgetp mrefp = Some (-1, mgetp)
    \/
    exists before s after,
      mounts = before ++ s :: after /\
      f_fstypename s = fstype /\ f_mntfromname s = special /\
      (forall s',
          In s' before ->
          f_fstypename s' <> fstype \/ f_mntfromname s' <> special) /\
      getmntany mounts mgetp mrefp
      = Some (0, {| mnt_special := Some special;
                    mnt_mountp := Some (f_mntonname s);
                    mnt_fstype := Some fstype;
                    mnt_mntopts := Some ""%string |}).
Proof.
  intros mounts mgetp mrefp fstype special Hf Hs Cf Cs Hm.
  rewrite (getmntany_find mounts mgetp mrefp fstype special Hf Hs Cf Cs Hm).
  assert (Hno : forall s, same_mount fstype special s = false ->
                f_fstypename s <> fstype \/ f_mntfromname s <> special).
  { intros s H. unfold same_mount in H. apply andb_false_iff in H.
    destruct H as [H | H]; apply String.eqb_neq in H; [ left | right ];
      congruence. }
  clear Hm. induction mounts as [| m rest IH]; cbn [List.find].
  - left. split; [ intros s [] | reflexivity ].
  - destruct (same_mount fstype special m) eqn:E.
    + right. exists [], m, rest. unfold same_mount in E.
      apply andb_true_iff in E as [E1 E2].
      apply String.eqb_eq in E1, E2. split; [ reflexivity | ].
      split; [ now symmetry | ]. split; [ now symmetry | ].
      split; [ intros s' [] | ]. unfold mnttab_of. now rewrite <- E1, <- E2.
    + destruct IH as [[Hall Heq] | (before & s & after & -> & H1 & H2 & H3 & Heq)].
      * left. split; [ | exact Heq ].
        intros s [<- | Hin]; [ now apply Hno | now apply Hall ].
      * right. exists (m :: before), s, after.
        split; [ reflexivity | ]. split; [ exact H1 | ].
        split; [ exact H2 | ]. split; [ | exact Heq ].
        intros s' [<- | Hin]; [ now apply Hno | now apply H3 ].
Qed.

Lemma getmntany_first_match_witness :
  exists before s after,
    fstab_mounts = before ++ s :: after /\
    f_fstypename s = "zfs"%string /\ f_mntfromname s = "tank"%string /\
    (forall s',
        In s' before ->
        f_fstypename s' <> "zfs"%string \/ f_mntfromname s' <> "tank"%string) /\
    getmntany fstab_mounts (mnttab_opts "rw") (mnttab_ref "zfs" "tank")
    = Some (0, {| mnt_special := Some "tank"%string;
                  mnt_mountp := Some (f_mntonname s);
                  mnt_fstype := Some "zfs"%string;
                  mnt_mntopts := Some ""%string |}).
Proof.
  assert (Hm : Forall c_statfs fstab_mounts)
    by (repeat constructor).
  destruct (getmntany_first_match fstab_mounts (mnttab_opts "rw")
              (mnttab_ref "zfs" "tank") "zfs" "tank"
              eq_refl eq_refl eq_refl eq_refl Hm)
    as [[Hall _] | Hfound].
  - exfalso.
    destruct (Hall {| f_fstypename := "zfs"; f_mntonname := "/Volumes/tank";
                      f_mntfromname := "tank" |}) as [H | H];
      [ right; left; reflexivity | now apply H | now apply H ].
  - exact Hfound.
Defined.

(** *** [mntopt] and [hasmntopt] *)

Lemma skip_space_split s : forall k t,
  skip_space s = (k, t) ->
  exists ws, s = (ws ++ t)%string /\ String.length ws = k.
Proof.
  induction s as [| c s IH]; intros k t; cbn [skip_space].
  - intros [= <- <-]. now exists ""%string.
  - destruct (isspace c).
    + destruct (skip_space s) as [k' t'] eqn:E. intros [= <- <-].
      destruct (IH k' t' eq_refl) as (ws & -> & <-).
      now exists (String c ws).
    + intros [= <- <-]. now exists ""%string.
Qed.

Lemma until_comma_split s : forall tok after,
  until_comma s = (tok, after) ->
  strchr tok "," = None /\
  match after with
  | Some r => s = (tok ++ String "," r)%string
  | None => s = tok
  end.
Proof.
  induction s as [| c s IH]; intros tok after; cbn [until_comma].
  - intros [= <- <-]. now split.
  - destruct (Ascii.eqb_spec c ",") as [-> | Hne].
    + intros [= <- <-]. now split.
    + destruct (until_comma s) as [tok' after'] eqn:E. intros [= <- <-].
      destruct (IH tok' after' eq_refl) as [H1 H2]. cbn [strchr].
      apply Ascii.eqb_neq in Hne. rewrite Hne, H1. split; [ reflexivity | ].
      destruct after'; cbn [String.append]; now rewrite <- H2.
Qed.

(** What a call of [mntopt] cuts off the string. *)
Lemma mntopt_split p k f next rest :
  mntopt p = (k, f, next, rest) ->
  exists ws sep,
    p = (ws ++ f ++ sep ++ rest)%string /\ String.length ws = k /\
    next = (k + String.length f + String.length sep)%nat /\
    strchr f "," = None /\
    (sep = ","%string \/ (sep = ""%string /\ rest = ""%string)).
Proof.
  unfold mntopt. destruct (skip_space p) as [k' s] eqn:E1.
  destruct (until_comma s) as [tok after] eqn:E2.
  apply skip_space_split in E1 as (ws & -> & Hk).
  apply until_comma_split in E2 as [Hno Hs].
  destruct after as [r |]; intros [= <- <- <- <-].
  - exists ws, ","%string. subst s. repeat split; auto.
  - exists ws, ""%string. subst s. cbn [String.append String.length].
    rewrite string_app_empty. repeat split; auto.
Qed.

Lemma mntopt_length p k f next rest :
  mntopt p = (k, f, next, rest) ->
  String.length p = (next + String.length rest)%nat.
Proof.
  intros H. apply mntopt_split in H as (ws & sep & -> & Hk & -> & _ & _).
  rewrite !str_length_app. lia.
Qed.

(** Every turn of the loop takes at least one byte off the string, so a
    fuel above its length is enough, and any more makes no difference. *)
Lemma hasmntopt_loop_returns opt : forall fuel off p,
  (String.length p < fuel)%nat ->
  exists r,
    hasmntopt_loop fuel off p opt = Some r /\ r <> OptUndefined /\
    forall fuel', (String.length p < fuel')%nat ->
                  hasmntopt_loop fuel' off p opt = Some r.
Proof.
  induction fuel as [| fuel IH]; intros off p Hlen; [ lia | ].
  cbn [hasmntopt_loop].
  destruct (mntopt p) as [[[k f] next] rest] eqn:E.
  pose proof (mntopt_length p k f next rest E) as Hp.
  pose proof (mntopt_split p k f next rest E)
    as (ws & sep & _ & _ & Hnext & _ & _).
  destruct f as [| c f].
  - exists OptNull. split; [ reflexivity | ]. split; [ discriminate | ].
    intros [| fuel'] H'; [ lia | ]. cbn [hasmntopt_loop]. now rewrite E.
  - cbn [String.length] in Hnext.
    destruct (strncmp opt (String c f) (String.length opt) =? 0) eqn:Ecmp.
    + exists (OptAt (off + k)). split; [ reflexivity | ].
      split; [ discriminate | ].
      intros [| fuel'] H'; [ lia | ]. cbn [hasmntopt_loop].
      now rewrite E, Ecmp.
    + destruct (IH (off + next)%nat rest) as (r & H1 & H2 & H3); [ lia | ].
      exists r. split; [ exact H1 | ]. split; [ exact H2 | ].
      intros [| fuel'] H'; [ lia | ]. cbn [hasmntopt_loop].
      rewrite E, Ecmp. apply H3. lia.
Qed.

(** X22.  [hasmntopt] returns: the scan of the options ends, however
    they are written, because every token it takes is followed by a
    shorter rest.  The result is undefined exactly when the options with
    their terminator do not fit the buffer of [MNT_LINE_MAX] bytes; an
    entry without options gives null. *)
Theorem hasmntopt_returns :
  forall (MNT_LINE_MAX : Z) (mnt : mnttab) (opt : string),
    exists r,
      hasmntopt MNT_LINE_MAX mnt opt = Some r /\
      (r = OptUndefined <->
       exists opts, mnt_mntopts mnt = Some opts /\
                    MNT_LINE_MAX <= strlen opts) /\
      (mnt_mntopts mnt = None -> r = OptNull) /\
      (forall opts fuel,
          mnt_mntopts mnt = Some opts -> strlen opts < MNT_LINE_MAX ->
          (String.length opts < fuel)%nat ->
          hasmntopt_loop fuel 0 opts opt = Some r).
Proof.
  intros MAX mnt opt. unfold hasmntopt.
  destruct (mnt_mntopts mnt) as [opts |].
  - destruct (Z.leb_spec MAX (strlen opts)) as [Hbig | Hfit].
    + exists OptUndefined. split; [ reflexivity | ].
      split; [ split; [ intros _; now exists opts | reflexivity ] | ].
      split; [ discriminate | ].
      intros opts' fuel [= <-] H. lia.
    + destruct (hasmntopt_loop_returns opt (S (String.length opts)) 0 opts)
        as (r & H1 & H2 & H3); [ lia | ].
      exists r. split; [ exact H1 | ].
      split; [ split; [ contradiction | intros (o & [= <-] & H); lia ] | ].
      split; [ discriminate | ].
      intros opts' fuel [= <-] _ Hfuel. now apply H3.
  - exists OptNull. split; [ reflexivity | ].
    split; [ split; [ discriminate | intros (o & H & _); discriminate ] | ].
    split; [ reflexivity | intros opts fuel H; discriminate ].
Qed.

(** Where the loop finds [opt]. *)
Lemma hasmntopt_loop_found opt : forall fuel off p k,
  hasmntopt_loop fuel off p opt = Some (OptAt k) ->
  exists pre tok post,
    p = (pre ++ tok ++ post)%string /\
    (off + String.length pre)%nat = k /\
    tok <> ""%string /\ strchr tok "," = None /\
    (post = ""%string \/ exists r, post = String "," r) /\
    strncmp opt tok (String.length opt) = 0.
Proof.
  induction fuel as [| fuel IH]; intros off p k; [ discriminate | ].
  cbn [hasmntopt_loop].
  destruct (mntopt p) as [[[j f] next] rest] eqn:E.
  apply mntopt_split in E as (ws & sep & Hp & Hj & Hnext & Hno & Hsep).
  destruct f as [| c f]; [ discriminate | ].
  destruct (Z.eqb_spec (strncmp opt (String c f) (String.length opt)) 0)
    as [Hcmp | Hcmp].
  - intros [= <-]. exists ws, (String c f), (sep ++ rest)%string.
    split; [ exact Hp | ]. split; [ now rewrite Hj | ].
    split; [ discriminate | ]. split; [ exact Hno | ].
    split; [ | exact Hcmp ].
    destruct Hsep as [-> | [-> ->]]; [ right; now exists rest | now left ].
  - intros H. apply IH in H
      as (pre & tok & post & Hrest & Hk & Hne & Hno' & Hpost & Hcmp').
    exists (ws ++ String c f ++ sep ++ pre)%string, tok, post.
    split.
    { rewrite Hp, Hrest. now rewrite !str_app_assoc. }
    split.
    { rewrite <- Hk, Hnext, !str_length_app. cbn [String.length]. lia. }
    now repeat split.
Qed.

(** X23.  When [hasmntopt] returns a pointer, it points into the options
    of the entry at the start of a token: the token is not empty, has no
    comma in it, ends at a comma or at the end of the options, and
    starts with [opt].  The token need not be [opt] itself. *)
Theorem hasmntopt_found_starts_with_opt :
  forall (MNT_LINE_MAX : Z) (mnt : mnttab) (opt : string) (k : nat),
    c_string opt ->
    hasmntopt MNT_LINE_MAX mnt opt = Some (OptAt k) ->
    exists opts tok more,
      mnt_mntopts mnt = Some opts /\ strlen opts < MNT_LINE_MAX /\
      token_at opts k tok /\ tok <> ""%string /\ strchr tok "," = None /\
      tok = (opt ++ more)%string.
Proof.
  intros MAX mnt opt k Hc. unfold hasmntopt.
  destruct (mnt_mntopts mnt) as [opts |]; [ | discriminate ].
  destruct (Z.leb_spec MAX (strlen opts)) as [Hbig | Hfit]; [ discriminate | ].
  intros H. apply hasmntopt_loop_found in H
    as (pre & tok & post & Hopts & Hk & Hne & Hno & Hpost & Hcmp).
  apply (strncmp_prefix opt tok Hc) in Hcmp.
  apply prefix_app in Hcmp as [more Hmore].
  exists opts, tok, more. split; [ reflexivity | ]. split; [ exact Hfit | ].
  split; [ now exists pre, post | ]. now repeat split.
Qed.

Lemma hasmntopt_found_starts_with_opt_witness :
  exists opts tok more,
    mnt_mntopts (mnttab_opts "rw, nosuid,nodev") = Some opts /\
    strlen opts < 1024 /\
    token_at opts 4 tok /\ tok <> ""%string /\ strchr tok "," = None /\
    tok = ("no" ++ more)%string.
Proof.
  apply (hasmntopt_found_starts_with_opt 1024
           (mnttab_opts "rw, nosuid,nodev") "no" 4);
    [ reflexivity | vm_compute; reflexivity ].
Defined.

(** One well-written option in front of the string. *)
Lemma skip_space_wf t r :
  wf_opt t -> skip_space (t ++ r) = (O, (t ++ r)%string).
Proof.
  intros (Hne & _ & Hsp). destruct t as [| c t]; [ contradiction | ].
  cbn [String.append skip_space]. now rewrite Hsp.
Qed.

Lemma until_comma_app t : forall after,
  strchr t "," = None ->
  until_comma (t ++ match after with
                    | Some r => String "," r
                    | None => ""
                    end)
  = (t, after).
Proof.
  induction t as [| c t IH]; intros after; cbn [strchr String.append].
  - intros _. destruct after; reflexivity.
  - destruct (Ascii.eqb c ",") eqn:E; [ discriminate | ].
    destruct (strchr t ",") eqn:E'; [ discriminate | ]. intros _.
    cbn [until_comma]. rewrite E, (IH after eq_refl). reflexivity.
Qed.

Lemma mntopt_wf_comma t r :
  wf_opt t ->
  mntopt (t ++ String "," r) = (O, t, (String.length t + 1)%nat, r).
Proof.
  intros Hwf. unfold mntopt. rewrite (skip_space_wf t _ Hwf).
  destruct Hwf as (_ & Hno & _).
  rewrite (until_comma_app t (Some r) Hno). reflexivity.
Qed.

Lemma mntopt_wf_last t :
  wf_opt t -> mntopt t = (O, t, String.length t, ""%string).
Proof.
  intros Hwf. unfold mntopt.
  pose proof (skip_space_wf t ""%string Hwf) as Hs.
  destruct Hwf as (_ & Hno & _).
  pose proof (until_comma_app t None Hno) as Hu.
  rewrite string_app_empty in Hs, Hu. rewrite Hs, Hu. reflexivity.
Qed.

Lemma blank_skip ws : forall r,
  blank ws = true ->
  skip_space (ws ++ r) = (let '(k, t) := skip_space r in
                          ((String.length ws + k)%nat, t)).
Proof.
  induction ws as [| c ws IH]; intros r; cbn [blank String.append].
  - intros _. cbn [String.length Nat.add]. now destruct (skip_space r).
  - intros H. apply andb_true_iff in H as [Hc Hws].
    cbn [skip_space]. rewrite Hc, (IH r Hws).
    destruct (skip_space r). reflexivity.
Qed.

(** The loop over options written well, up to a tail it stops at. *)
Lemma hasmntopt_loop_opts_then opt tail :
  c_string opt ->
  (forall fuel off, (0 < fuel)%nat ->
                    hasmntopt_loop fuel off tail opt = Some OptNull) ->
  forall toks fuel off,
    Forall wf_opt toks ->
    (String.length (opts_then toks tail) < fuel)%nat ->
    hasmntopt_loop fuel off (opts_then toks tail) opt
    = Some (first_with_prefix opt toks off).
Proof.
  intros Hc Htail. induction toks as [| t toks IH]; intros fuel off Hwf Hlen.
  - cbn [opts_then first_with_prefix]. apply Htail. lia.
  - apply Forall_cons_1 in Hwf as [Ht Hwf].
    cbn [opts_then first_with_prefix] in *.
    destruct fuel as [| fuel]; [ lia | ]. cbn [hasmntopt_loop].
    rewrite (mntopt_wf_comma t _ Ht).
    destruct t as [| c t]; [ now destruct Ht | ].
    pose proof (strncmp_prefix opt (String c t) Hc) as Hp.
    destruct (String.prefix opt (String c t)).
    + replace (strncmp opt (String c t) (String.length opt) =? 0) with true
        by (symmetry; apply Z.eqb_eq; now apply Hp).
      now rewrite Nat.add_0_r.
    + replace (strncmp opt (String c t) (String.length opt) =? 0) with false.
      * rewrite Nat.add_assoc. apply IH; [ exact Hwf | ].
        rewrite str_length_app in Hlen. cbn [String.length] in *. lia.
      * symmetry. apply Z.eqb_neq. intros H. apply Hp in H. discriminate.
Qed.

Lemma hasmntopt_loop_empty_token opt ws r fuel off :
  blank ws = true -> (0 < fuel)%nat ->
  hasmntopt_loop fuel off (ws ++ String "," r) opt = Some OptNull.
Proof.
  intros Hws Hfuel. destruct fuel as [| fuel]; [ lia | ].
  cbn [hasmntopt_loop]. unfold mntopt. rewrite (blank_skip ws _ Hws).
  cbn [skip_space].
  replace (isspace ",") with false by reflexivity.
  cbn [until_comma]. rewrite Ascii.eqb_refl. reflexivity.
Qed.

(** X24.  An empty option ends the scan of [hasmntopt].  Where the
    options are well-written ones, each followed by a comma, and then a
    comma again, after white space or none: only the options in front of
    that are looked at, whatever comes after; the result is the first of
    them that starts with [opt], or null. *)
Theorem hasmntopt_stops_at_empty_option :
  forall (MNT_LINE_MAX : Z) (toks : list string) (ws r opt : string),
    c_string opt -> Forall wf_opt toks -> blank ws = true ->
    strlen (opts_then toks (ws ++ String "," r)) < MNT_LINE_MAX ->
    hasmntopt MNT_LINE_MAX
      (mnttab_opts (opts_then toks (ws ++ String "," r))) opt
    = Some (first_with_prefix opt toks 0).
Proof.
  intros MAX toks ws r opt Hc Hwf Hws Hfit. unfold hasmntopt.
  cbn [mnttab_opts mnt_mntopts].
  replace (MAX <=? strlen (opts_then toks (ws ++ String "," r))) with false
    by (symmetry; lia).
  apply hasmntopt_loop_opts_then; [ exact Hc | | exact Hwf | lia ].
  intros fuel off Hfuel. now apply hasmntopt_loop_empty_token.
Qed.

Lemma hasmntopt_stops_at_empty_option_witness :
  hasmntopt 1024 (mnttab_opts "rw,,nosuid") "nosuid" = Some OptNull.
Proof.
  assert (Hwf : Forall wf_opt ["rw"%string]).
  { constructor; [ | constructor ].
    split; [ discriminate | ]. split; reflexivity. }
  apply (hasmntopt_stops_at_empty_option 1024 ["rw"%string] "" "nosuid"
           "nosuid" eq_refl Hwf eq_refl).
  vm_compute. reflexivity.
Defined.

Lemma join_opts_snoc toks : forall t,
  join_opts (toks ++ [t]) = opts_then toks t.
Proof.
  induction toks as [| u toks IH]; intros t; [ reflexivity | ].
  cbn [app join_opts opts_then]. rewrite <- IH.
  destruct (toks ++ [t]) as [| v l] eqn:E; [ | reflexivity ].
  now destruct toks.
Qed.

(** X25.  On options written well and joined by commas, [hasmntopt]
    finds the first option that starts with [opt] and returns the place
    where it starts; it returns null when no option starts with
    [opt]. *)
Theorem hasmntopt_first_prefix_match :
  forall (MNT_LINE_MAX : Z) (toks : list string) (opt : string),
    c_string opt -> Forall wf_opt toks ->
    strlen (join_opts toks) < MNT_LINE_MAX ->
    hasmntopt MNT_LINE_MAX (mnttab_opts (join_opts toks)) opt
    = Some (first_with_prefix opt toks 0).
Proof.
  intros MAX toks opt Hc Hwf Hfit. unfold hasmntopt.
  cbn [mnttab_opts mnt_mntopts].
  replace (MAX <=? strlen (join_opts toks)) with false by (symmetry; lia).
  induction toks as [| t front _] using rev_ind.
  - reflexivity.
  - apply Forall_app in Hwf as [Hfront Ht].
    apply Forall_cons_1 in Ht as [Ht _].
    rewrite join_opts_snoc.
    assert (Hloop : forall toks' fuel off,
      Forall wf_opt toks' ->
      (String.length (opts_then toks' t) < fuel)%nat ->
      hasmntopt_loop fuel off (opts_then toks' t) opt
      = Some (first_with_prefix opt (toks' ++ [t]) off)).
    { induction toks' as [| u toks' IH]; intros fuel off Hw Hlen.
      - cbn [opts_then app first_with_prefix] in *.
        destruct fuel as [| fuel]; [ lia | ]. cbn [hasmntopt_loop].
        rewrite (mntopt_wf_last t Ht).
        destruct t as [| c t]; [ now destruct Ht | ].
        pose proof (strncmp_prefix opt (String c t) Hc) as Hp.
        destruct (String.prefix opt (String c t)).
        + replace (strncmp opt (String c t) (String.length opt) =? 0)
            with true by (symmetry; apply Z.eqb_eq; now apply Hp).
          now rewrite Nat.add_0_r.
        + replace (strncmp opt (String c t) (String.length opt) =? 0)
            with false
            by (symmetry; apply Z.eqb_neq; intros H; apply Hp in H;
                discriminate).
          destruct fuel as [| fuel]; [ cbn [String.length] in Hlen; lia | ].
          reflexivity.
      - apply Forall_cons_1 in Hw as [Hu Hw].
        cbn [opts_then app first_with_prefix] in *.
        destruct fuel as [| fuel]; [ lia | ]. cbn [hasmntopt_loop].
        rewrite (mntopt_wf_comma u _ Hu).
        destruct u as [| c u]; [ now destruct Hu | ].
        pose proof (strncmp_prefix opt (String c u) Hc) as Hp.
        destruct (String.prefix opt (String c u)).
        + replace (strncmp opt (String c u) (String.length opt) =? 0)
            with true by (symmetry; apply Z.eqb_eq; now apply Hp).
          now rewrite Nat.add_0_r.
        + replace (strncmp opt (String c u) (String.length opt) =? 0)
            with false
            by (symmetry; apply Z.eqb_neq; intros H; apply Hp in H;
                discriminate).
          rewrite Nat.add_assoc. apply IH; [ exact Hw | ].
          rewrite str_length_app in Hlen. cbn [String.length] in *. lia. }
    apply Hloop; [ exact Hfront | lia ].
Qed.

Lemma hasmntopt_first_prefix_match_witness :
  hasmntopt 1024 (mnttab_opts "rw,nodev,nosuid") "nosuid" = Some (OptAt 9).
Proof.
  assert (Hwf : Forall wf_opt ["rw"; "nodev"; "nosuid"]%string).
  { repeat constructor; discriminate. }
  apply (hasmntopt_first_prefix_match 1024 ["rw"; "nodev"; "nosuid"]%string
           "nosuid" eq_refl Hwf).
  vm_compute. reflexivity.
Defined.

(** X26.  An entry that [getmntany] has filled in has no option
    [hasmntopt] could find: its options are the empty string, whatever
    the mount is mounted with. *)
Theorem getmntany_entry_has_no_option :
  forall (MNT_LINE_MAX : Z) (mounts : list statfs) (mgetp mrefp entry : mnttab)
         (opt : string),
    0 < MNT_LINE_MAX ->
    getmntany mounts mgetp mrefp = Some (0, entry) ->
    mnt_mntopts entry = Some ""%string /\
    hasmntopt MNT_LINE_MAX entry opt = Some OptNull.
Proof.
  intros MAX mounts mgetp mrefp entry opt Hmax H.
  assert (Hopts : mnt_mntopts entry = Some ""%string).
  { induction mounts as [| s rest IH]; cbn [getmntany] in H;
      [ discriminate | ].
    destruct (mnt_fstype mrefp) as [fstype |]; [ | discriminate ].
    destruct (strcmp fstype (f_fstypename s) =? 0); [ | now apply IH ].
    destruct (mnt_special mrefp) as [special |]; [ | discriminate ].
    destruct (strcmp special (f_mntfromname s) =? 0); [ | now apply IH ].
    injection H as <-. reflexivity. }
  split; [ exact Hopts | ].
  unfold hasmntopt. rewrite Hopts.
  replace (MAX <=? strlen "") with false
    by (symmetry; apply Z.leb_gt; exact Hmax).
  reflexivity.
Qed.

Lemma getmntany_entry_has_no_option_witness :
  mnt_mntopts (mnttab_of {| f_fstypename := "zfs";
                            f_mntonname := "/Volumes/tank";
                            f_mntfromname := "tank" |}) = Some ""%string /\
  hasmntopt 1024 (mnttab_of {| f_fstypename := "zfs";
                               f_mntonname := "/Volumes/tank";
                               f_mntfromname := "tank" |}) "rw"
  = Some OptNull.
Proof.
  apply (getmntany_entry_has_no_option 1024 fstab_mounts (mnttab_opts "rw")
           (mnttab_ref "zfs" "tank"));
    [ reflexivity | vm_compute; reflexivity ].
Defined.

(** ** The boot device's reads and writes *)

Lemma BSIZE_512 : ZFS_BOOT_DEV_BSIZE = 512.
Proof. reflexivity. Qed.

Lemma zero_loop_fills (dir : IODirection) (total : nat) :
  Z.of_nat total < 2 ^ 64 ->
  forall fuel done rest,
    (done + length rest = total)%nat ->
    (length rest < fuel)%nat ->
    zero_loop fuel {| md_direction := dir;
                      md_bytes := replicate done 0 ++ rest |}
      (replicate (Z.to_nat ZFS_BOOT_DEV_BSIZE) 0)
      (Z.of_nat done) (Z.of_nat (length rest))
    = Some {| md_direction := dir; md_bytes := replicate total 0 |}.
Proof.
  intros Htotal. rewrite BSIZE_512.
  induction fuel as [| fuel IH]; intros done rest Hsum Hfuel; [ lia | ].
  cbn [zero_loop]. rewrite BSIZE_512.
  destruct (Z.gtb_spec (Z.of_nat (length rest)) 0) as [Hpos | Hzero].
  - set (cur := if Z.of_nat (length rest) >? 512
                then 512 else Z.of_nat (length rest)).
    set (n := Z.to_nat cur).
    assert (Hcur : (0 < n <= length rest)%nat /\ (n <= 512)%nat
                   /\ cur = Z.of_nat n).
    { subst n cur.
      destruct (Z.gtb_spec (Z.of_nat (length rest)) 512);
        repeat split; lia. }
    destruct Hcur as (Hn & Hn512 & Hcur).
    rewrite (wrap64_small (Z.of_nat done + cur)) by (unfold is_u64; lia).
    rewrite (wrap64_small (Z.of_nat (length rest) - cur))
      by (unfold is_u64; lia).
    replace (Z.of_nat done + cur) with (Z.of_nat (done + n)) by lia.
    replace (Z.of_nat (length rest) - cur)
      with (Z.of_nat (length (drop n rest)))
      by (rewrite length_drop; lia).
    replace (writeBytes {| md_direction := dir;
                           md_bytes := replicate done 0 ++ rest |}
               (Z.of_nat done) (replicate (Z.to_nat 512) 0) cur)
      with {| md_direction := dir;
              md_bytes := replicate (done + n) 0 ++ drop n rest |}.
    + apply IH; rewrite length_drop; lia.
    + unfold writeBytes. cbn [md_direction md_bytes]. f_equal.
      rewrite Nat2Z.id, length_app, length_replicate.
      fold n. replace (Nat.min n (done + length rest - done)) with n by lia.
      rewrite take_app_length' by (now rewrite length_replicate).
      rewrite take_replicate.
      replace (Nat.min n (Z.to_nat 512)) with n by lia.
      rewrite drop_app_ge by (rewrite length_replicate; lia).
      rewrite length_replicate.
      replace (done + n - done)%nat with n by lia.
      now rewrite replicate_add, <- app_assoc.
  - assert (Hrest : rest = []) 
      by (destruct rest; [ reflexivity | cbn [length] in *; lia ]).
    subst rest. rewrite app_nil_r. cbn [length] in Hsum.
    rewrite Nat.add_0_r in Hsum. now subst done.
Qed.

(** X27.  A read from the boot device gives zeros: whatever the buffer
    held, whatever its length, and whichever block is asked for, the
    loop over pieces of at most a block comes to an end, every byte of
    the buffer is 0 afterwards, and the completion is called with success
    and the length of the buffer. *)
Theorem read_gives_zeros :
  forall (md : IOMemoryDescriptor) (block nblks : Z),
    md_direction md = kIODirectionIn ->
    getLength md < 2 ^ 64 ->
    doAsyncReadWrite (Some md) block nblks
    = Some {| rw_ret := kIOReturnSuccess;
              rw_status := kIOReturnSuccess;
              rw_actual := getLength md;
              rw_buffer :=
                Some {| md_direction := kIODirectionIn;
                        md_bytes := replicate (length (md_bytes md)) 0 |} |}.
Proof.
  intros [dir bytes] block nblks Hdir Hlen. cbn [md_direction] in Hdir.
  subst dir. unfold doAsyncReadWrite, getLength in *.
  cbn [md_direction md_bytes] in *.
  pose proof (zero_loop_fills kIODirectionIn (length bytes) Hlen
                (S (Z.to_nat (Z.of_nat (length bytes)))) 0 bytes) as H.
  cbn [replicate app Nat.add] in H. change (Z.of_nat 0) with 0 in H.
  rewrite H by lia. cbn [md_bytes]. now rewrite length_replicate.
Qed.

Lemma read_gives_zeros_witness :
  doAsyncReadWrite (Some read_1030) 7 3
  = Some {| rw_ret := kIOReturnSuccess;
            rw_status := kIOReturnSuccess;
            rw_actual := 1030;
            rw_buffer :=
              Some {| md_direction := kIODirectionIn;
                      md_bytes := replicate 1030 0 |} |}.
Proof.
  apply (read_gives_zeros read_1030 7 3); [ reflexivity | ].
  vm_compute. reflexivity.
Defined.

(** ** Giving the pool list back *)

Lemma replace_first_flat_map {A B : Type} (p : A -> bool) (f : A -> list B)
    (y : A) (extra : list B) : forall l x,
  List.find p l = Some x ->
  Permutation (f y) (extra ++ f x) ->
  Permutation (flat_map f (replace_first p y l)) (extra ++ flat_map f l).
Proof.
  induction l as [| a l IH]; intros x; cbn [List.find replace_first flat_map];
    [ discriminate | ].
  destruct (p a).
  - intros [= ->] Hy. cbn [flat_map]. rewrite Hy. now rewrite app_assoc.
  - intros Hx Hy. cbn [flat_map]. rewrite (IH x Hx Hy).
    rewrite !app_assoc. apply Permutation_app_tail, Permutation_app_comm.
Qed.

Lemma add_to_vdev_configs txg config ve ve' freed :
  add_to_vdev txg config ve = (ve', freed) ->
  Permutation (vdev_configs ve') (not_freed freed config ++ vdev_configs ve).
Proof.
  unfold add_to_vdev. destruct (List.find (is_txg txg) (ve_configs ve));
    intros [= <- <-]; reflexivity.
Qed.

Lemma add_to_pool_configs top_guid txg config pe pe' freed :
  add_to_pool top_guid txg config pe = (pe', freed) ->
  Permutation (pool_configs pe') (not_freed freed config ++ pool_configs pe).
Proof.
  unfold add_to_pool.
  destruct (List.find (is_vdev top_guid) (pe_vdevs pe)) as [ve |] eqn:E.
  - destruct (add_to_vdev txg config ve) as [ve' fr] eqn:Ev.
    intros [= <- <-]. unfold pool_configs. cbn [pe_vdevs].
    apply (replace_first_flat_map _ _ _ _ _ ve E).
    now apply (add_to_vdev_configs txg).
  - destruct (add_to_vdev txg config {| ve_guid := top_guid; ve_configs := [] |})
      as [ve' fr] eqn:Ev.
    intros [= <- <-]. unfold pool_configs. cbn [pe_vdevs replace_first].
    assert (Hhit : is_vdev top_guid {| ve_guid := top_guid; ve_configs := [] |}
                   = true) by apply Z.eqb_refl.
    rewrite Hhit. cbn [flat_map].
    apply add_to_vdev_configs in Ev. rewrite Ev.
    unfold vdev_configs at 2. cbn [ve_configs List.map]. now rewrite app_nil_r.
Qed.

Lemma add_to_pools_configs pool_guid top_guid txg config ps ps' freed :
  add_to_pools pool_guid top_guid txg config ps = (ps', freed) ->
  Permutation (tree_configs ps') (not_freed freed config ++ tree_configs ps).
Proof.
  unfold add_to_pools.
  destruct (List.find (is_pool pool_guid) ps) as [pe |] eqn:E.
  - destruct (add_to_pool top_guid txg config pe) as [pe' fr] eqn:Ep.
    intros [= <- <-]. unfold tree_configs.
    apply (replace_first_flat_map _ _ _ _ _ pe E).
    now apply (add_to_pool_configs top_guid txg).
  - destruct (add_to_pool top_guid txg config
                {| pe_guid := pool_guid; pe_vdevs := [] |}) as [pe' fr] eqn:Ep.
    intros [= <- <-]. unfold tree_configs. cbn [replace_first].
    assert (Hhit : is_pool pool_guid {| pe_guid := pool_guid; pe_vdevs := [] |}
                   = true) by apply Z.eqb_refl.
    rewrite Hhit. cbn [flat_map].
    apply add_to_pool_configs in Ep. rewrite Ep.
    unfold pool_configs at 2. cbn [pe_vdevs flat_map]. now rewrite app_nil_r.
Qed.

Lemma perm_snoc_front {A : Type} (t a : list A) (x : A) :
  Permutation (t ++ a ++ [x]) (x :: t ++ a).
Proof.
  rewrite app_assoc. rewrite Permutation_app_comm. reflexivity.
Qed.

(** Where the config of a call is after the call. *)
Lemma add_step_configs st c :
  Permutation
    (tree_configs (pools (fst (add_step st c))) ++ snd (add_step st c))
    ((if spare_call c then [] else [call_config c])
     ++ tree_configs (pools (fst st)) ++ snd st).
Proof.
  unfold add_step, zfs_boot_add_config, spare_call. cbn [fst snd].
  destruct (spare_or_l2cache_guid (call_config c)) as [vg |].
  - replace (bool_decide (is_Some (Some vg))) with true
      by (symmetry; apply bool_decide_eq_true; eauto).
    cbn [ac_pl ac_freed set_tree pools app]. now rewrite app_nil_r.
  - replace (bool_decide (is_Some (@None Z))) with false
      by (symmetry; apply bool_decide_eq_false; intros [x Hx]; discriminate).
    destruct (label_identity (call_config c)) as [[[[pg vg] tg] txg] |].
    + destruct (add_to_pools pg tg txg (call_config c) (pools (fst st)))
        as [ps' freed] eqn:E.
      cbn [ac_pl ac_freed set_tree pools].
      apply add_to_pools_configs in E. rewrite E.
      destruct freed; cbn [not_freed app].
      * apply perm_snoc_front.
      * now rewrite app_nil_r.
    + cbn [ac_pl ac_freed app]. apply perm_snoc_front.
Qed.

Lemma add_run_configs calls : forall st,
  Permutation
    (tree_configs (pools (fst (fold_left add_step calls st)))
     ++ snd (fold_left add_step calls st))
    (List.map call_config (List.filter (fun c => negb (spare_call c)) calls)
     ++ tree_configs (pools (fst st)) ++ snd st).
Proof.
  induction calls as [| c calls IH]; intros st; [ reflexivity | ].
  cbn [fold_left List.filter]. rewrite IH, add_step_configs.
  destruct (spare_call c); cbn [negb List.map app]; [ reflexivity | ].
  now rewrite <- Permutation_middle.
Qed.

Lemma add_run_pl calls : forall st,
  fst (fold_left add_step calls st) = add_all (fst st) calls.
Proof.
  induction calls as [| c calls IH]; intros st; [ reflexivity | ].
  cbn [fold_left]. rewrite IH. reflexivity.
Qed.

(** X28.  What becomes of the configs handed to [zfs_boot_add_config].
    After any run of calls on a new pool list, followed by
    [zfs_boot_free]: the configs the calls freed together with the
    configs [zfs_boot_free] frees are, up to order, the configs of the
    calls that were no spare or cache labels, each as often as it was
    handed over.  So every such config is freed once, and the config of
    a spare or cache label is freed by neither.  [zfs_boot_free] frees
    the name of every name entry and leaves no pool list. *)
Theorem free_accounts_for_configs :
  forall (name : option string) (guid : Z) (calls : list add_call),
    let run := add_run (new_pool_list name guid) calls in
    let '(global, configs, freed_names) := zfs_boot_free (Some (fst run)) in
    fst run = add_all (new_pool_list name guid) calls /\
    global = None /\
    Permutation (snd run ++ configs)
      (List.map call_config
         (List.filter (fun c => negb (spare_call c)) calls)) /\
    freed_names = List.map ne_name (names (fst run)).
Proof.
  intros name guid calls run. cbn [zfs_boot_free].
  split; [ apply (add_run_pl calls (new_pool_list name guid, [])) | ].
  split; [ reflexivity | ]. split; [ | reflexivity ].
  rewrite Permutation_app_comm. unfold run, add_run.
  rewrite (add_run_configs calls (new_pool_list name guid, [])).
  cbn [fst snd new_pool_list pools tree_configs flat_map app].
  now rewrite app_nil_r.
Qed.

(** ** Path fixup on a whole vdev tree *)

(** [zfs_boot_fix_paths] at a vdev, by whether it has children. *)
Lemma fix_paths_unfold names ps :
  zfs_boot_fix_paths names (NVL ps)
  = match first_children ps with
    | Some (pre, cs, post) =>
        match fix_children (zfs_boot_fix_paths names) cs with
        | Some cs' =>
            Some (NVL (pre ++ (ZPOOL_CONFIG_CHILDREN, V_nvlist_array cs')
                           :: post))
        | None => None
        end
    | None =>
        match nvlist_lookup_uint64 (NVL ps) ZPOOL_CONFIG_GUID with
        | None => None
        | Some guid => Some (fix_leaf (NVL ps) guid names)
        end
    end.
Proof.
  cbn [zfs_boot_fix_paths].
  match goal with
  | |- match ?f ps with _ => _ end = _ =>
      assert (Hpairs : forall qs,
        f qs = match first_children qs with
               | Some (pre, cs, post) =>
                   Some match fix_children (zfs_boot_fix_paths names) cs with
                        | Some cs' =>
                            Some (pre ++ (ZPOOL_CONFIG_CHILDREN,
                                          V_nvlist_array cs') :: post)
                        | None => None
                        end
               | None => None
               end)
  end.
  { induction qs as [| [n v] r IH]; [ reflexivity | ].
    cbn [first_children].
    assert (Hfurther :
      match
        match first_children r with
        | Some (pre, cs, post) => Some ((n, v) :: pre, cs, post)
        | None => None
        end
      with
      | Some (pre, cs, post) =>
          Some match fix_children (zfs_boot_fix_paths names) cs with
               | Some cs' =>
                   Some (pre ++ (ZPOOL_CONFIG_CHILDREN,
                                 V_nvlist_array cs') :: post)
               | None => None
               end
      | None => None
      end
      = match
          match first_children r with
          | Some (pre, cs, post) =>
              Some match fix_children (zfs_boot_fix_paths names) cs with
                   | Some cs' =>
                       Some (pre ++ (ZPOOL_CONFIG_CHILDREN,
                                     V_nvlist_array cs') :: post)
                   | None => None
                   end
          | None => None
          end
        with
        | None => None
        | Some None => Some None
        | Some (Some r') => Some (Some ((n, v) :: r'))
        end).
    { destruct (first_children r) as [[[pre cs] post] |]; [ | reflexivity ].
      destruct (fix_children (zfs_boot_fix_paths names) cs); reflexivity. }
    destruct v as [z | s | a | nv | cs];
      try (rewrite IH; symmetry; exact Hfurther).
    destruct (String.eqb_spec n ZPOOL_CONFIG_CHILDREN) as [-> | Hne];
      [ | rewrite IH; symmetry; exact Hfurther ].
    cbn [app]. f_equal.
    assert (Hchildren : forall ds,
      (fix children (cs0 : list nvlist) : option (list nvlist) :=
         match cs0 with
         | [] => Some []
         | c :: r0 =>
             match zfs_boot_fix_paths names c, children r0 with
             | Some c', Some r' => Some (c' :: r')
             | _, _ => None
             end
         end) ds
      = fix_children (zfs_boot_fix_paths names) ds).
    { induction ds as [| d ds IHd]; [ reflexivity | ].
      cbn [fix_children]. rewrite <- IHd. reflexivity. }
    rewrite <- Hchildren. reflexivity. }
  rewrite Hpairs.
  destruct (first_children ps) as [[[pre cs] post] |]; [ | reflexivity ].
  destruct (fix_children (zfs_boot_fix_paths names) cs); reflexivity.
Qed.

Lemma first_children_split ps pre cs post :
  first_children ps = Some (pre, cs, post) ->
  ps = pre ++ (ZPOOL_CONFIG_CHILDREN, V_nvlist_array cs) :: post /\
  first_children pre = None.
Proof.
  revert pre. induction ps as [| [n v] r IH]; intros pre;
    cbn [first_children]; [ discriminate | ].
  assert (Hfurther :
    match first_children r with
    | Some (pre0, cs0, post0) => Some ((n, v) :: pre0, cs0, post0)
    | None => None
    end = Some (pre, cs, post) ->
    (forall a, v = V_nvlist_array a ->
               String.eqb n ZPOOL_CONFIG_CHILDREN = false) ->
    (n, v) :: r = pre ++ (ZPOOL_CONFIG_CHILDREN, V_nvlist_array cs) :: post /\
    first_children pre = None).
  { destruct (first_children r) as [[[pre0 cs0] post0] |]; [ | discriminate ].
    intros [= <- <- <-] Hv. destruct (IH pre0 eq_refl) as [-> Hpre].
    split; [ reflexivity | ]. cbn [first_children]. rewrite Hpre.
    destruct v; try reflexivity. now rewrite (Hv _ eq_refl). }
  destruct v as [z | s | a | nv | a];
    try (intros H; apply Hfurther; [ exact H | discriminate ]).
  destruct (String.eqb_spec n ZPOOL_CONFIG_CHILDREN) as [-> | Hne].
  - intros [= <- <- <-]. now split.
  - intros H. apply Hfurther; [ exact H | ]. intros a' _. reflexivity.
Qed.

Lemma first_children_app pre cs post :
  first_children pre = None ->
  first_children (pre ++ (ZPOOL_CONFIG_CHILDREN, V_nvlist_array cs) :: post)
  = Some (pre, cs, post).
Proof.
  induction pre as [| [n v] r IH]; cbn [app first_children].
  - intros _. now rewrite String.eqb_refl.
  - destruct (first_children r) as [[[p c] q] |] eqn:E.
    + destruct v; try discriminate.
      destruct (String.eqb n ZPOOL_CONFIG_CHILDREN); discriminate.
    + intros H. rewrite (IH eq_refl).
      destruct v; try reflexivity.
      destruct (String.eqb n ZPOOL_CONFIG_CHILDREN); [ discriminate | ].
      reflexivity.
Qed.

Lemma first_children_leaf ps :
  first_children ps = None ->
  nvlist_lookup_nvlist_array (NVL ps) ZPOOL_CONFIG_CHILDREN = None.
Proof.
  unfold nvlist_lookup_nvlist_array. cbn [pairs_of].
  induction ps as [| [n v] r IH]; [ reflexivity | ].
  cbn [first_children lookup_with].
  destruct (first_children r) as [[[p c] q] |].
  - destruct v; try discriminate.
    destruct (String.eqb n ZPOOL_CONFIG_CHILDREN); discriminate.
  - intros H. destruct v;
      try (destruct (String.eqb n ZPOOL_CONFIG_CHILDREN); now apply IH).
    destruct (String.eqb n ZPOOL_CONFIG_CHILDREN); [ discriminate | ].
    now apply IH.
Qed.

(** Induction over a vdev tree: a property holds of every property list
    if it holds of one whenever it holds of the lists in its arrays. *)
Section TreeInduction.

Variable P : nvlist -> Prop.
Hypothesis step :
  forall ps,
    (forall n cs, In (n, V_nvlist_array cs) ps -> Forall P cs) ->
    P (NVL ps).

Lemma nvlist_tree_ind : forall nv : nvlist, P nv.
Proof.
  fix nvlist_tree_ind 1. intros nv.
  destruct nv as [ps]. apply step.
  induction ps as [| [m v] r IHr]; [ intros n cs [] | ].
  assert (Hv : match v with
               | V_nvlist_array a => Forall P a
               | _ => True
               end).
  { destruct v as [z | s | a | nv | a]; try exact I.
    induction a as [| c a IHa];
      [ apply List.Forall_nil
      | apply List.Forall_cons; [ apply nvlist_tree_ind | exact IHa ] ]. }
  intros n cs [E | Hin]; [ | exact (IHr n cs Hin) ].
  injection E as _ ->. exact Hv.
Qed.

End TreeInduction.

Lemma fix_children_fixed names cs : forall cs',
  Forall (fun c => forall c', zfs_boot_fix_paths names c = Some c' ->
                              zfs_boot_fix_paths names c' = Some c') cs ->
  fix_children (zfs_boot_fix_paths names) cs = Some cs' ->
  fix_children (zfs_boot_fix_paths names) cs' = Some cs'.
Proof.
  induction cs as [| c cs IH]; intros cs' Hall; cbn [fix_children].
  - intros [= <-]. reflexivity.
  - apply Forall_cons_1 in Hall as [Hc Hall].
    destruct (zfs_boot_fix_paths names c) as [c1 |] eqn:E1; [ | discriminate ].
    destruct (fix_children (zfs_boot_fix_paths names) cs) as [r1 |] eqn:E2;
      [ | discriminate ].
    intros [= <-]. cbn [fix_children].
    now rewrite (Hc c1 eq_refl), (IH r1 Hall eq_refl).
Qed.

Lemma fix_children_length f cs : forall cs',
  fix_children f cs = Some cs' -> length cs' = length cs.
Proof.
  induction cs as [| c cs IH]; intros cs'; cbn [fix_children].
  - intros [= <-]. reflexivity.
  - destruct (f c); [ | discriminate ].
    destruct (fix_children f cs) as [r |]; [ | discriminate ].
    intros [= <-]. cbn [length]. now rewrite (IH r eq_refl).
Qed.

(** X12.  Path fixup is idempotent on a whole vdev tree, whatever its
    depth: where it gives a result, fixing that result once more against
    the same name list gives it again.  An interior vdev keeps its pairs
    and the number of its children; only the children change. *)
Theorem fix_paths_idempotent :
  forall (names : list name_entry) (nv nv' : nvlist),
    zfs_boot_fix_paths names nv = Some nv' ->
    zfs_boot_fix_paths names nv' = Some nv' /\
    forall pre cs post,
      first_children (pairs_of nv) = Some (pre, cs, post) ->
      exists cs',
        length cs' = length cs /\
        nv' = NVL (pre ++ (ZPOOL_CONFIG_CHILDREN, V_nvlist_array cs')
                       :: post).
Proof.
  intros names nv nv' Hfix. split.
  - revert nv' Hfix. induction nv as [ps IH] using nvlist_tree_ind.
    intros nv'. rewrite fix_paths_unfold.
    destruct (first_children ps) as [[[pre cs] post] |] eqn:E.
    + destruct (first_children_split ps pre cs post E) as [Hps Hpre].
      destruct (fix_children (zfs_boot_fix_paths names) cs) as [cs' |] eqn:Ec;
        [ | discriminate ].
      intros [= <-]. rewrite fix_paths_unfold.
      rewrite (first_children_app pre cs' post Hpre).
      rewrite (fix_children_fixed names cs cs'); [ reflexivity | | exact Ec ].
      apply (IH ZPOOL_CONFIG_CHILDREN). rewrite Hps.
      apply in_or_app. right. now left.
    + intros H. apply (fix_leaf_idem names (NVL ps) nv').
      * now apply first_children_leaf.
      * rewrite fix_paths_unfold, E. exact H.
  - intros pre cs post E. destruct nv as [ps]. cbn [pairs_of] in E.
    rewrite fix_paths_unfold, E in Hfix.
    destruct (fix_children (zfs_boot_fix_paths names) cs) as [cs' |] eqn:Ec;
      [ | discriminate ].
    injection Hfix as <-. exists cs'.
    split; [ | reflexivity ].
    exact (fix_children_length (zfs_boot_fix_paths names) cs cs' Ec).
Qed.

Lemma fix_paths_idempotent_witness :
  zfs_boot_fix_paths leaf_names mirror_vdev = Some mirror_vdev_fixed /\
  zfs_boot_fix_paths leaf_names mirror_vdev_fixed = Some mirror_vdev_fixed.
Proof.
  assert (H : zfs_boot_fix_paths leaf_names mirror_vdev
              = Some mirror_vdev_fixed)
    by (vm_compute; reflexivity).
  split; [ exact H | ].
  exact (proj1 (fix_paths_idempotent leaf_names mirror_vdev mirror_vdev_fixed
                  H)).
Defined.

(** ** The boot device's name *)


